(** * Entitlement state machine of the UTM paywall backend

    A shallow embedding of the paywall subsystem: the three model classes
    (models/UserSubscription.js, models/Device.js, models/LicenseKey.js),
    the plan catalogue (models/StripePlan.js), the paywall routes
    (routes/paywall.js), the admin routes (routes/admin.js), the Stripe
    webhook router mounted at /webhook (routes/stripeWebhooks.js), the two
    authentication middlewares (middleware/firebaseAuth.js) and the license
    key pattern of middleware/validation.js.

    Conventions of the embedding.
    - A table of the relational store is a [list] of rows, in insertion
      order.  A nullable TEXT column is an [option string]; a nullable
      TIMESTAMP column is an [option Z] holding milliseconds since the
      epoch, which is what [new Date(x).getTime()] yields in the source.
    - [new Date()] and the database's CURRENT_TIMESTAMP are one explicit
      argument [now].
    - [gen_random_uuid()] is an explicit argument of every insert: the value
      the database draws.  The PRIMARY KEY and UNIQUE constraints of the
      migration are checked by the inserts, which throw when violated.
    - A thrown JavaScript error is the [Throw] constructor of [result].
    - Statuses are the strings of the source; every status the modelled
      handlers write is in the CHECK list of the migration.

    - Joi validates the body of redeem-license; its rule for a GUID is a
      parameter of the embedding, like the digest of the crypto module.

    Not modelled: the routes that work on the Firestore collections and on
    the [users] and [subscriptions] tables (routes/users.js,
    routes/subscriptions.js, routes/auth.js, routes/webhooks.js,
    src/routes/auth.js), which do not touch the four tables of the paywall
    migration, the calls to Stripe and Firebase, which the routes make
    before they write, and the rate limiters, which answer before a handler
    runs. *)

From Stdlib Require Import ZArith NArith List String Ascii Bool Lia.
From Stdlib.Strings Require Import Byte.
Import ListNotations.
Local Open Scope Z_scope.
Local Open Scope string_scope.
Local Open Scope list_scope.

(** ** JavaScript and PostgREST primitives *)

Inductive result (A : Type) : Type :=
| Ok (a : A)
| Throw (message : string).
Arguments Ok {A} a.
Arguments Throw {A} message.

(** Truthiness of a nullable string: [null], [undefined] and [''] are falsy. *)
Definition truthy (v : option string) : bool :=
  match v with
  | Some s => negb (s =? "")
  | None => false
  end.

(** [a || b] on strings. *)
Definition or_default (v : option string) (d : string) : string :=
  match v with
  | Some s => if s =? "" then d else s
  | None => d
  end.

(** [.eq(column, value)] on a nullable column: NULL matches nothing. *)
Definition col_eq (column : option string) (value : string) : bool :=
  match column with
  | Some s => s =? value
  | None => false
  end.

(** [!x] on a nullable timestamp: only [null] is falsy (an ISO timestamp is
    never the empty string). *)
Definition is_null {A : Type} (v : option A) : bool :=
  match v with
  | Some _ => false
  | None => true
  end.

(** [.single()]: exactly one row, otherwise the PGRST116 error, which every
    getter of the models turns into [null]. *)
Definition single {A : Type} (rows : list A) : option A :=
  match rows with
  | [r] => Some r
  | _ => None
  end.

(** One day in milliseconds: [1000 * 60 * 60 * 24]. *)
Definition MS_PER_DAY : Z := 1000 * 60 * 60 * 24.

(** [Math.ceil(a / b)] for integral [a] and positive [b].  The source divides
    in double precision; the quotient is exact to well below one millisecond
    for every pair of timestamps a JavaScript [Date] can hold apart by less
    than a hundred thousand years, so the ceiling is the rational one. *)
Definition ceil_div (a b : Z) : Z := - ((- a) / b).

(** ** models/UserSubscription.js *)

Module UserSubscription.

Record t : Type := mk {
  id : string;
  uid : option string;
  deviceId : option string;
  email : option string;
  stripeCustomerId : option string;
  stripeSubscriptionId : option string;
  planId : option string;
  status : string;
  trialStart : option Z;
  trialEnd : option Z;
  createdAt : Z;
  updatedAt : Z
}.

(** The object handed to [.insert(...)]: columns left out are NULL. *)
Record InsertData : Type := mkInsert {
  i_uid : option string;
  i_device_id : option string;
  i_stripe_customer_id : option string;
  i_stripe_subscription_id : option string;
  i_plan_id : option string;
  i_status : string;
  i_trial_start : option Z;
  i_trial_end : option Z
}.

(** The object handed to [.update(...)]: [None] leaves the column alone,
    [Some v] assigns [v] (which may itself be NULL). *)
Record UpdateData : Type := mkUpdate {
  u_uid : option (option string);
  u_stripe_customer_id : option (option string);
  u_stripe_subscription_id : option (option string);
  u_plan_id : option (option string);
  u_status : option string;
  u_trial_start : option (option Z);
  u_trial_end : option (option Z)
}.

(** The value of a column after UPDATE. *)
Definition assign {A : Type} (new : option A) (old : A) : A :=
  match new with
  | Some v => v
  | None => old
  end.

(** One row after UPDATE: the assigned columns change, and the trigger
    [update_user_subscriptions_updated_at] stamps [updated_at]. *)
Definition apply_update (d : UpdateData) (now : Z) (r : t) : t :=
  mk (id r)
     (assign (u_uid d) (uid r))
     (deviceId r)
     (email r)
     (assign (u_stripe_customer_id d) (stripeCustomerId r))
     (assign (u_stripe_subscription_id d) (stripeSubscriptionId r))
     (assign (u_plan_id d) (planId r))
     (assign (u_status d) (status r))
     (assign (u_trial_start d) (trialStart r))
     (assign (u_trial_end d) (trialEnd r))
     (createdAt r)
     now.

(** [.eq('id', i)] *)
Definition has_id (i : string) (r : t) : bool := id r =? i.

(** [static async create(subscriptionData)]; [id] is the primary key,
    [created_at] and [updated_at] default to CURRENT_TIMESTAMP. *)
Definition create (d : InsertData) (uuid : string) (now : Z) (table : list t)
  : result (t * list t) :=
  if existsb (has_id uuid) table
  then Throw "duplicate key value violates unique constraint"
  else
    let r := mk uuid (i_uid d) (i_device_id d) None
                (i_stripe_customer_id d) (i_stripe_subscription_id d)
                (i_plan_id d) (i_status d) (i_trial_start d) (i_trial_end d)
                now now in
    Ok (r, table ++ [r]).

(** [.order('created_at', { ascending: false }).limit(1)]: the row created
    last; among rows created at the same instant, the one inserted first. *)
Fixpoint latest (rows : list t) : option t :=
  match rows with
  | [] => None
  | r :: rest =>
      match latest rest with
      | Some r' => if (createdAt r <? createdAt r')%Z then Some r' else Some r
      | None => Some r
      end
  end.

(** [static async getByUid(uid)] *)
Definition getByUid (u : string) (table : list t) : option t :=
  latest (filter (fun r => col_eq (uid r) u) table).

(** [static async getByDeviceId(deviceId)] *)
Definition getByDeviceId (d : string) (table : list t) : option t :=
  latest (filter (fun r => col_eq (deviceId r) d) table).

(** [static async getByStripeSubscriptionId(stripeSubscriptionId)] *)
Definition getByStripeSubscriptionId (s : string) (table : list t) : option t :=
  single (filter (fun r => col_eq (stripeSubscriptionId r) s) table).

(** [static async getByStripeCustomerId(stripeCustomerId)] *)
Definition getByStripeCustomerId (c : string) (table : list t) : option t :=
  latest (filter (fun r => col_eq (stripeCustomerId r) c) table).

(** The UPDATE statement of [update]: every row whose id is [i]. *)
Definition update_rows (i : string) (d : UpdateData) (now : Z) (table : list t)
  : list t :=
  map (fun r => if has_id i r then apply_update d now r else r) table.

(** [Object.assign(this, data)]: [data] carries the snake_case columns, so
    only the properties spelled alike on the instance are refreshed
    ([id], [uid], [email], [status]); the camelCase ones keep the values
    read before the update. *)
Definition object_assign (this data : t) : t :=
  mk (id data) (uid data) (deviceId this) (email data)
     (stripeCustomerId this) (stripeSubscriptionId this) (planId this)
     (status data) (trialStart this) (trialEnd this)
     (createdAt this) (updatedAt this).

(** [async update(updateData)]: [.update(updateData).eq('id', this.id)
    .select().single()]; the error of [.single()] is thrown, after the
    UPDATE has run.  The first component is [this] as returned (or the
    error), the second the table afterwards. *)
Definition update (this : t) (d : UpdateData) (now : Z) (table : list t)
  : result t * list t :=
  let table' := update_rows (id this) d now table in
  match single (filter (has_id (id this)) table') with
  | Some data => (Ok (object_assign this data), table')
  | None => (Throw "PGRST116", table')
  end.

(** [async updateStatus(status)] *)
Definition updateStatus (this : t) (s : string) (now : Z) (table : list t)
  : result t * list t :=
  update this (mkUpdate None None None None (Some s) None None) now table.

(** [isActive()] *)
Definition isActive (this : t) : bool := status this =? "active".

(** [isTrial()] *)
Definition isTrial (this : t) (now : Z) : bool :=
  if negb (status this =? "trial") || is_null (trialEnd this) then false
  else
    match trialEnd this with
    | Some trial_end => (now <? trial_end)%Z
    | None => false
    end.

(** [isTrialExpired()] *)
Definition isTrialExpired (this : t) (now : Z) : bool :=
  if negb (status this =? "trial") || is_null (trialEnd this) then false
  else
    match trialEnd this with
    | Some trial_end => (trial_end <=? now)%Z
    | None => false
    end.

(** [getSubscriptionStatus()] *)
Definition getSubscriptionStatus (this : t) (now : Z) : string :=
  if isActive this then "active"
  else if isTrial this now then "trial"
  else if (status this =? "expired") || isTrialExpired this now then "expired"
  else "none".

(** [getTrialDaysRemaining()] *)
Definition getTrialDaysRemaining (this : t) (now : Z) : Z :=
  if negb (isTrial this now) then 0
  else
    match trialEnd this with
    | Some trial_end =>
        let diffTime := trial_end - now in
        let diffDays := ceil_div diffTime MS_PER_DAY in
        Z.max 0 diffDays
    | None => 0
    end.

End UserSubscription.

(** ** The process environment and the libraries

    [crypto.createHmac('sha256', secret).update(message).digest('hex')] is a
    function of the secret and the message; the two secrets and the admin
    key are read from the environment.  [joiUuid] is the rule behind
    [Joi.string().uuid()]: whether Joi takes a string that is not empty for
    a GUID. *)

Record Env : Type := mkEnv {
  createHmacSha256Hex : string -> string -> string;
  DEVICE_ID_SECRET : option string;
  LICENSE_KEY_SECRET : option string;
  ADMIN_API_KEY : option string;
  joiUuid : string -> bool
}.

(** ** models/Device.js *)

Module Device.

Record t : Type := mk {
  id : string;
  deviceId : string;
  createdAt : Z;
  lastSeen : Z;
  linkedUid : option string;
  trialStart : option Z;
  trialEnd : option Z;
  subscriptionStatus : string
}.

Definition has_id (i : string) (r : t) : bool := id r =? i.

(** [static hashDeviceId(deviceId)] *)
Definition hashDeviceId (env : Env) (device_id : string) : string :=
  createHmacSha256Hex env
    (or_default (DEVICE_ID_SECRET env) "default-secret") device_id.

(** [3 * 24 * 60 * 60 * 1000] *)
Definition TRIAL_MS : Z := 3 * 24 * 60 * 60 * 1000.

(** [static async create(deviceId)]; [device_id] is UNIQUE, [id] the
    primary key. *)
Definition create (env : Env) (device_id : string) (uuid : string) (now : Z)
           (table : list t) : result (t * list t) :=
  let hashedDeviceId := hashDeviceId env device_id in
  let trial_end := now + TRIAL_MS in
  if existsb (has_id uuid) table
     || existsb (fun r => deviceId r =? hashedDeviceId) table
  then Throw "duplicate key value violates unique constraint"
  else
    let r := mk uuid hashedDeviceId now now None
                (Some now) (Some trial_end) "trial" in
    Ok (r, table ++ [r]).

(** [static async getByDeviceId(deviceId)] *)
Definition getByDeviceId (env : Env) (device_id : string) (table : list t)
  : option t :=
  let hashedDeviceId := hashDeviceId env device_id in
  single (filter (fun r => deviceId r =? hashedDeviceId) table).

(** [static async getById(id)] *)
Definition getById (i : string) (table : list t) : option t :=
  single (filter (has_id i) table).

(** [async linkToUid(uid)]: [update({ linked_uid: uid })].  [Object.assign]
    copies the snake_case columns onto the instance, so its camelCase
    fields keep the values read before the update. *)
Definition linkToUid (this : t) (u : string) (table : list t)
  : result t * list t :=
  let table' :=
    map (fun r =>
           if has_id (id this) r
           then mk (id r) (deviceId r) (createdAt r) (lastSeen r) (Some u)
                   (trialStart r) (trialEnd r) (subscriptionStatus r)
           else r) table in
  match single (filter (has_id (id this)) table') with
  | Some _ => (Ok this, table')
  | None => (Throw "PGRST116", table')
  end.

(** [isTrialActive()] *)
Definition isTrialActive (this : t) (now : Z) : bool :=
  if negb (subscriptionStatus this =? "trial") || is_null (trialEnd this)
  then false
  else
    match trialEnd this with
    | Some trial_end => (now <? trial_end)%Z
    | None => false
    end.

(** [getTrialDaysRemaining()] *)
Definition getTrialDaysRemaining (this : t) (now : Z) : Z :=
  if negb (isTrialActive this now) then 0
  else
    match trialEnd this with
    | Some trial_end =>
        let diffTime := trial_end - now in
        let diffDays := ceil_div diffTime MS_PER_DAY in
        Z.max 0 diffDays
    | None => 0
    end.

(** The object built by [toPublicJSON()]. *)
Record PublicJSON : Type := mkPublic {
  guest_id : string;
  trial_start : option Z;
  trial_end : option Z;
  status : string;
  is_trial_active : bool;
  trial_days_remaining : Z
}.

(** [toPublicJSON()] *)
Definition toPublicJSON (this : t) (now : Z) : PublicJSON :=
  mkPublic (id this) (trialStart this) (trialEnd this)
           (subscriptionStatus this) (isTrialActive this now)
           (getTrialDaysRemaining this now).

End Device.

(** ** models/StripePlan.js *)

Module StripePlan.

Record t : Type := mk {
  id : Z;
  stripePriceId : string;
  planKey : string;
  name : string;
  period : string;
  amount : Z;
  currency : string
}.

(** [static async getByStripePriceId(stripePriceId)] *)
Definition getByStripePriceId (p : string) (table : list t) : option t :=
  single (filter (fun r => stripePriceId r =? p) table).

(** [static async getByPlanKey(planKey)] *)
Definition getByPlanKey (k : string) (table : list t) : option t :=
  single (filter (fun r => planKey r =? k) table).

End StripePlan.

(** ** Buffers and strings of the key generator *)

(** One lowercase hexadecimal digit of [Buffer.toString('hex')]. *)
Definition hex_digit (n : N) : ascii :=
  if (n <? 10)%N then ascii_of_N (48 + n) else ascii_of_N (97 + (n - 10)).

(** [buf.toString('hex')]: two digits per byte, high nibble first. *)
Fixpoint toStringHex (buf : list byte) : string :=
  match buf with
  | [] => ""
  | b :: rest =>
      String (hex_digit (Byte.to_N b / 16))
             (String (hex_digit (Byte.to_N b mod 16)) (toStringHex rest))
  end.

Definition upper_char (c : ascii) : ascii :=
  let n := N_of_ascii c in
  if ((97 <=? n) && (n <=? 122))%N then ascii_of_N (n - 32) else c.

(** [s.toUpperCase()] on ASCII text. *)
Fixpoint toUpperCase (s : string) : string :=
  match s with
  | EmptyString => EmptyString
  | String c rest => String (upper_char c) (toUpperCase rest)
  end.

(** [segments.join(sep)] *)
Fixpoint join (sep : string) (segments : list string) : string :=
  match segments with
  | [] => ""
  | [x] => x
  | x :: rest => String.append x (String.append sep (join sep rest))
  end.

(** ** models/LicenseKey.js *)

Module LicenseKey.

Record t : Type := mk {
  id : string;
  key : string;
  planId : string;
  expiresAt : option Z;
  singleUse : bool;
  boundUid : option string;
  boundDeviceId : option string;
  redeemedAt : option Z;
  createdBy : option string;
  createdAt : Z
}.

Definition has_id (i : string) (r : t) : bool := id r =? i.

(** [static generateKey()].  The argument is the random source: the two
    bytes that the [i]-th call of [crypto.randomBytes(2)] returns. *)
Definition generateKey (randomBytes2 : nat -> byte * byte) : string :=
  let segments :=
    map (fun i =>
           let (b0, b1) := randomBytes2 i in
           toUpperCase (toStringHex [b0; b1]))
        (seq 0 3) in
  String.append "UTM-" (join "-" segments).

(** [static hashKey(key)] *)
Definition hashKey (env : Env) (k : string) : string :=
  createHmacSha256Hex env
    (or_default (LICENSE_KEY_SECRET env) "default-secret") k.

(** The options of [createMultiple]: [expiresAt], [singleUse] (where
    [None] is [undefined]) and [createdBy]. *)
Record Options : Type := mkOptions {
  o_expiresAt : option Z;
  o_singleUse : option bool;
  o_createdBy : option string
}.

(** [options.singleUse !== false] *)
Definition single_use_flag (o : Options) : bool :=
  match o_singleUse o with
  | Some false => false
  | _ => true
  end.

(** One INSERT into [license_keys]: [key] is UNIQUE, [id] the primary key;
    the binding and [redeemed_at] are not given and default to NULL. *)
Definition insert (hashedKey plan_id : string) (o : Options)
           (uuid : string) (now : Z) (table : list t)
  : result (t * list t) :=
  if existsb (has_id uuid) table || existsb (fun r => key r =? hashedKey) table
  then Throw "duplicate key value violates unique constraint"
  else
    let r := mk uuid hashedKey plan_id (o_expiresAt o) (single_use_flag o)
                None None None (o_createdBy o) now in
    Ok (r, table ++ [r]).

(** [static async createMultiple(planId, count, options)].  [draws i] is
    what the [i]-th round of the loop draws: the random source of
    [generateKey] and the uuid of the inserted row.  The rows inserted
    before a failing round stay in the table. *)
Fixpoint createMultiple_from (env : Env) (i : nat) (plan_id : string)
         (count : nat) (o : Options)
         (draws : nat -> (nat -> byte * byte) * string) (now : Z)
         (table : list t) : result (list t * list string) * list t :=
  match count with
  | O => (Ok ([], []), table)
  | S count' =>
      let k := generateKey (fst (draws i)) in
      let hashedKey := hashKey env k in
      match insert hashedKey plan_id o (snd (draws i)) now table with
      | Throw e => (Throw e, table)
      | Ok (data, table') =>
          match createMultiple_from env (S i) plan_id count' o draws now table'
          with
          | (Ok (keys, plaintextKeys), table'') =>
              (Ok (data :: keys, k :: plaintextKeys), table'')
          | (Throw e, table'') => (Throw e, table'')
          end
      end
  end.

Definition createMultiple (env : Env) := createMultiple_from env 0.

(** [static async getByKey(key)] *)
Definition getByKey (env : Env) (k : string) (table : list t) : option t :=
  let hashedKey := hashKey env k in
  single (filter (fun r => key r =? hashedKey) table).

(** The three columns that [redeem] and [revoke] hand to [update]. *)
Record UpdateData : Type := mkUpdate {
  bound_uid : option string;
  bound_device_id : option string;
  redeemed_at : option Z
}.

Definition apply_update (d : UpdateData) (r : t) : t :=
  mk (id r) (key r) (planId r) (expiresAt r) (singleUse r)
     (bound_uid d) (bound_device_id d) (redeemed_at d)
     (createdBy r) (createdAt r).

Definition update_rows (i : string) (d : UpdateData) (table : list t) : list t :=
  map (fun r => if has_id i r then apply_update d r else r) table.

(** [async update(updateData)]: an UPDATE of every row with [this.id],
    with no condition on any other column.  [Object.assign(this, data)]
    refreshes only [id] and [key], the two properties spelled like their
    columns; [this.redeemedAt], [this.boundUid] and [this.boundDeviceId]
    keep the values read before the update. *)
Definition update (this : t) (d : UpdateData) (table : list t)
  : result t * list t :=
  let table' := update_rows (id this) d table in
  match single (filter (has_id (id this)) table') with
  | Some data =>
      (Ok (mk (id data) (key data) (planId this) (expiresAt this)
              (singleUse this) (boundUid this) (boundDeviceId this)
              (redeemedAt this) (createdBy this) (createdAt this)), table')
  | None => (Throw "PGRST116", table')
  end.

(** [isRedeemed()] *)
Definition isRedeemed (this : t) : bool := negb (is_null (redeemedAt this)).

(** [isExpired()] *)
Definition isExpired (this : t) (now : Z) : bool :=
  match expiresAt this with
  | None => false
  | Some expires_at => (expires_at <=? now)%Z
  end.

(** [isValidForRedemption()] *)
Definition isValidForRedemption (this : t) (now : Z) : bool :=
  negb (isRedeemed this) && negb (isExpired this now).

(** [async redeem(boundUid = null, boundDeviceId = null)] *)
Definition redeem (this : t) (boundUid' boundDeviceId' : option string)
           (now : Z) (table : list t) : result t * list t :=
  if isRedeemed this
  then (Throw "License key has already been redeemed", table)
  else if isExpired this now
  then (Throw "License key has expired", table)
  else update this (mkUpdate boundUid' boundDeviceId' (Some now)) table.

(** [async revoke()] *)
Definition revoke (this : t) (now : Z) (table : list t) : result t * list t :=
  update this (mkUpdate None None (Some now)) table.

(** [getBoundInfo()] *)
Inductive BoundInfo : Type :=
| BoundToUid (u : string)
| BoundToDevice (d : string).

Definition getBoundInfo (this : t) : option BoundInfo :=
  if truthy (boundUid this) then option_map BoundToUid (boundUid this)
  else if truthy (boundDeviceId this)
  then option_map BoundToDevice (boundDeviceId this)
  else None.

(** The object built by [toPublicJSON()]. *)
Record PublicJSON : Type := mkPublic {
  plan_id : string;
  expires_at : option Z;
  bound_to : option BoundInfo
}.

(** [toPublicJSON()] *)
Definition toPublicJSON (this : t) : PublicJSON :=
  mkPublic (planId this) (expiresAt this) (getBoundInfo this).

End LicenseKey.

(** ** The store: the four tables of the paywall migration *)

Record Store : Type := mkStore {
  devices : list Device.t;
  user_subscriptions : list UserSubscription.t;
  license_keys : list LicenseKey.t;
  stripe_plans : list StripePlan.t
}.

Definition empty_store (plans : list StripePlan.t) : Store :=
  mkStore [] [] [] plans.

Definition with_devices (s : Store) (d : list Device.t) : Store :=
  mkStore d (user_subscriptions s) (license_keys s) (stripe_plans s).

Definition with_user_subscriptions (s : Store) (u : list UserSubscription.t)
  : Store :=
  mkStore (devices s) u (license_keys s) (stripe_plans s).

Definition with_license_keys (s : Store) (l : list LicenseKey.t) : Store :=
  mkStore (devices s) (user_subscriptions s) l (stripe_plans s).

(** ** routes/stripeWebhooks.js *)

Module Webhooks.

(** [event.data.object] of a [checkout.session.completed] event. *)
Record Session : Type := mkSession {
  session_id : string;
  metadata_uid : option string;
  metadata_guest_id : option string;
  session_customer : option string;
  session_subscription : option string
}.

(** [event.data.object] of the two invoice events. *)
Record Invoice : Type := mkInvoice {
  invoice_id : string;
  invoice_subscription : option string
}.

(** [event.data.object] of the three subscription events; [price_id] is
    [items?.data?.[0]?.price?.id]. *)
Record StripeSubscription : Type := mkStripeSubscription {
  subscription_id : string;
  subscription_customer : string;
  subscription_status : string;
  price_id : option string
}.

(** A verified event, by the cases of the [switch (event.type)]. *)
Inductive Event : Type :=
| CheckoutSessionCompleted (session : Session)
| InvoicePaymentSucceeded (invoice : Invoice)
| InvoicePaymentFailed (invoice : Invoice)
| CustomerSubscriptionCreated (sub : StripeSubscription)
| CustomerSubscriptionUpdated (sub : StripeSubscription)
| CustomerSubscriptionDeleted (sub : StripeSubscription)
| Unhandled (type : string).

(** What a handler leaves behind: whether it threw, and the store. *)
Definition Outcome : Type := (result unit * Store)%type.

Definition after_update (s : Store)
           (r : result UserSubscription.t * list UserSubscription.t) : Outcome :=
  match r with
  | (Ok _, table) => (Ok tt, with_user_subscriptions s table)
  | (Throw e, table) => (Throw e, with_user_subscriptions s table)
  end.

Definition after_create (s : Store)
           (r : result (UserSubscription.t * list UserSubscription.t)) : Outcome :=
  match r with
  | Ok (_, table) => (Ok tt, with_user_subscriptions s table)
  | Throw e => (Throw e, s)
  end.

(** [subscriptionData] of [handleCheckoutSessionCompleted], as the object
    given to [update]. *)
Definition checkout_update (session : Session) : UserSubscription.UpdateData :=
  UserSubscription.mkUpdate None
    (Some (session_customer session)) (Some (session_subscription session))
    (Some None) (Some "active") None None.

(** [{ uid: uid, ...subscriptionData }] and
    [{ device_id: device.id, ...subscriptionData }], as given to [create]. *)
Definition checkout_insert (session : Session) (u d : option string)
  : UserSubscription.InsertData :=
  UserSubscription.mkInsert u d
    (session_customer session) (session_subscription session)
    None "active" None None.

(** [async function handleCheckoutSessionCompleted(session)] *)
Definition handleCheckoutSessionCompleted (session : Session)
           (now : Z) (uuid : string) (s : Store) : Outcome :=
  let uid := metadata_uid session in
  let guest_id := metadata_guest_id session in
  if negb (truthy uid) && negb (truthy guest_id) then (Ok tt, s)
  else if truthy uid then
    let u := or_default uid "" in
    match UserSubscription.getByUid u (user_subscriptions s) with
    | Some subscription =>
        after_update s
          (UserSubscription.update subscription (checkout_update session)
             now (user_subscriptions s))
    | None =>
        after_create s
          (UserSubscription.create (checkout_insert session (Some u) None)
             uuid now (user_subscriptions s))
    end
  else if truthy guest_id then
    match Device.getById (or_default guest_id "") (devices s) with
    | Some device =>
        match UserSubscription.getByDeviceId (Device.id device)
                (user_subscriptions s) with
        | Some subscription =>
            after_update s
              (UserSubscription.update subscription (checkout_update session)
                 now (user_subscriptions s))
        | None =>
            after_create s
              (UserSubscription.create
                 (checkout_insert session None (Some (Device.id device)))
                 uuid now (user_subscriptions s))
        end
    | None => (Ok tt, s)
    end
  else (Ok tt, s).

(** The body shared by [handleInvoicePaymentSucceeded],
    [handleInvoicePaymentFailed] and [handleSubscriptionDeleted] once the
    subscription id is known: locate the row, [updateStatus]. *)
Definition force_status (subscriptionId : string) (new_status : string)
           (now : Z) (s : Store) : Outcome :=
  match UserSubscription.getByStripeSubscriptionId subscriptionId
          (user_subscriptions s) with
  | None => (Ok tt, s)
  | Some subscription =>
      after_update s
        (UserSubscription.updateStatus subscription new_status now
           (user_subscriptions s))
  end.

(** [async function handleInvoicePaymentSucceeded(invoice)] *)
Definition handleInvoicePaymentSucceeded (invoice : Invoice) (now : Z)
           (s : Store) : Outcome :=
  let subscriptionId := invoice_subscription invoice in
  if negb (truthy subscriptionId) then (Ok tt, s)
  else force_status (or_default subscriptionId "") "active" now s.

(** [async function handleInvoicePaymentFailed(invoice)] *)
Definition handleInvoicePaymentFailed (invoice : Invoice) (now : Z)
           (s : Store) : Outcome :=
  let subscriptionId := invoice_subscription invoice in
  if negb (truthy subscriptionId) then (Ok tt, s)
  else force_status (or_default subscriptionId "") "past_due" now s.

(** [const { StripePlan } = require('../models/StripePlan')] inside
    [handleSubscriptionCreated].  models/StripePlan.js ends in
    [module.exports = StripePlan]: what [require] yields is the class
    itself, which has no static property called [StripePlan], so the
    destructuring binds [undefined] ([None]).  The binding would be the
    lookup by price. *)
Definition destructured_StripePlan
  : option (string -> list StripePlan.t -> option StripePlan.t) := None.

(** [async function handleSubscriptionCreated(stripeSubscription)].  With a
    price id the handler reaches [StripePlan.getByStripePriceId(priceId)]
    on the [undefined] above: a TypeError, which the [catch] logs and
    throws again.  The code behind that line is never run. *)
Definition handleSubscriptionCreated (sub : StripeSubscription) (now : Z)
           (s : Store) : Outcome :=
  let subscriptionId := subscription_id sub in
  let customerId := subscription_customer sub in
  let priceId := price_id sub in
  if negb (truthy priceId) then (Ok tt, s)
  else
    match destructured_StripePlan with
    | None =>
        (Throw "Cannot read properties of undefined (reading 'getByStripePriceId')",
         s)
    | Some getByStripePriceId =>
        match getByStripePriceId (or_default priceId "") (stripe_plans s) with
        | None => (Ok tt, s)
        | Some plan =>
            match UserSubscription.getByStripeCustomerId customerId
                    (user_subscriptions s) with
            | Some subscription =>
                after_update s
                  (UserSubscription.update subscription
                     (UserSubscription.mkUpdate None None
                        (Some (Some subscriptionId))
                        (Some (Some (StripePlan.planKey plan)))
                        (Some "active") None None)
                     now (user_subscriptions s))
            | None => (Ok tt, s)
            end
        end
    end.

(** The [switch (status)] of [handleSubscriptionUpdated]. *)
Definition mappedStatus (status : string) : string :=
  if status =? "active" then "active"
  else if status =? "past_due" then "past_due"
  else if (status =? "canceled") || (status =? "cancelled") then "canceled"
  else if (status =? "incomplete") || (status =? "incomplete_expired")
  then "expired"
  else if status =? "trialing" then "trial"
  else if status =? "unpaid" then "expired"
  else "expired".

(** [async function handleSubscriptionUpdated(stripeSubscription)] *)
Definition handleSubscriptionUpdated (sub : StripeSubscription) (now : Z)
           (s : Store) : Outcome :=
  let subscriptionId := subscription_id sub in
  let status := subscription_status sub in
  match UserSubscription.getByStripeSubscriptionId subscriptionId
          (user_subscriptions s) with
  | None => (Ok tt, s)
  | Some subscription =>
      after_update s
        (UserSubscription.updateStatus subscription (mappedStatus status) now
           (user_subscriptions s))
  end.

(** [async function handleSubscriptionDeleted(stripeSubscription)] *)
Definition handleSubscriptionDeleted (sub : StripeSubscription) (now : Z)
           (s : Store) : Outcome :=
  force_status (subscription_id sub) "canceled" now s.

(** The [switch (event.type)] of the route. *)
Definition dispatch (event : Event) (now : Z) (uuid : string) (s : Store)
  : Outcome :=
  match event with
  | CheckoutSessionCompleted session =>
      handleCheckoutSessionCompleted session now uuid s
  | InvoicePaymentSucceeded invoice => handleInvoicePaymentSucceeded invoice now s
  | InvoicePaymentFailed invoice => handleInvoicePaymentFailed invoice now s
  | CustomerSubscriptionCreated sub => handleSubscriptionCreated sub now s
  | CustomerSubscriptionUpdated sub => handleSubscriptionUpdated sub now s
  | CustomerSubscriptionDeleted sub => handleSubscriptionDeleted sub now s
  | Unhandled _ => (Ok tt, s)
  end.

Inductive Response : Type :=
| Received
| InvalidSignature
| ProcessingFailed.

(** [router.post('/stripe', ...)].  [verified] is what
    [verifyWebhookSignature] yields: the event, or [None] when it throws. *)
Definition stripe (verified : option Event) (now : Z) (uuid : string)
           (s : Store) : Response * Store :=
  match verified with
  | None => (InvalidSignature, s)
  | Some event =>
      match dispatch event now uuid s with
      | (Ok _, s') => (Received, s')
      | (Throw _, s') => (ProcessingFailed, s')
      end
  end.

End Webhooks.

(** ** src/routes/webhooks.js

    A second Stripe router, which server.js requires but does not mount.  It
    writes to another table ([subscriptions]); only its status table is of
    interest here. *)

Module LegacyWebhooks.

(** What [map[s] || 'expired'] can yield: a string, or a member that the
    object literal inherits from [Object.prototype] (a function, or the
    prototype itself for [__proto__]; each of them truthy). *)
Inductive Value : Type :=
| Text (s : string)
| Inherited (name : string).

(** The object literal [map] of [mapStripeStatus]: its own properties. *)
Definition status_map : list (string * string) :=
  [("active", "active"); ("past_due", "past_due"); ("canceled", "canceled");
   ("incomplete", "incomplete"); ("incomplete_expired", "incomplete_expired");
   ("trialing", "trialing"); ("unpaid", "unpaid")].

(** The properties of [Object.prototype] that have a string for a name. *)
Definition Object_prototype : list string :=
  ["constructor"; "__defineGetter__"; "__defineSetter__"; "hasOwnProperty";
   "__lookupGetter__"; "__lookupSetter__"; "isPrototypeOf";
   "propertyIsEnumerable"; "toString"; "valueOf"; "__proto__";
   "toLocaleString"].

(** The own property [s] of an object literal. *)
Fixpoint lookup (s : string) (m : list (string * string)) : option string :=
  match m with
  | [] => None
  | (k, v) :: rest => if k =? s then Some v else lookup s rest
  end.

(** [map[s]]: the own property if there is one, else the inherited one,
    else [undefined]. *)
Definition get (s : string) : option Value :=
  match lookup s status_map with
  | Some v => Some (Text v)
  | None =>
      if existsb (String.eqb s) Object_prototype then Some (Inherited s)
      else None
  end.

(** [function mapStripeStatus(s)]: [map[s] || 'expired']. *)
Definition mapStripeStatus (s : string) : Value :=
  match get s with
  | Some (Text v) => if v =? "" then Text "expired" else Text v
  | Some (Inherited name) => Inherited name
  | None => Text "expired"
  end.

End LegacyWebhooks.

(** ** routes/paywall.js *)

Module Paywall.

(** [Joi.string().required().min(1).max(255)]: present, not empty, at most
    255 characters. *)
Definition valid_text (v : option string) : bool :=
  match v with
  | Some s => negb (s =? "") && (Nat.leb (String.length s) 255)
  | None => false
  end.

(** *** POST /api/start-guest-trial *)

Inductive TrialResponse : Type :=
| TrialBadRequest
| TrialOk (view : Device.PublicJSON)
| TrialFailed.

(** [uuid_device] and [uuid_subscription] are the ids the database draws
    for the two inserts. *)
Definition startGuestTrial (env : Env) (body_device_id : option string)
           (now : Z) (uuid_device uuid_subscription : string) (s : Store)
  : TrialResponse * Store :=
  if negb (valid_text body_device_id) then (TrialBadRequest, s)
  else
    let device_id := or_default body_device_id "" in
    match Device.getByDeviceId env device_id (devices s) with
    | Some device => (TrialOk (Device.toPublicJSON device now), s)
    | None =>
        match Device.create env device_id uuid_device now (devices s) with
        | Throw _ => (TrialFailed, s)
        | Ok (device, devices') =>
            let s1 := with_devices s devices' in
            match UserSubscription.create
                    (UserSubscription.mkInsert None (Some (Device.id device))
                       None None None "trial"
                       (Device.trialStart device) (Device.trialEnd device))
                    uuid_subscription now (user_subscriptions s1) with
            | Throw _ => (TrialFailed, s1)
            | Ok (_, subs') =>
                (TrialOk (Device.toPublicJSON device now),
                 with_user_subscriptions s1 subs')
            end
        end
    end.

(** *** GET /api/check-subscription and GET /api/my-subscription *)

(** The lookup of check-subscription: by the authenticated uid first, else
    through the guest's device. *)
Definition current_subscription (uid guest_id : option string) (s : Store)
  : option UserSubscription.t :=
  if truthy uid then
    UserSubscription.getByUid (or_default uid "") (user_subscriptions s)
  else if truthy guest_id then
    match Device.getById (or_default guest_id "") (devices s) with
    | Some device =>
        UserSubscription.getByDeviceId (Device.id device) (user_subscriptions s)
    | None => None
    end
  else None.

Record SubscriptionView : Type := mkView {
  v_status : string;
  v_plan : option StripePlan.t;
  v_trialStart : option Z;
  v_trialEnd : option Z;
  v_isActive : bool;
  v_isTrial : bool;
  v_trialDaysRemaining : Z;
  v_licensePlan : option string
}.

Definition plan_of (subscription : UserSubscription.t) (s : Store)
  : option StripePlan.t :=
  if truthy (UserSubscription.planId subscription) then
    StripePlan.getByPlanKey
      (or_default (UserSubscription.planId subscription) "") (stripe_plans s)
  else None.

(** The fields read off a located subscription.  my-subscription sends
    [status], [plan], [trialStart], [trialEnd], [isActive], [isTrial] and
    [trialDaysRemaining]; [v_licensePlan] is the plan id of a record that a
    license created, which check-subscription sends inside [licenseKey]. *)
Definition view_of (subscription : UserSubscription.t) (now : Z) (s : Store)
  : SubscriptionView :=
  mkView (UserSubscription.getSubscriptionStatus subscription now)
         (plan_of subscription s)
         (UserSubscription.trialStart subscription)
         (UserSubscription.trialEnd subscription)
         (UserSubscription.isActive subscription)
         (UserSubscription.isTrial subscription now)
         (UserSubscription.getTrialDaysRemaining subscription now)
         (match UserSubscription.planId subscription with
          | Some p => if String.prefix "license_" p then Some p else None
          | None => None
          end).

(** The body sent when no subscription is found. *)
Definition view_none : SubscriptionView :=
  mkView "none" None None None false false 0 None.

(** The [licenseKey] object of check-subscription: [{ plan_id:
    subscription.planId, expires_at: null }]. *)
Record CheckLicenseKey : Type := mkCheckLicenseKey {
  l_plan_id : string;
  l_expires_at : option Z
}.

(** The body that check-subscription sends with status 200: [status],
    [plan], [trialStart], [trialEnd] and [licenseKey], and nothing else
    (besides [success: true]).  [c_plan] is the row whose [toPublicJSON()]
    is sent. *)
Record CheckBody : Type := mkCheck {
  c_status : string;
  c_plan : option StripePlan.t;
  c_trialStart : option Z;
  c_trialEnd : option Z;
  c_licenseKey : option CheckLicenseKey
}.

(** The body for a located subscription. *)
Definition check_of (subscription : UserSubscription.t) (now : Z) (s : Store)
  : CheckBody :=
  mkCheck (UserSubscription.getSubscriptionStatus subscription now)
          (plan_of subscription s)
          (UserSubscription.trialStart subscription)
          (UserSubscription.trialEnd subscription)
          (match UserSubscription.planId subscription with
           | Some p =>
               if String.prefix "license_" p
               then Some (mkCheckLicenseKey p None)
               else None
           | None => None
           end).

(** The body sent when no subscription is found. *)
Definition check_none : CheckBody := mkCheck "none" None None None None.

Inductive CheckResponse : Type :=
| CheckBadRequest
| CheckOk (body : CheckBody).

(** [router.get('/check-subscription', optionalFirebaseAuth, ...)];
    [uid] is [req.user.uid] when the optional authentication succeeded. *)
Definition checkSubscription (uid guest_id : option string) (now : Z)
           (s : Store) : CheckResponse :=
  if negb (truthy uid) && negb (truthy guest_id) then CheckBadRequest
  else
    match current_subscription uid guest_id s with
    | None => CheckOk check_none
    | Some subscription => CheckOk (check_of subscription now s)
    end.

(** [router.get('/my-subscription', firebaseAuth, ...)] *)
Definition mySubscription (uid : string) (now : Z) (s : Store)
  : SubscriptionView :=
  match UserSubscription.getByUid uid (user_subscriptions s) with
  | None => view_none
  | Some subscription => view_of subscription now s
  end.

(** *** POST /api/redeem-license *)

Inductive RedeemResponse : Type :=
| RedeemBadRequest (error : string)
| RedeemFailed (error : string)
| RedeemOk (body : LicenseKey.PublicJSON).

(** The binding chosen from the caller's identity: [(boundUid,
    boundDeviceId)], or the 400 response. *)
Definition choose_binding (uid guest_id : option string) (s : Store)
  : RedeemResponse + (option string * option string) :=
  if truthy uid then inr (uid, None)
  else if truthy guest_id then
    match Device.getById (or_default guest_id "") (devices s) with
    | None => inl (RedeemBadRequest "Invalid guest ID")
    | Some device => inr (None, Some (Device.id device))
    end
  else inl (RedeemBadRequest "Either authentication or guest_id required").

(** [subscriptionData] of the route. *)
Definition license_insert (licenseKey : LicenseKey.t)
           (boundUid boundDeviceId : option string)
  : UserSubscription.InsertData :=
  let plan := Some (String.append "license_" (LicenseKey.planId licenseKey)) in
  if truthy boundUid
  then UserSubscription.mkInsert boundUid None None None plan "active" None None
  else UserSubscription.mkInsert None boundDeviceId None None plan "active"
                                 None None.

(** How Joi's messages name the key at fault: between double quotes. *)
Definition quoted (label : string) : string :=
  String "034"%char (String.append label (String "034"%char "")).

(** What Joi says of a key declared [Joi.string()] that is present, with
    the rule [rule] on top: what is wrong with it first, if anything. *)
Definition string_error (label : string) (rule : string -> option string)
           (v : string) : option string :=
  if v =? ""
  then Some (String.append (quoted label) " is not allowed to be empty")
  else rule v.

(** [.min(1).max(255)] on a string that is not empty. *)
Definition max_255 (label : string) (v : string) : option string :=
  if Nat.leb (String.length v) 255 then None
  else Some (String.append (quoted label)
               " length must be less than or equal to 255 characters long").

(** [.uuid()] *)
Definition uuid_rule (env : Env) (label : string) (v : string)
  : option string :=
  if joiUuid env v then None
  else Some (String.append (quoted label) " must be a valid GUID").

(** [.optional()]: an absent key passes. *)
Definition optional (check : string -> option string) (v : option string)
  : option string :=
  match v with
  | Some x => check x
  | None => None
  end.

(** [.required()] *)
Definition required (label : string) (check : string -> option string)
           (v : option string) : option string :=
  match v with
  | Some x => check x
  | None => Some (String.append (quoted label) " is required")
  end.

(** The first of two checks that fails. *)
Definition first_error (a b : option string) : option string :=
  match a with
  | Some e => Some e
  | None => b
  end.

(** [redeemLicenseSchema.validate(req.body)] on a body that has no other
    keys than these three, each a string where present:
    [error.details[0].message], or [None] when the body passes.  Joi goes
    through the keys in the order of the schema and stops at the first that
    fails. *)
Definition redeemLicenseSchema (env : Env)
           (key guest_id id_token : option string) : option string :=
  first_error (required "key" (string_error "key" (max_255 "key")) key)
    (first_error
       (optional (string_error "guest_id" (uuid_rule env "guest_id")) guest_id)
       (optional (string_error "id_token" (fun _ => None)) id_token)).

(** [router.post('/redeem-license', licenseRateLimit, ...)]: the handler,
    with [uid] for [req.user.uid] (see [Mounted] below for what the route
    as mounted leaves there). *)
Definition redeemLicense (env : Env)
           (body_key guest_id id_token uid : option string)
           (now : Z) (uuid_subscription : string) (s : Store)
  : RedeemResponse * Store :=
  match redeemLicenseSchema env body_key guest_id id_token with
  | Some message => (RedeemBadRequest message, s)
  | None =>
    match LicenseKey.getByKey env (or_default body_key "") (license_keys s) with
    | None => (RedeemBadRequest "Invalid license key", s)
    | Some licenseKey =>
        if negb (LicenseKey.isValidForRedemption licenseKey now) then
          (RedeemBadRequest
             (if LicenseKey.isRedeemed licenseKey
              then "License key has already been redeemed"
              else "License key has expired"), s)
        else
          match choose_binding uid guest_id s with
          | inl response => (response, s)
          | inr (boundUid, boundDeviceId) =>
              match LicenseKey.redeem licenseKey boundUid boundDeviceId now
                      (license_keys s) with
              | (Throw e, keys') => (RedeemFailed e, with_license_keys s keys')
              | (Ok licenseKey', keys') =>
                  let s1 := with_license_keys s keys' in
                  match UserSubscription.create
                          (license_insert licenseKey' boundUid boundDeviceId)
                          uuid_subscription now (user_subscriptions s1) with
                  | Throw e => (RedeemFailed e, s1)
                  | Ok (_, subs') =>
                      (RedeemOk (LicenseKey.toPublicJSON licenseKey'),
                       with_user_subscriptions s1 subs')
                  end
              end
          end
    end
  end.

(** *** POST /api/link-guest *)

Inductive LinkResponse : Type :=
| LinkBadRequest (error : string)
| LinkFailed
| LinkOk.

Definition linkGuest (guest_id uid : string) (now : Z)
           (uuid_subscription : string) (s : Store) : LinkResponse * Store :=
  match Device.getById guest_id (devices s) with
  | None => (LinkBadRequest "Invalid guest ID", s)
  | Some device =>
      if truthy (Device.linkedUid device)
      then (LinkBadRequest "Device is already linked to an account", s)
      else
        match Device.linkToUid device uid (devices s) with
        | (Throw _, devices') => (LinkFailed, with_devices s devices')
        | (Ok device', devices') =>
            let s1 := with_devices s devices' in
            match UserSubscription.getByUid uid (user_subscriptions s1) with
            | None =>
                match UserSubscription.create
                        (UserSubscription.mkInsert (Some uid) None None None None
                           (Device.subscriptionStatus device')
                           (Device.trialStart device') (Device.trialEnd device'))
                        uuid_subscription now (user_subscriptions s1) with
                | Throw _ => (LinkFailed, s1)
                | Ok (_, subs') => (LinkOk, with_user_subscriptions s1 subs')
                end
            | Some subscription =>
                if is_null (UserSubscription.trialStart subscription)
                   && negb (is_null (Device.trialStart device'))
                then
                  match UserSubscription.update subscription
                          (UserSubscription.mkUpdate None None None None
                             (Some (Device.subscriptionStatus device'))
                             (Some (Device.trialStart device'))
                             (Some (Device.trialEnd device')))
                          now (user_subscriptions s1) with
                  | (Throw _, subs') =>
                      (LinkFailed, with_user_subscriptions s1 subs')
                  | (Ok _, subs') => (LinkOk, with_user_subscriptions s1 subs')
                  end
                else (LinkOk, s1)
            end
        end
  end.

End Paywall.

(** ** routes/admin.js *)

Module Admin.

(** [adminAuth]: [!adminKey || adminKey !== expectedKey] rejects. *)
Definition adminAuth (env : Env) (x_admin_key : option string) : bool :=
  match x_admin_key, ADMIN_API_KEY env with
  | Some k, Some expected => truthy (Some k) && (k =? expected)
  | _, _ => false
  end.

Inductive Response : Type :=
| Unauthorized
| BadRequest
| NotFound
| Failed
| Revoked
| Generated (keys : list string).

(** [router.post('/generate-license-keys', ...)]; [count] has passed
    [Joi.number().integer().min(1).max(1000)]. *)
Definition generateLicenseKeys (env : Env) (x_admin_key : option string)
           (plan_id : string) (count : nat) (o : LicenseKey.Options)
           (draws : nat -> (nat -> byte * byte) * string) (now : Z)
           (s : Store) : Response * Store :=
  if negb (adminAuth env x_admin_key) then (Unauthorized, s)
  else if (Nat.ltb count 1) || (Nat.ltb 1000 count) then (BadRequest, s)
  else
    match StripePlan.getByPlanKey plan_id (stripe_plans s) with
    | None => (BadRequest, s)
    | Some _ =>
        match LicenseKey.createMultiple env plan_id count o draws now
                (license_keys s) with
        | (Throw _, keys') => (Failed, with_license_keys s keys')
        | (Ok (_, plaintextKeys), keys') =>
            (Generated plaintextKeys, with_license_keys s keys')
        end
    end.

(** [router.post('/revoke-license', ...)] *)
Definition revokeLicense (env : Env) (x_admin_key : option string)
           (body_key : option string) (now : Z) (s : Store)
  : Response * Store :=
  if negb (adminAuth env x_admin_key) then (Unauthorized, s)
  else if negb (truthy body_key) then (BadRequest, s)
  else
    match LicenseKey.getByKey env (or_default body_key "") (license_keys s) with
    | None => (NotFound, s)
    | Some licenseKey =>
        match LicenseKey.revoke licenseKey now (license_keys s) with
        | (Throw _, keys') => (Failed, with_license_keys s keys')
        | (Ok _, keys') => (Revoked, with_license_keys s keys')
        end
    end.

End Admin.

(** ** The redemption route, one database call at a time

    Node runs a handler without interruption between two [await]s, so what
    two requests in flight can interleave are their database calls.  The
    route of POST /api/redeem-license makes up to four: the SELECT of
    [getByKey], the SELECT of [Device.getById] (guest only), the UPDATE of
    [redeem] and the INSERT of [UserSubscription.create].  [Pc] is the point
    a request has reached, with the values it holds in local variables. *)

Module RedeemSteps.

Import Paywall.

Record Request : Type := mkRequest {
  body_key : option string;
  guest_id : option string;
  id_token : option string;
  uid : option string;
  uuid_subscription : string
}.

Inductive Pc : Type :=
| AtGetByKey
| AtGetDevice (licenseKey : LicenseKey.t)
| AtRedeem (licenseKey : LicenseKey.t) (boundUid boundDeviceId : option string)
| AtCreate (licenseKey : LicenseKey.t) (boundUid boundDeviceId : option string)
| Done (response : RedeemResponse).

(** The next database call of the request and the code up to the one
    after it. *)
Definition step (env : Env) (req : Request) (now : Z) (pc : Pc) (s : Store)
  : Pc * Store :=
  match pc with
  | AtGetByKey =>
      match redeemLicenseSchema env (body_key req) (guest_id req)
              (id_token req) with
      | Some message => (Done (RedeemBadRequest message), s)
      | None =>
        match LicenseKey.getByKey env (or_default (body_key req) "")
                (license_keys s) with
        | None => (Done (RedeemBadRequest "Invalid license key"), s)
        | Some licenseKey =>
            if negb (LicenseKey.isValidForRedemption licenseKey now) then
              (Done (RedeemBadRequest
                       (if LicenseKey.isRedeemed licenseKey
                        then "License key has already been redeemed"
                        else "License key has expired")), s)
            else if truthy (uid req) then (AtRedeem licenseKey (uid req) None, s)
            else if truthy (guest_id req) then (AtGetDevice licenseKey, s)
            else (Done (RedeemBadRequest
                          "Either authentication or guest_id required"), s)
        end
      end
  | AtGetDevice licenseKey =>
      match Device.getById (or_default (guest_id req) "") (devices s) with
      | None => (Done (RedeemBadRequest "Invalid guest ID"), s)
      | Some device => (AtRedeem licenseKey None (Some (Device.id device)), s)
      end
  | AtRedeem licenseKey boundUid boundDeviceId =>
      match LicenseKey.redeem licenseKey boundUid boundDeviceId now
              (license_keys s) with
      | (Throw e, keys') => (Done (RedeemFailed e), with_license_keys s keys')
      | (Ok licenseKey', keys') =>
          (AtCreate licenseKey' boundUid boundDeviceId,
           with_license_keys s keys')
      end
  | AtCreate licenseKey boundUid boundDeviceId =>
      match UserSubscription.create
              (license_insert licenseKey boundUid boundDeviceId)
              (uuid_subscription req) now (user_subscriptions s) with
      | Throw e => (Done (RedeemFailed e), s)
      | Ok (_, subs') =>
          (Done (RedeemOk (LicenseKey.toPublicJSON licenseKey)),
           with_user_subscriptions s subs')
      end
  | Done response => (Done response, s)
  end.

(** One request alone: its (at most four) calls in a row. *)
Fixpoint run (env : Env) (req : Request) (now : Z) (fuel : nat) (pc : Pc)
         (s : Store) : Pc * Store :=
  match fuel with
  | O => (pc, s)
  | S fuel' =>
      let (pc', s') := step env req now pc s in
      run env req now fuel' pc' s'
  end.

(** Two requests in flight.  A schedule says, call by call, which of the
    two the database serves next, and at what time. *)
Inductive Who : Type := First | Second.

Fixpoint interleave (env : Env) (a b : Request) (schedule : list (Who * Z))
         (pa pb : Pc) (s : Store) : Pc * Pc * Store :=
  match schedule with
  | [] => (pa, pb, s)
  | (First, now) :: rest =>
      let (pa', s') := step env a now pa s in
      interleave env a b rest pa' pb s'
  | (Second, now) :: rest =>
      let (pb', s') := step env b now pb s in
      interleave env a b rest pa pb' s'
  end.

End RedeemSteps.

(** ** The service as a transition system *)

Module Service.

(** The requests that reach the four tables.  GET /api/plans,
    POST /api/create-checkout-session and the listing and statistics routes
    of the admin router only read them.

    [LegacyRedeemLicense] is POST /api/subscriptions/redeem-license of
    src/routes/subscription.js.  It selects from [license_keys] with
    [.eq('is_redeemed', false)], a column that no migration of the
    repository creates: the query comes back with an error and no data, the
    route answers 400 "Invalid or redeemed key" and its UPDATE and INSERT
    are never reached. *)

Inductive Request : Type :=
| StartGuestTrial (body_device_id : option string)
                  (uuid_device uuid_subscription : string)
| CheckSubscription (uid guest_id : option string)
| MySubscription (uid : string)
| RedeemLicense (body_key guest_id id_token uid : option string)
                (uuid_subscription : string)
| LinkGuest (guest_id uid : string) (uuid_subscription : string)
| StripeWebhook (verified : option Webhooks.Event) (uuid : string)
| GenerateLicenseKeys (x_admin_key : option string) (plan_id : string)
                      (count : nat) (o : LicenseKey.Options)
                      (draws : nat -> (nat -> byte * byte) * string)
| RevokeLicense (x_admin_key : option string) (body_key : option string)
| LegacyRedeemLicense (licenseKey : string).

(** The store after a request has been served at time [now]. *)
Definition serve (env : Env) (req : Request) (now : Z) (s : Store) : Store :=
  match req with
  | StartGuestTrial d ud us => snd (Paywall.startGuestTrial env d now ud us s)
  | CheckSubscription _ _ => s
  | MySubscription _ => s
  | RedeemLicense k g t u us =>
      snd (Paywall.redeemLicense env k g t u now us s)
  | LinkGuest g u us => snd (Paywall.linkGuest g u now us s)
  | StripeWebhook v u => snd (Webhooks.stripe v now u s)
  | GenerateLicenseKeys a p c o d =>
      snd (Admin.generateLicenseKeys env a p c o d now s)
  | RevokeLicense a k => snd (Admin.revokeLicense env a k now s)
  | LegacyRedeemLicense _ => s
  end.

(** The stores the service can be in, started on empty tables with the
    plan catalogue [plans]. *)
Inductive reachable (env : Env) (plans : list StripePlan.t) : Store -> Prop :=
| reachable_init : reachable env plans (empty_store plans)
| reachable_serve s req now :
    reachable env plans s -> reachable env plans (serve env req now s).

End Service.

(** ** Definitions taken from the specification, for comparison *)

Module Spec.

(** The status table of the billing event processor, as the
    specification words it: [active -> active], [past_due -> past_due],
    [canceled -> canceled], [incomplete] and [incomplete_expired ->
    expired], [trialing -> trial], [unpaid -> expired], anything else
    [-> expired]. *)
Definition status_table (external : string) : string :=
  if external =? "active" then "active"
  else if external =? "past_due" then "past_due"
  else if external =? "canceled" then "canceled"
  else if external =? "incomplete" then "expired"
  else if external =? "incomplete_expired" then "expired"
  else if external =? "trialing" then "trial"
  else if external =? "unpaid" then "expired"
  else "expired".

(** [trial_days_remaining = max(0, ceil((trial_end - now) / 1 day))] *)
Definition trial_days_remaining (trial_end now : Z) : Z :=
  Z.max 0 (ceil_div (trial_end - now) MS_PER_DAY).

End Spec.

(** ** Definitions used by the statements *)

(** What the UPDATE of [UserSubscription.update] does to one row. *)
Definition patched (i : string) (d : UserSubscription.UpdateData) (now : Z)
           (r : UserSubscription.t) : UserSubscription.t :=
  if UserSubscription.has_id i r then UserSubscription.apply_update d now r else r.

(** The stored status of the record with external subscription id [sid]. *)
Definition status_by_subscription (sid : string) (s : Store) : option string :=
  option_map UserSubscription.status
    (UserSubscription.getByStripeSubscriptionId sid (user_subscriptions s)).

(** [{ status }], the object that [updateStatus] hands to [update]. *)
Definition status_update (st : string) : UserSubscription.UpdateData :=
  UserSubscription.mkUpdate None None None None (Some st) None None.

(** What the UPDATE of [LicenseKey.update] does to one row. *)
Definition key_patched (i : string) (d : LicenseKey.UpdateData) (r : LicenseKey.t)
  : LicenseKey.t :=
  if LicenseKey.has_id i r then LicenseKey.apply_update d r else r.

(** The requests that write a binding, and the others. *)
Inductive Kind : Type := Redeeming | Revoking | Other.

(** The kind of a request. *)
Definition kind_of (req : Service.Request) : Kind :=
  match req with
  | Service.RedeemLicense _ _ _ _ _ => Redeeming
  | Service.RevokeLicense _ _ => Revoking
  | _ => Other
  end.

(** The four ways a request can leave the license key table, by the kind of
    the request. *)
Inductive keys_effect (keys keys' : list LicenseKey.t) : Kind -> Prop :=
| effect_none kind : keys' = keys -> keys_effect keys keys' kind
| effect_generate fresh :
    keys' = keys ++ fresh ->
    Forall (fun r => LicenseKey.boundUid r = None /\
                     LicenseKey.boundDeviceId r = None /\
                     LicenseKey.redeemedAt r = None) fresh ->
    (NoDup (map LicenseKey.id keys) -> NoDup (map LicenseKey.id keys')) ->
    keys_effect keys keys' Other
| effect_redeem licenseKey boundUid boundDeviceId now :
    In licenseKey keys ->
    LicenseKey.redeemedAt licenseKey = None ->
    boundUid = None \/ boundDeviceId = None ->
    keys' = LicenseKey.update_rows (LicenseKey.id licenseKey)
              (LicenseKey.mkUpdate boundUid boundDeviceId (Some now)) keys ->
    keys_effect keys keys' Redeeming
| effect_revoke licenseKey now :
    In licenseKey keys ->
    keys' = LicenseKey.update_rows (LicenseKey.id licenseKey)
              (LicenseKey.mkUpdate None None (Some now)) keys ->
    keys_effect keys keys' Revoking.

(** At most one of [bound_uid] and [bound_device_id] is set. *)
Definition binding_exclusive (k : LicenseKey.t) : Prop :=
  LicenseKey.boundUid k = None \/ LicenseKey.boundDeviceId k = None.

(** Neither [bound_uid] nor [bound_device_id] is set. *)
Definition unbound (k : LicenseKey.t) : Prop :=
  LicenseKey.boundUid k = None /\ LicenseKey.boundDeviceId k = None.

(** The six bytes [generateKey] draws, in the order drawn. *)
Definition drawn_bytes (randomBytes2 : nat -> byte * byte) : list byte :=
  flat_map (fun i => [fst (randomBytes2 i); snd (randomBytes2 i)]) (seq 0 3).

(** A random source that hands out the bytes of [l], two per call. *)
Definition source_of (l : list byte) : nat -> byte * byte :=
  fun i => (nth (2 * i) l x00, nth (2 * i + 1) l x00).

(** Byte strings of a given length, counted: little-endian base 256. *)
Fixpoint index_of_bytes (l : list byte) : N :=
  match l with
  | [] => 0
  | b :: rest => Byte.to_N b + 256 * index_of_bytes rest
  end.

(** The byte with value [n], for [n < 256]. *)
Definition byte_of_N (n : N) : byte :=
  match Byte.of_N n with
  | Some b => b
  | None => x00
  end.

(** The [count] bytes numbered [n]: the inverse of [index_of_bytes]. *)
Fixpoint bytes_of_index (count : nat) (n : N) : list byte :=
  match count with
  | O => []
  | S count' => byte_of_N (n mod 256) :: bytes_of_index count' (n / 256)
  end.

(** The key drawn when the six random bytes are those numbered [n]. *)
Definition key_of_index (n : N) : string :=
  LicenseKey.generateKey (source_of (bytes_of_index 6 n)).

(** A segment as the specification wants it: uppercase alphanumeric. *)
Definition upper_alnum (c : ascii) : bool :=
  let n := N_of_ascii c in
  ((48 <=? n) && (n <=? 57) || (65 <=? n) && (n <=? 90))%N.

(** Every character of [s] satisfies [p]. *)
Fixpoint all_chars (p : ascii -> bool) (s : string) : bool :=
  match s with
  | EmptyString => true
  | String c rest => p c && all_chars p rest
  end.

(** The value of an uppercase hexadecimal digit. *)
Definition unhex_digit (c : ascii) : N :=
  let n := N_of_ascii c in
  if (n <=? 57)%N then n - 48 else n - 55.

(** The byte written as the two uppercase hexadecimal digits [c1 c2]. *)
Definition unhex_byte (c1 c2 : ascii) : byte :=
  byte_of_N (16 * unhex_digit c1 + unhex_digit c2).

(** The segment of [generateKey] for the two bytes of one draw. *)
Definition segment (b0 b1 : byte) : string := toUpperCase (toStringHex [b0; b1]).

(** The two bytes read back from a segment. *)
Definition unsegment (s : string) : list byte :=
  match s with
  | String c1 (String c2 (String c3 (String c4 EmptyString))) =>
      [unhex_byte c1 c2; unhex_byte c3 c4]
  | _ => []
  end.

(** The bytes read back from a key: the twelve digits after [UTM-]. *)
Definition parse_key (k : string) : list byte :=
  match k with
  | String _ (String _ (String _ (String _
      (String c1 (String c2 (String c3 (String c4 (String _
         (String c5 (String c6 (String c7 (String c8 (String _
            (String c9 (String c10 (String c11 (String c12 EmptyString)))))))))))))))))
    => [unhex_byte c1 c2; unhex_byte c3 c4; unhex_byte c5 c6;
        unhex_byte c7 c8; unhex_byte c9 c10; unhex_byte c11 c12]
  | _ => []
  end.

(** What one request can do to the entitlement table: nothing, one UPDATE
    by id, or one INSERT. *)
Definition subscriptions_step (t t' : list UserSubscription.t) : Prop :=
  t' = t \/
  (exists i d now, t' = UserSubscription.update_rows i d now t) \/
  (exists ins uuid now r, UserSubscription.create ins uuid now t = Ok (r, t')).

(** A row without the stamp of the [updated_at] trigger. *)
Definition forget_updated_at (r : UserSubscription.t) : UserSubscription.t :=
  UserSubscription.mk
    (UserSubscription.id r) (UserSubscription.uid r) (UserSubscription.deviceId r)
    (UserSubscription.email r) (UserSubscription.stripeCustomerId r)
    (UserSubscription.stripeSubscriptionId r) (UserSubscription.planId r)
    (UserSubscription.status r) (UserSubscription.trialStart r)
    (UserSubscription.trialEnd r) (UserSubscription.createdAt r) 0.

(** Two stores that hold the same devices, keys and plans, and the same
    entitlement records in the same order, up to [updated_at]. *)
Definition same_entitlements (s1 s2 : Store) : Prop :=
  devices s1 = devices s2 /\
  license_keys s1 = license_keys s2 /\
  stripe_plans s1 = stripe_plans s2 /\
  map forget_updated_at (user_subscriptions s1) =
  map forget_updated_at (user_subscriptions s2).

(** The handlers that locate one record and update it. *)
Definition locate_update (locate : list UserSubscription.t -> option UserSubscription.t)
           (d : UserSubscription.UpdateData) (now : Z) (s : Store)
  : Webhooks.Outcome :=
  match locate (user_subscriptions s) with
  | Some r =>
      Webhooks.after_update s
        (UserSubscription.update r d now (user_subscriptions s))
  | None => (Ok tt, s)
  end.

(** ** Sample data *)

(** An entitlement record in status [st] with the given trial window; the
    other columns are those of a guest trial row. *)
Definition sample_subscription (st : string) (trial_start trial_end : option Z)
  : UserSubscription.t :=
  UserSubscription.mk "sub-1" None (Some "dev-1") None None None None st
                      trial_start trial_end 0 0.

(** The first plan of the catalogue that the migration inserts. *)
Definition sample_plans : list StripePlan.t :=
  [StripePlan.mk 1 "price_monthly_pro" "pro_monthly" "Pro Monthly" "monthly" 999 "usd"].

(** One paying account: a row of [alice] with customer [cus_1] and
    subscription [sub_1]. *)
Definition sample_paying_store : Store :=
  mkStore []
    [UserSubscription.mk "row-1" (Some "alice") None None (Some "cus_1")
       (Some "sub_1") (Some "pro_monthly") "active" None None 1000 1000]
    [] sample_plans.

(** The Stripe subscription [sub_1] of that customer, in a given status. *)
Definition sample_stripe_subscription (external_status : string)
  : Webhooks.StripeSubscription :=
  Webhooks.mkStripeSubscription "sub_1" "cus_1" external_status
                                (Some "price_monthly_pro").

(** A hexadecimal digit, of either case. *)
Definition hex_char (c : ascii) : bool :=
  let n := N_of_ascii c in
  ((48 <=? n) && (n <=? 57) || (65 <=? n) && (n <=? 70)
   || (97 <=? n) && (n <=? 102))%N.

(** [n] hexadecimal digits at the head of [s]: what is left of [s] behind
    them. *)
Fixpoint hex_run (n : nat) (s : string) : option string :=
  match n with
  | O => Some s
  | S n' =>
      match s with
      | String c rest => if hex_char c then hex_run n' rest else None
      | EmptyString => None
      end
  end.

(** A GUID written as [gen_random_uuid()] writes it: 8-4-4-4-12
    hexadecimal digits. *)
Definition hyphenated_guid (s : string) : bool :=
  match hex_run 8 s with
  | Some (String "-" s1) =>
      match hex_run 4 s1 with
      | Some (String "-" s2) =>
          match hex_run 4 s2 with
          | Some (String "-" s3) =>
              match hex_run 4 s3 with
              | Some (String "-" s4) =>
                  match hex_run 12 s4 with
                  | Some EmptyString => true
                  | _ => false
                  end
              | _ => false
              end
          | _ => false
          end
      | _ => false
      end
  | _ => false
  end.

(** An environment for the examples: the digest is the secret and the
    message side by side, no secret is configured, the admin key is
    [admin], and the GUIDs are the hyphenated ones. *)
Definition sample_env : Env :=
  mkEnv (fun secret message => String.append secret (String.append ":" message))
        None None (Some "admin") hyphenated_guid.

(** A plaintext key, as [generateKey] draws it from the bytes
    0a 1b 2c 3d 4e 5f. *)
Definition sample_key : string := "UTM-0A1B-2C3D-4E5F".

(** The admin generates one key, drawing the bytes of [sample_key]. *)
Definition sample_generate : Service.Request :=
  Service.GenerateLicenseKeys (Some "admin") "pro_monthly" 1
    (LicenseKey.mkOptions None None (Some "ops"))
    (fun _ => (source_of [x0a; x1b; x2c; x3d; x4e; x5f], "key-1")).

(** A key nobody has redeemed. *)
Definition sample_fresh_key : LicenseKey.t :=
  LicenseKey.mk "key-1" (LicenseKey.hashKey sample_env sample_key) "pro_monthly"
                None true None None None (Some "ops") 10.

(** A store that holds just that key. *)
Definition sample_fresh_store : Store :=
  mkStore [] [] [sample_fresh_key] sample_plans.

(** The ids that the database drew for the devices of two guests. *)
Definition sample_guest_a : string := "11111111-1111-4111-8111-111111111111".

(** The id of the second device. *)
Definition sample_guest_b : string := "22222222-2222-4222-8222-222222222222".

(** The store after the two guests have started their trials and the admin
    has generated [sample_key]. *)
Definition sample_guests_store : Store :=
  Service.serve sample_env sample_generate 300
    (Service.serve sample_env
       (Service.StartGuestTrial (Some "fingerprint-b") sample_guest_b "row-2") 200
       (Service.serve sample_env
          (Service.StartGuestTrial (Some "fingerprint-a") sample_guest_a "row-1")
          100 (empty_store sample_plans))).

(** The first guest redeems the key. *)
Definition sample_guest_redeem : Service.Request :=
  Service.RedeemLicense (Some sample_key) (Some sample_guest_a) None None "row-a".

(** The store after that redemption. *)
Definition sample_guest_redeemed_store : Store :=
  Service.serve sample_env sample_guest_redeem 1000 sample_guests_store.

(** The key as the database holds it after the redemption. *)
Definition sample_guest_redeemed_key : LicenseKey.t :=
  LicenseKey.mk "key-1" (LicenseKey.hashKey sample_env sample_key) "pro_monthly"
                None true None (Some sample_guest_a) (Some 1000) (Some "ops") 300.

(** The body [{ key, guest_id }] that the first guest posts to
    redeem-license; no middleware of the route fills [req.user], so [uid]
    is [undefined]. *)
Definition request_of_guest_a : RedeemSteps.Request :=
  RedeemSteps.mkRequest (Some sample_key) (Some sample_guest_a) None None "row-a".

(** The request of the second guest, with the same key. *)
Definition request_of_guest_b : RedeemSteps.Request :=
  RedeemSteps.mkRequest (Some sample_key) (Some sample_guest_b) None None "row-b".

(** The database serves the calls of the two requests in turn: both have
    read the key (and their device) before either updates it. *)
Definition racing_schedule : list (RedeemSteps.Who * Z) :=
  [(RedeemSteps.First, 1000); (RedeemSteps.Second, 1001);
   (RedeemSteps.First, 1002); (RedeemSteps.Second, 1003);
   (RedeemSteps.First, 1004); (RedeemSteps.Second, 1005);
   (RedeemSteps.First, 1006); (RedeemSteps.Second, 1007)].

(** The first request from its first call to its last, then the second. *)
Definition sequential_schedule : list (RedeemSteps.Who * Z) :=
  [(RedeemSteps.First, 1000); (RedeemSteps.First, 1001);
   (RedeemSteps.First, 1002); (RedeemSteps.First, 1003);
   (RedeemSteps.Second, 1004); (RedeemSteps.Second, 1005);
   (RedeemSteps.Second, 1006); (RedeemSteps.Second, 1007)].

(** A checkout of [alice]. *)
Definition sample_checkout : Webhooks.Event :=
  Webhooks.CheckoutSessionCompleted
    (Webhooks.mkSession "cs_1" (Some "alice") None (Some "cus_1") (Some "sub_1")).

(** The store after its first delivery to empty tables, which creates her
    record. *)
Definition sample_after_checkout : Store :=
  snd (Webhooks.stripe (Some sample_checkout) 2000 "row-1"
         (empty_store sample_plans)).

(** The store after a guest has started a trial at time 1000. *)
Definition sample_trial_store : Store :=
  snd (Paywall.startGuestTrial sample_env (Some "fingerprint-1") 1000
         "dev-1" "row-1" (empty_store sample_plans)).

(** The checkout session of that guest. *)
Definition sample_guest_session : Webhooks.Session :=
  Webhooks.mkSession "cs_2" None (Some "dev-1") (Some "cus_2") (Some "sub_2").

(** ** Further code of the repository *)

(** *** middleware/firebaseAuth.js

    [verifyIdToken] of config/firebase.js is the identity provider: it
    yields the decoded token, of which the routes read [uid], or throws
    "Invalid authentication token" ([None]). *)

Module FirebaseAuth.

(** [s.split(sep)[0]]: the text before the first occurrence of [sep]. *)
Fixpoint before (sep s : string) : string :=
  if String.prefix sep s then ""
  else
    match s with
    | EmptyString => ""
    | String c rest => String c (before sep rest)
    end.

(** The text after the first occurrence of [sep], if there is one. *)
Fixpoint after (sep s : string) : option string :=
  if String.prefix sep s
  then Some (String.substring (String.length sep)
                              (String.length s - String.length sep) s)
  else
    match s with
    | EmptyString => None
    | String c rest => after sep rest
    end.

(** [s.split(sep)[1]] for a separator that is not empty: the text between
    the first and the second occurrence of [sep], [undefined] when [sep]
    does not occur. *)
Definition split_1 (sep s : string) : option string :=
  option_map (before sep) (after sep s).

Inductive Outcome : Type :=
| Unauthorized (error : string)
| Next (uid : option string).

(** [const firebaseAuth = async (req, res, next) => ...] *)
Definition firebaseAuth (verifyIdToken : string -> option string)
           (authorization : option string) : Outcome :=
  match authorization with
  | None => Unauthorized "No valid authorization header provided"
  | Some authHeader =>
      if negb (truthy authorization)
         || negb (String.prefix "Bearer " authHeader)
      then Unauthorized "No valid authorization header provided"
      else
        let idToken := split_1 "Bearer " authHeader in
        if negb (truthy idToken) then Unauthorized "No Firebase ID token provided"
        else
          match verifyIdToken (or_default idToken "") with
          | Some uid => Next (Some uid)
          | None => Unauthorized "Invalid or expired authentication token"
          end
  end.

(** [const optionalFirebaseAuth = async (req, res, next) => ...]: what it
    leaves in [req.user]. *)
Definition optionalFirebaseAuth (verifyIdToken : string -> option string)
           (authorization : option string) : option string :=
  match authorization with
  | None => None
  | Some authHeader =>
      if negb (truthy authorization)
         || negb (String.prefix "Bearer " authHeader)
      then None
      else
        let idToken := split_1 "Bearer " authHeader in
        if negb (truthy idToken) then None
        else verifyIdToken (or_default idToken "")
  end.

(** GET /api/check-subscription behind [optionalFirebaseAuth]. *)
Definition checkSubscription (verifyIdToken : string -> option string)
           (authorization guest_id : option string) (now : Z) (s : Store)
  : Paywall.CheckResponse :=
  Paywall.checkSubscription (optionalFirebaseAuth verifyIdToken authorization)
                            guest_id now s.

End FirebaseAuth.

(** *** POST /api/create-checkout-session of routes/paywall.js

    The route writes nothing to the store.  The model stops at the
    [sessionConfig] it hands to [stripe.checkout.sessions.create];
    [new_customer] is the id of the customer that
    [stripe.customers.create] returns when the route asks for one.  The
    arguments are the request body after the Joi schema has accepted it. *)

Module Checkout.

Record SessionConfig : Type := mkConfig {
  customer : string;
  price : string;
  metadata_uid : option string;
  metadata_guest_id : option string;
  trial_end : option Z
}.

Inductive Response : Type :=
| BadRequest (error : string)
| Create (sessionConfig : SessionConfig).

(** [Math.floor(new Date(x).getTime() / 1000)] *)
Definition unix_seconds (ms : Z) : Z := ms / 1000.

(** "Determine trial end date if applicable": the guest's device first,
    else the account's record. *)
Definition trialEnd (guest_id uid : option string) (now : Z) (s : Store)
  : option Z :=
  if truthy guest_id then
    match Device.getById (or_default guest_id "") (devices s) with
    | Some device =>
        if Device.isTrialActive device now
        then option_map unix_seconds (Device.trialEnd device)
        else None
    | None => None
    end
  else if truthy uid then
    match UserSubscription.getByUid (or_default uid "") (user_subscriptions s) with
    | Some subscription =>
        if UserSubscription.isTrial subscription now
        then option_map unix_seconds (UserSubscription.trialEnd subscription)
        else None
    | None => None
    end
  else None.

(** [if (trialEnd)]: [null] and [0] are falsy. *)
Definition truthy_number (n : option Z) : bool :=
  match n with
  | Some v => negb (v =? 0)%Z
  | None => false
  end.

(** The customer of the session: the one stored for the account, else a
    new one. *)
Definition customerId (uid : option string) (new_customer : string) (s : Store)
  : string :=
  if truthy uid then
    match UserSubscription.getByUid (or_default uid "") (user_subscriptions s) with
    | Some subscription =>
        if truthy (UserSubscription.stripeCustomerId subscription)
        then or_default (UserSubscription.stripeCustomerId subscription) ""
        else new_customer
    | None => new_customer
    end
  else new_customer.

(** [router.post('/create-checkout-session', ...)] *)
Definition createCheckoutSession (guest_id : option string) (price_id : string)
           (uid : option string) (new_customer : string) (now : Z) (s : Store)
  : Response :=
  match StripePlan.getByStripePriceId price_id (stripe_plans s) with
  | None => BadRequest "Invalid price ID"
  | Some _ =>
      if negb (truthy uid) && negb (truthy guest_id)
      then BadRequest "Either uid or guest_id required"
      else
        let t := trialEnd guest_id uid now s in
        Create
          (mkConfig (customerId uid new_customer s) price_id
                    (if truthy uid then uid else None)
                    (if truthy uid then None else guest_id)
                    (if truthy_number t then t else None))
  end.

End Checkout.

(** *** The license key pattern of middleware/validation.js and
    routes/subscriptions.js *)

Module Validation.

(** [[A-Z0-9]] *)
Definition class_upper_alnum (c : ascii) : bool :=
  let n := N_of_ascii c in
  ((65 <=? n) && (n <=? 90) || (48 <=? n) && (n <=? 57))%N.

(** [[A-Z0-9]{n}] at the head of [s]: what is left of [s] behind it. *)
Fixpoint repeat_class (n : nat) (s : string) : option string :=
  match n with
  | O => Some s
  | S n' =>
      match s with
      | String c rest =>
          if class_upper_alnum c then repeat_class n' rest else None
      | EmptyString => None
      end
  end.

(** A literal at the head of [s]: what is left of [s] behind it. *)
Fixpoint literal (lit s : string) : option string :=
  match lit with
  | EmptyString => Some s
  | String c lit' =>
      match s with
      | String c' rest => if Ascii.eqb c c' then literal lit' rest else None
      | EmptyString => None
      end
  end.

(** [const validateLicenseKey = (licenseKey) => ...]:
    [/^UTM-[A-Z0-9]{8}-[A-Z0-9]{8}-[A-Z0-9]{8}$/.test(licenseKey)]. *)
Definition validateLicenseKey (licenseKey : string) : bool :=
  match literal "UTM-" licenseKey with
  | None => false
  | Some s1 =>
      match repeat_class 8 s1 with
      | None => false
      | Some s2 =>
          match literal "-" s2 with
          | None => false
          | Some s3 =>
              match repeat_class 8 s3 with
              | None => false
              | Some s4 =>
                  match literal "-" s4 with
                  | None => false
                  | Some s5 =>
                      match repeat_class 8 s5 with
                      | Some EmptyString => true
                      | _ => false
                      end
                  end
              end
          end
      end
  end.

End Validation.

(** *** POST /api/redeem-license as routes/paywall.js mounts it

    [router.post('/redeem-license', licenseRateLimit, async (req, res) =>
    ...)]: neither [firebaseAuth] nor [optionalFirebaseAuth] runs before
    the handler, so [req.user] is [undefined] and [uid] with it; the
    [id_token] that the schema lets through is not read. *)

Module Mounted.

Definition redeemLicense (env : Env)
           (body_key guest_id id_token : option string)
           (now : Z) (uuid_subscription : string) (s : Store)
  : Paywall.RedeemResponse * Store :=
  Paywall.redeemLicense env body_key guest_id id_token None now
                        uuid_subscription s.

End Mounted.

(** ** Definitions used by the further statements *)

(** The store after a sequence of requests, each served at its own time. *)
Fixpoint serve_all (env : Env) (requests : list (Service.Request * Z))
         (s : Store) : Store :=
  match requests with
  | [] => s
  | (req, now) :: rest => serve_all env rest (Service.serve env req now s)
  end.

(** What the UPDATE of [Device.linkToUid] does to one row. *)
Definition linked (i u : string) (r : Device.t) : Device.t :=
  if Device.has_id i r
  then Device.mk (Device.id r) (Device.deviceId r) (Device.createdAt r)
                 (Device.lastSeen r) (Some u) (Device.trialStart r)
                 (Device.trialEnd r) (Device.subscriptionStatus r)
  else r.

(** A device row on a trial of three days. *)
Definition three_day_trial (d : Device.t) : Prop :=
  Device.subscriptionStatus d = "trial" /\
  exists trial_start,
    Device.trialStart d = Some trial_start /\
    Device.trialEnd d = Some (trial_start + Device.TRIAL_MS).

(** [d'] is the row [d] at a later time: every column but [linked_uid] is
    as it was, and [linked_uid] is as it was once it is set. *)
Definition kept_device (d d' : Device.t) : Prop :=
  Device.id d' = Device.id d /\
  Device.deviceId d' = Device.deviceId d /\
  Device.createdAt d' = Device.createdAt d /\
  Device.trialStart d' = Device.trialStart d /\
  Device.trialEnd d' = Device.trialEnd d /\
  Device.subscriptionStatus d' = Device.subscriptionStatus d /\
  (truthy (Device.linkedUid d) = true ->
   Device.linkedUid d' = Device.linkedUid d).

(** The device table [t'] holds the rows of [t], kept in the sense of
    [kept_device] and in their order, and then rows inserted since. *)
Definition devices_kept (t t' : list Device.t) : Prop :=
  exists kept fresh, t' = kept ++ fresh /\ Forall2 kept_device t kept.

(** The three ways a request can leave the device table: as it was, with
    one row inserted by [Device.create], or with one row linked by
    [Device.linkToUid]. *)
Inductive devices_step (t t' : list Device.t) : Prop :=
| step_same : t' = t -> devices_step t t'
| step_create r :
    t' = t ++ [r] ->
    existsb (Device.has_id (Device.id r)) t = false ->
    existsb (fun x => Device.deviceId x =? Device.deviceId r) t = false ->
    three_day_trial r ->
    Device.linkedUid r = None ->
    devices_step t t'
| step_link this u :
    Device.getById (Device.id this) t = Some this ->
    truthy (Device.linkedUid this) = false ->
    t' = map (linked (Device.id this) u) t ->
    devices_step t t'.

(** [CHECK (status IN ('trial', 'active', 'past_due', 'canceled',
    'expired'))] of the table [user_subscriptions]. *)
Definition status_check (status : string) : bool :=
  existsb (String.eqb status)
          ["trial"; "active"; "past_due"; "canceled"; "expired"].

(** [CHECK (subscription_status IN ('none', 'trial', 'active', 'expired'))]
    of the table [devices]. *)
Definition subscription_status_check (subscription_status : string) : bool :=
  existsb (String.eqb subscription_status) ["none"; "trial"; "active"; "expired"].

(** An entitlement record that passes the CHECK of its table and, if it is
    a guest's, names a device of the store. *)
Definition record_ok (s : Store) (r : UserSubscription.t) : Prop :=
  status_check (UserSubscription.status r) = true /\
  forall d, UserSubscription.deviceId r = Some d ->
            In d (map Device.id (devices s)).

(** What one request can do to the entitlement table, with what it
    writes: nothing, one UPDATE by id that assigns no status or one that
    passes the CHECK, or one INSERT of a status that passes the CHECK and of
    no device or one of the store. *)
Inductive records_step (s s' : Store) : Prop :=
| records_same :
    user_subscriptions s' = user_subscriptions s -> records_step s s'
| records_updated i d now :
    user_subscriptions s' =
      UserSubscription.update_rows i d now (user_subscriptions s) ->
    (forall st, UserSubscription.u_status d = Some st -> status_check st = true) ->
    records_step s s'
| records_created ins uuid now r :
    UserSubscription.create ins uuid now (user_subscriptions s) =
      Ok (r, user_subscriptions s') ->
    status_check (UserSubscription.i_status ins) = true ->
    (forall d, UserSubscription.i_device_id ins = Some d ->
               In d (map Device.id (devices s'))) ->
    records_step s s'.

(** [r'] is the record [r] at a later time with its identity and its
    trial window as they were. *)
Definition same_identity (r r' : UserSubscription.t) : Prop :=
  UserSubscription.id r' = UserSubscription.id r /\
  UserSubscription.uid r' = UserSubscription.uid r /\
  UserSubscription.deviceId r' = UserSubscription.deviceId r /\
  UserSubscription.email r' = UserSubscription.email r /\
  UserSubscription.trialStart r' = UserSubscription.trialStart r /\
  UserSubscription.trialEnd r' = UserSubscription.trialEnd r /\
  UserSubscription.createdAt r' = UserSubscription.createdAt r.

(** What the resolver says at time [now] of the record with external
    subscription id [sid]. *)
Definition resolved_by_subscription (sid : string) (now : Z) (s : Store)
  : option string :=
  option_map (fun r => UserSubscription.getSubscriptionStatus r now)
    (UserSubscription.getByStripeSubscriptionId sid (user_subscriptions s)).

(** The records that [Paywall.current_subscription] chooses from: those
    of the account if there is one, else those of the guest's device. *)
Definition record_of (uid guest_id : option string) (r : UserSubscription.t)
  : bool :=
  if truthy uid then col_eq (UserSubscription.uid r) (or_default uid "")
  else col_eq (UserSubscription.deviceId r) (or_default guest_id "").

(** A key that has not been redeemed or revoked is bound to nobody. *)
Definition unredeemed_unbound (k : LicenseKey.t) : Prop :=
  LicenseKey.redeemedAt k = None -> unbound k.

(** A handler that leaves a table alone does so on each of its paths. *)
Ltac by_cases_of_the_handler :=
  repeat first
    [ reflexivity
    | match goal with
      | |- context [match ?x with _ => _ end] => destruct x
      end ].

(** * Properties *)

(** ** The scenarios of the repository's test suite, on the model *)

(** "should start trial for new device" *)
Example test_start_trial_for_new_device :
  fst (Paywall.startGuestTrial sample_env (Some "fingerprint-1") 1000
         "dev-1" "row-1" (empty_store sample_plans)) =
  Paywall.TrialOk
    (Device.mkPublic "dev-1" (Some 1000) (Some (1000 + Device.TRIAL_MS))
                     "trial" true 3).
Proof. reflexivity. Qed.

(** "should return trial status for guest" *)
Example test_check_subscription_of_guest :
  Paywall.checkSubscription None (Some "dev-1") 2000 sample_trial_store =
  Paywall.CheckOk
    (Paywall.mkCheck "trial" None (Some 1000) (Some (1000 + Device.TRIAL_MS))
                     None).
Proof. reflexivity. Qed.

(** "should return none for invalid guest" *)
Example test_check_subscription_of_unknown_guest :
  Paywall.checkSubscription None (Some "invalid-guest-id") 2000 sample_trial_store =
  Paywall.CheckOk (Paywall.mkCheck "none" None None None None).
Proof. reflexivity. Qed.

(** "should fail for invalid key" *)
Example test_redeem_invalid_key :
  fst (Paywall.redeemLicense sample_env (Some "invalid-license-key")
         (Some sample_guest_a) None None 2000 "row-3" sample_guests_store) =
  Paywall.RedeemBadRequest "Invalid license key".
Proof. reflexivity. Qed.

(** "should link guest to Firebase user", then "should fail for already
    linked device" *)
Example test_link_guest_twice :
  let first := Paywall.linkGuest "dev-1" "alice" 3000 "row-2" sample_trial_store in
  fst first = Paywall.LinkOk /\
  fst (Paywall.linkGuest "dev-1" "bob" 4000 "row-3" (snd first)) =
  Paywall.LinkBadRequest "Device is already linked to an account".
Proof. split; reflexivity. Qed.

(** ** Arithmetic of days *)

Lemma ceil_div_nonpos (a : Z) : a <= 0 -> ceil_div a MS_PER_DAY <= 0.
Proof.
  intros Ha. unfold ceil_div.
  assert (0 <= (- a) / MS_PER_DAY).
  { apply Z.div_pos; [lia | reflexivity]. }
  lia.
Qed.

Lemma ceil_div_pos (a : Z) : 0 < a -> 0 < ceil_div a MS_PER_DAY.
Proof.
  intros Ha. unfold ceil_div.
  assert ((- a) / MS_PER_DAY < 0).
  { apply Z.div_lt_upper_bound; [reflexivity | lia]. }
  lia.
Qed.

Lemma ceil_div_days (n : Z) : ceil_div (n * MS_PER_DAY) MS_PER_DAY = n.
Proof.
  unfold ceil_div.
  replace (- (n * MS_PER_DAY)) with ((- n) * MS_PER_DAY) by lia.
  rewrite Z.div_mul by (unfold MS_PER_DAY; lia). lia.
Qed.

(** ** The resolver: [getSubscriptionStatus] and [getTrialDaysRemaining] *)

Section Resolver.

Import UserSubscription.

Variable r : UserSubscription.t.
Variable now : Z.

Lemma isTrial_true_iff :
  isTrial r now = true <->
  status r = "trial" /\ exists trial_end, trialEnd r = Some trial_end /\ now < trial_end.
Proof.
  unfold isTrial. destruct (String.eqb_spec (status r) "trial") as [E | E];
    destruct (trialEnd r) as [te |]; simpl; split.
  - intros H. apply Z.ltb_lt in H. eauto.
  - intros (_ & te' & [= <-] & H). now apply Z.ltb_lt.
  - discriminate.
  - intros (_ & te' & [=] & _).
  - discriminate.
  - intros (H & _). contradiction.
  - discriminate.
  - intros (H & _). contradiction.
Qed.

Lemma isTrialExpired_true_iff :
  isTrialExpired r now = true <->
  status r = "trial" /\ exists trial_end, trialEnd r = Some trial_end /\ trial_end <= now.
Proof.
  unfold isTrialExpired. destruct (String.eqb_spec (status r) "trial") as [E | E];
    destruct (trialEnd r) as [te |]; simpl; split.
  - intros H. apply Z.leb_le in H. eauto.
  - intros (_ & te' & [= <-] & H). now apply Z.leb_le.
  - discriminate.
  - intros (_ & te' & [=] & _).
  - discriminate.
  - intros (H & _). contradiction.
  - discriminate.
  - intros (H & _). contradiction.
Qed.

Lemma status_none_of_other :
  status r <> "active" -> status r <> "trial" -> status r <> "expired" ->
  getSubscriptionStatus r now = "none".
Proof.
  intros Ha Ht He. unfold getSubscriptionStatus, isActive, isTrial, isTrialExpired.
  apply String.eqb_neq in Ha, Ht, He. now rewrite Ha, Ht, He.
Qed.

Lemma status_expired_iff :
  getSubscriptionStatus r now = "expired" <->
  status r = "expired" \/ isTrialExpired r now = true.
Proof.
  unfold getSubscriptionStatus, isActive.
  destruct (String.eqb_spec (status r) "active") as [Ea | Ea].
  - split; [discriminate |].
    intros [E | E]; [congruence |].
    apply isTrialExpired_true_iff in E. destruct E as [E _]. congruence.
  - destruct (isTrial r now) eqn:Et.
    + split; [discriminate |].
      apply isTrial_true_iff in Et. destruct Et as (Es & te & Ete & Hlt).
      intros [E | E]; [congruence |].
      apply isTrialExpired_true_iff in E.
      destruct E as (_ & te' & Ete' & Hle).
      rewrite Ete in Ete'. injection Ete' as <-. lia.
    + destruct (String.eqb_spec (status r) "expired") as [Ee | Ee]; simpl.
      * split; auto.
      * destruct (isTrialExpired r now); split; auto; try discriminate.
        intros [E | E]; [contradiction | discriminate].
Qed.

Lemma days_remaining_of_trial trial_end :
  status r = "trial" -> trialEnd r = Some trial_end ->
  getTrialDaysRemaining r now = Spec.trial_days_remaining trial_end now.
Proof.
  intros Es Ee. unfold getTrialDaysRemaining, isTrial, Spec.trial_days_remaining.
  rewrite Es, Ee. simpl.
  destruct (Z.ltb_spec now trial_end) as [Hlt | Hge]; simpl; [reflexivity |].
  pose proof (ceil_div_nonpos (trial_end - now)). lia.
Qed.

Lemma days_remaining_not_trial :
  isTrial r now = false -> getTrialDaysRemaining r now = 0.
Proof. intros E. unfold getTrialDaysRemaining. now rewrite E. Qed.

End Resolver.

(** C1, as stated, fails: a record stored as [past_due] is reported as
    [none], not as [past_due]. *)
Lemma past_due_is_not_passed_through :
  let sub := sample_subscription "past_due" None None in
  UserSubscription.getSubscriptionStatus sub 1000 = "none" /\
  UserSubscription.getSubscriptionStatus sub 1000 <> UserSubscription.status sub.
Proof. split; [reflexivity | discriminate]. Qed.

(** C1 (amended).  For every entitlement record whose stored status is
    [past_due] or [canceled], [getSubscriptionStatus] returns [none], at
    every time; it returns [expired] exactly for a record stored as
    [expired] or stored as [trial] with a [trial_end] that has passed; and
    check-subscription and my-subscription send the value of
    [getSubscriptionStatus] on the record they locate. *)
Theorem resolver_reports_none_for_past_due_and_canceled :
  forall (sub : UserSubscription.t) (now : Z),
    (UserSubscription.status sub = "past_due" \/
     UserSubscription.status sub = "canceled" ->
     UserSubscription.getSubscriptionStatus sub now = "none") /\
    (UserSubscription.getSubscriptionStatus sub now = "expired" <->
     UserSubscription.status sub = "expired" \/
     (UserSubscription.status sub = "trial" /\
      exists trial_end,
        UserSubscription.trialEnd sub = Some trial_end /\ trial_end <= now)) /\
    (forall uid guest_id s,
        Paywall.current_subscription uid guest_id s = Some sub ->
        exists body,
          Paywall.checkSubscription uid guest_id now s = Paywall.CheckOk body /\
          Paywall.c_status body = UserSubscription.getSubscriptionStatus sub now) /\
    (forall uid s,
        UserSubscription.getByUid uid (user_subscriptions s) = Some sub ->
        Paywall.v_status (Paywall.mySubscription uid now s) =
        UserSubscription.getSubscriptionStatus sub now).
Proof.
  intros sub now. repeat split.
  - intros [E | E]; apply status_none_of_other; rewrite E; discriminate.
  - intros H. apply status_expired_iff in H. destruct H as [H | H]; [now left |].
    right. now apply isTrialExpired_true_iff.
  - intros [H | H]; apply status_expired_iff; [now left |].
    right. now apply isTrialExpired_true_iff.
  - intros uid guest_id s Hcur. exists (Paywall.check_of sub now s).
    unfold Paywall.checkSubscription. rewrite Hcur.
    unfold Paywall.current_subscription in Hcur.
    destruct (truthy uid); [split; reflexivity |].
    destruct (truthy guest_id); [split; reflexivity | discriminate].
  - intros uid s Hget. unfold Paywall.mySubscription. now rewrite Hget.
Qed.

Lemma resolver_reports_none_for_past_due_and_canceled_witness :
  UserSubscription.getSubscriptionStatus
    (sample_subscription "canceled" None None) 1000 = "none".
Proof.
  apply (proj1 (resolver_reports_none_for_past_due_and_canceled
                  (sample_subscription "canceled" None None) 1000)).
  right. reflexivity.
Defined.

(** C8, as stated, fails: a record that a checkout has set to [active] two
    days before its [trial_end] reports 0 days, where the formula gives 2. *)
Lemma days_remaining_is_zero_outside_trial :
  let sub := sample_subscription "active" (Some 0) (Some (3 * MS_PER_DAY)) in
  UserSubscription.getTrialDaysRemaining sub MS_PER_DAY = 0 /\
  Spec.trial_days_remaining (3 * MS_PER_DAY) MS_PER_DAY = 2 /\
  UserSubscription.getTrialDaysRemaining sub MS_PER_DAY <>
  Spec.trial_days_remaining (3 * MS_PER_DAY) MS_PER_DAY.
Proof. repeat split. discriminate. Qed.

(** C8 (amended).  For every entitlement record stored as [trial] with a
    [trial_end], [getTrialDaysRemaining] equals
    [max(0, ceil((trial_end - now) / 1 day))]; for every record that is not
    in a running trial (another status, no [trial_end], or [trial_end]
    reached) it is 0.  A record with [trial_start = T], [trial_end = T + 3d]
    resolves at [T + 1d] to [trial] with 2 days remaining and at [T + 4d] to
    [expired] with 0. *)
Theorem trial_days_remaining_formula :
  forall (sub : UserSubscription.t) (now : Z),
    (forall trial_end,
        UserSubscription.status sub = "trial" ->
        UserSubscription.trialEnd sub = Some trial_end ->
        UserSubscription.getTrialDaysRemaining sub now =
        Spec.trial_days_remaining trial_end now) /\
    (UserSubscription.isTrial sub now = false ->
     UserSubscription.getTrialDaysRemaining sub now = 0) /\
    (forall T,
        UserSubscription.status sub = "trial" ->
        UserSubscription.trialStart sub = Some T ->
        UserSubscription.trialEnd sub = Some (T + 3 * MS_PER_DAY) ->
        UserSubscription.getSubscriptionStatus sub (T + 1 * MS_PER_DAY) = "trial" /\
        UserSubscription.getTrialDaysRemaining sub (T + 1 * MS_PER_DAY) = 2 /\
        UserSubscription.getSubscriptionStatus sub (T + 4 * MS_PER_DAY) = "expired" /\
        UserSubscription.getTrialDaysRemaining sub (T + 4 * MS_PER_DAY) = 0).
Proof.
  intros sub now. split; [| split].
  - intros trial_end. apply days_remaining_of_trial.
  - apply days_remaining_not_trial.
  - intros T Es _ Ee.
    assert (D : 0 < MS_PER_DAY) by reflexivity.
    assert (T1 : UserSubscription.isTrial sub (T + 1 * MS_PER_DAY) = true).
    { apply isTrial_true_iff. split; [assumption |].
      exists (T + 3 * MS_PER_DAY). split; [assumption | lia]. }
    assert (T4 : UserSubscription.isTrialExpired sub (T + 4 * MS_PER_DAY) = true).
    { apply isTrialExpired_true_iff. split; [assumption |].
      exists (T + 3 * MS_PER_DAY). split; [assumption | lia]. }
    repeat split.
    + unfold UserSubscription.getSubscriptionStatus, UserSubscription.isActive.
      now rewrite Es, T1.
    + rewrite (days_remaining_of_trial sub _ _ Es Ee).
      unfold Spec.trial_days_remaining.
      replace (T + 3 * MS_PER_DAY - (T + 1 * MS_PER_DAY)) with (2 * MS_PER_DAY)
        by lia.
      now rewrite ceil_div_days.
    + apply status_expired_iff. now right.
    + rewrite (days_remaining_of_trial sub _ _ Es Ee).
      unfold Spec.trial_days_remaining.
      replace (T + 3 * MS_PER_DAY - (T + 4 * MS_PER_DAY)) with ((-1) * MS_PER_DAY)
        by lia.
      now rewrite ceil_div_days.
Qed.

Lemma trial_days_remaining_formula_witness :
  let sub := sample_subscription "trial" (Some 5000) (Some (5000 + 3 * MS_PER_DAY)) in
  UserSubscription.getSubscriptionStatus sub (5000 + 1 * MS_PER_DAY) = "trial" /\
  UserSubscription.getTrialDaysRemaining sub (5000 + 1 * MS_PER_DAY) = 2 /\
  UserSubscription.getSubscriptionStatus sub (5000 + 4 * MS_PER_DAY) = "expired" /\
  UserSubscription.getTrialDaysRemaining sub (5000 + 4 * MS_PER_DAY) = 0.
Proof.
  apply (proj2 (proj2 (trial_days_remaining_formula
                         (sample_subscription "trial" (Some 5000)
                                              (Some (5000 + 3 * MS_PER_DAY))) 0))
               5000); reflexivity.
Defined.

(** ** Queries and updates on a table *)

Lemma filter_map_commute {A : Type} (p : A -> bool) (g : A -> A) (l : list A) :
  (forall x, p (g x) = p x) -> filter p (map g l) = map g (filter p l).
Proof.
  intros Hp. induction l as [| x l IH]; simpl; [reflexivity |].
  rewrite Hp. destruct (p x); simpl; now rewrite IH.
Qed.

Lemma single_map {A B : Type} (g : A -> B) (l : list A) :
  single (map g l) = option_map g (single l).
Proof. destruct l as [| x [| y l]]; reflexivity. Qed.

Lemma single_some {A : Type} (l : list A) (x : A) :
  single l = Some x -> l = [x].
Proof. destruct l as [| y [| z l]]; simpl; congruence. Qed.

Lemma filter_nil_of_existsb {A : Type} (p : A -> bool) (l : list A) :
  existsb p l = false -> filter p l = [].
Proof.
  induction l as [| x l IH]; simpl; [reflexivity |].
  destruct (p x); simpl; [discriminate | exact IH].
Qed.

Lemma filter_id_of_forallb {A : Type} (p : A -> bool) (l : list A) :
  forallb p l = true -> filter p l = l.
Proof.
  induction l as [| x l IH]; simpl; [reflexivity |].
  destruct (p x); simpl; [intros H; now rewrite IH | discriminate].
Qed.

Lemma map_id_of_existsb {A : Type} (p : A -> bool) (g : A -> A) (l : list A) :
  existsb p l = false -> map (fun x => if p x then g x else x) l = l.
Proof.
  induction l as [| x l IH]; simpl; [reflexivity |].
  destruct (p x); simpl; [discriminate | intros H; now rewrite IH].
Qed.

Lemma NoDup_snoc {A : Type} (l : list A) (a : A) :
  NoDup l -> ~ In a l -> NoDup (l ++ [a]).
Proof.
  induction l as [| x l IH]; simpl; intros Hnd Hin.
  - constructor; [intros [] | constructor].
  - inversion Hnd as [| ? ? Hx Hnd']; subst. constructor.
    + intros H. apply in_app_or in H. destruct H as [H | [H | []]]; [auto |].
      apply Hin. now left.
    + apply IH; [assumption |]. intros H. apply Hin. now right.
Qed.

Section SubscriptionTable.

Import UserSubscription.

Lemma latest_map (g : t -> t) (l : list t) :
  (forall x, createdAt (g x) = createdAt x) ->
  latest (map g l) = option_map g (latest l).
Proof.
  intros Hc. induction l as [| x l IH]; simpl; [reflexivity |].
  rewrite IH. destruct (latest l) as [y |]; simpl; [| reflexivity].
  rewrite !Hc. now destruct (createdAt x <? createdAt y)%Z.
Qed.

Lemma latest_none (l : list t) : latest l = None -> l = [].
Proof.
  destruct l as [| x l]; simpl; [reflexivity |].
  destruct (latest l) as [y |]; [| discriminate].
  destruct (createdAt x <? createdAt y)%Z; discriminate.
Qed.

Lemma latest_in (l : list t) (x : t) : latest l = Some x -> In x l.
Proof.
  revert x. induction l as [| y l IH]; simpl; [discriminate |].
  intros x. destruct (latest l) as [z |].
  - destruct (createdAt y <? createdAt z)%Z; intros [= <-]; auto.
  - intros [= <-]. auto.
Qed.

Lemma update_rows_map i d now table :
  update_rows i d now table = map (patched i d now) table.
Proof. reflexivity. Qed.

Lemma patched_id i d now r : id (patched i d now r) = id r.
Proof. unfold patched. now destruct (has_id i r). Qed.

Lemma patched_createdAt i d now r : createdAt (patched i d now r) = createdAt r.
Proof. unfold patched. now destruct (has_id i r). Qed.

Lemma patched_has_id i j d now r : has_id j (patched i d now r) = has_id j r.
Proof. unfold has_id. now rewrite patched_id. Qed.

Lemma patched_self d now r : patched (id r) d now r = apply_update d now r.
Proof. unfold patched, has_id. now rewrite String.eqb_refl. Qed.

Lemma update_rows_length i d now table :
  List.length (update_rows i d now table) = List.length table.
Proof. unfold update_rows. apply List.length_map. Qed.

Lemma update_rows_others i d now table x :
  In x table -> has_id i x = false -> In x (update_rows i d now table).
Proof.
  intros Hin Hid. unfold update_rows. apply in_map_iff. exists x.
  rewrite Hid. auto.
Qed.

(** [update] succeeds when exactly one row has the id of [this]; the table
    it leaves is [update_rows] either way. *)
Lemma update_table this d now table :
  snd (update this d now table) = update_rows (id this) d now table.
Proof.
  unfold update.
  now destruct (single (filter (has_id (id this)) (update_rows (id this) d now table))).
Qed.

Lemma update_ok_iff this d now table :
  (exists this', fst (update this d now table) = Ok this') <->
  (exists r, single (filter (has_id (id this)) table) = Some r).
Proof.
  unfold update. rewrite update_rows_map.
  rewrite filter_map_commute by (intros x; apply patched_has_id).
  rewrite single_map.
  destruct (single (filter (has_id (id this)) table)) as [r |]; simpl.
  - split; eauto.
  - split; intros [x H]; discriminate.
Qed.

End SubscriptionTable.

Lemma create_spec ins uuid now table r table' :
  UserSubscription.create ins uuid now table = Ok (r, table') ->
  table' = table ++ [r] /\
  existsb (UserSubscription.has_id uuid) table = false /\
  r = UserSubscription.mk uuid (UserSubscription.i_uid ins)
        (UserSubscription.i_device_id ins) None
        (UserSubscription.i_stripe_customer_id ins)
        (UserSubscription.i_stripe_subscription_id ins)
        (UserSubscription.i_plan_id ins) (UserSubscription.i_status ins)
        (UserSubscription.i_trial_start ins) (UserSubscription.i_trial_end ins)
        now now.
Proof.
  unfold UserSubscription.create.
  destruct (existsb (UserSubscription.has_id uuid) table); [discriminate |].
  intros [= <- <-]. auto.
Qed.

(** ** The billing event processor: subscription created and updated *)

Lemma after_update_store s res :
  snd (Webhooks.after_update s res) = with_user_subscriptions s (snd res).
Proof. destruct res as [[r | e] table]; reflexivity. Qed.

Lemma after_update_result s res :
  fst (Webhooks.after_update s res) =
  match fst res with Ok _ => Ok tt | Throw e => Throw e end.
Proof. destruct res as [[r | e] table]; reflexivity. Qed.

(** A subscription-created event writes nothing: it returns early without
    a price and throws before its first query with one. *)
Lemma handleSubscriptionCreated_store sub now s :
  snd (Webhooks.handleSubscriptionCreated sub now s) = s.
Proof.
  unfold Webhooks.handleSubscriptionCreated.
  now destruct (negb (truthy (Webhooks.price_id sub))).
Qed.

Lemma handleSubscriptionCreated_ok sub now s s1 :
  Webhooks.handleSubscriptionCreated sub now s = (Ok tt, s1) ->
  truthy (Webhooks.price_id sub) = false /\ s1 = s.
Proof.
  unfold Webhooks.handleSubscriptionCreated.
  destruct (truthy (Webhooks.price_id sub)); simpl; [discriminate |].
  intros [= <-]. now split.
Qed.

(** C3, as stated, fails: a subscription-updated event with the status
    [cancelled], which the table of the specification does not list, stores
    [canceled], not [expired]; a subscription-created event that names no
    price and comes with the status [past_due] leaves the record of its
    subscription [active]; and [mapStripeStatus] of the unmounted router
    maps [trialing] to [trialing], not to [trial]. *)
Lemma cancelled_is_stored_as_canceled :
  status_by_subscription "sub_1"
    (snd (Webhooks.dispatch
            (Webhooks.CustomerSubscriptionUpdated
               (sample_stripe_subscription "cancelled"))
            2000 "row-2" sample_paying_store)) = Some "canceled" /\
  Spec.status_table "cancelled" = "expired" /\
  status_by_subscription "sub_1"
    (snd (Webhooks.dispatch
            (Webhooks.CustomerSubscriptionCreated
               (Webhooks.mkStripeSubscription "sub_1" "cus_1" "past_due" None))
            2000 "row-2" sample_paying_store)) = Some "active" /\
  Spec.status_table "past_due" = "past_due" /\
  LegacyWebhooks.mapStripeStatus "trialing" = LegacyWebhooks.Text "trialing" /\
  Spec.status_table "trialing" = "trial".
Proof. repeat split. Qed.

Lemma mappedStatus_table external :
  external <> "cancelled" ->
  Webhooks.mappedStatus external = Spec.status_table external.
Proof.
  intros H. apply String.eqb_neq in H.
  unfold Webhooks.mappedStatus, Spec.status_table. rewrite H.
  destruct (external =? "active"); [reflexivity |].
  destruct (external =? "past_due"); [reflexivity |].
  destruct (external =? "canceled"); [reflexivity |]. simpl.
  destruct (external =? "incomplete"); [reflexivity |]. simpl.
  destruct (external =? "incomplete_expired"); reflexivity.
Qed.

(** The row located by subscription id is still located, patched, after an
    UPDATE that leaves [stripe_subscription_id] alone. *)
Lemma getByStripeSubscriptionId_update_rows sid i d now table :
  UserSubscription.u_stripe_subscription_id d = None ->
  UserSubscription.getByStripeSubscriptionId sid
    (UserSubscription.update_rows i d now table) =
  option_map (patched i d now)
    (UserSubscription.getByStripeSubscriptionId sid table).
Proof.
  intros Hd. unfold UserSubscription.getByStripeSubscriptionId.
  rewrite update_rows_map, filter_map_commute, single_map; [reflexivity |].
  intros x. unfold patched. destruct (UserSubscription.has_id i x); [| reflexivity].
  simpl. now rewrite Hd.
Qed.

Lemma getByStripeCustomerId_update_rows c i d now table :
  UserSubscription.u_stripe_customer_id d = None ->
  UserSubscription.getByStripeCustomerId c
    (UserSubscription.update_rows i d now table) =
  option_map (patched i d now)
    (UserSubscription.getByStripeCustomerId c table).
Proof.
  intros Hd. unfold UserSubscription.getByStripeCustomerId.
  rewrite update_rows_map, filter_map_commute, latest_map; [reflexivity | |].
  - intros x. apply patched_createdAt.
  - intros x. unfold patched. destruct (UserSubscription.has_id i x); [| reflexivity].
    simpl. now rewrite Hd.
Qed.

Lemma legacy_own_status external :
  In external ["active"; "past_due"; "canceled"; "incomplete";
               "incomplete_expired"; "trialing"; "unpaid"] ->
  LegacyWebhooks.mapStripeStatus external = LegacyWebhooks.Text external.
Proof.
  intros H. repeat (destruct H as [<- | H]; [reflexivity |]). destruct H.
Qed.

Lemma legacy_lookup_none external :
  ~ In external ["active"; "past_due"; "canceled"; "incomplete";
                 "incomplete_expired"; "trialing"; "unpaid"] ->
  LegacyWebhooks.lookup external LegacyWebhooks.status_map = None.
Proof.
  intros H. unfold LegacyWebhooks.status_map. cbn [LegacyWebhooks.lookup].
  repeat match goal with
         | |- context [?k =? external] =>
             destruct (String.eqb_spec k external) as [E | _];
             [exfalso; apply H; rewrite <- E; simpl; tauto |]
         end.
  reflexivity.
Qed.

(** C3 (amended).  A subscription-updated event maps the external status by
    the table [active -> active], [past_due -> past_due], [canceled] and
    [cancelled -> canceled], [incomplete] and [incomplete_expired ->
    expired], [trialing -> trial], [unpaid -> expired], anything else
    [-> expired], and writes it to the record located by external
    subscription id, leaving its other columns (but for the [updated_at]
    stamp of the trigger) and the other records alone; when no record is
    located the store is left as it is and nothing is thrown.  A
    subscription-created event that names no price leaves the store as it
    is, whatever its status.  The router of src/routes/webhooks.js, which is
    not mounted, has a table of its own: [mapStripeStatus] sends each of the
    seven statuses it lists to itself, the name of a property of
    [Object.prototype] to that property, and every other string to
    [expired]. *)
Theorem subscription_events_status_mapping :
  forall (sub : Webhooks.StripeSubscription) (now : Z) (s : Store),
    (forall external, external <> "cancelled" ->
        Webhooks.mappedStatus external = Spec.status_table external) /\
    Webhooks.mappedStatus "cancelled" = "canceled" /\
    (forall r,
        UserSubscription.getByStripeSubscriptionId (Webhooks.subscription_id sub)
          (user_subscriptions s) = Some r ->
        let s' := snd (Webhooks.handleSubscriptionUpdated sub now s) in
        let written x :=
          UserSubscription.mk
            (UserSubscription.id x) (UserSubscription.uid x)
            (UserSubscription.deviceId x) (UserSubscription.email x)
            (UserSubscription.stripeCustomerId x)
            (UserSubscription.stripeSubscriptionId x) (UserSubscription.planId x)
            (Webhooks.mappedStatus (Webhooks.subscription_status sub))
            (UserSubscription.trialStart x) (UserSubscription.trialEnd x)
            (UserSubscription.createdAt x) now in
        UserSubscription.getByStripeSubscriptionId (Webhooks.subscription_id sub)
          (user_subscriptions s') = Some (written r) /\
        user_subscriptions s' =
          map (fun x => if UserSubscription.id x =? UserSubscription.id r
                        then written x else x)
              (user_subscriptions s) /\
        devices s' = devices s /\ license_keys s' = license_keys s /\
        stripe_plans s' = stripe_plans s) /\
    (UserSubscription.getByStripeSubscriptionId (Webhooks.subscription_id sub)
       (user_subscriptions s) = None ->
     Webhooks.handleSubscriptionUpdated sub now s = (Ok tt, s)) /\
    (truthy (Webhooks.price_id sub) = false ->
     Webhooks.handleSubscriptionCreated sub now s = (Ok tt, s)) /\
    (forall external,
        In external ["active"; "past_due"; "canceled"; "incomplete";
                     "incomplete_expired"; "trialing"; "unpaid"] ->
        LegacyWebhooks.mapStripeStatus external = LegacyWebhooks.Text external) /\
    (forall external,
        ~ In external ["active"; "past_due"; "canceled"; "incomplete";
                       "incomplete_expired"; "trialing"; "unpaid"] ->
        LegacyWebhooks.mapStripeStatus external =
        if existsb (String.eqb external)
             ["constructor"; "__defineGetter__"; "__defineSetter__";
              "hasOwnProperty"; "__lookupGetter__"; "__lookupSetter__";
              "isPrototypeOf"; "propertyIsEnumerable"; "toString"; "valueOf";
              "__proto__"; "toLocaleString"]
        then LegacyWebhooks.Inherited external
        else LegacyWebhooks.Text "expired").
Proof.
  intros sub now s. split; [exact mappedStatus_table |]. split; [reflexivity |].
  split; [| split; [| split; [| split]]].
  - intros r Hr. cbv zeta. unfold Webhooks.handleSubscriptionUpdated.
    rewrite Hr, after_update_store. unfold UserSubscription.updateStatus.
    rewrite update_table. simpl.
    rewrite getByStripeSubscriptionId_update_rows by reflexivity.
    rewrite Hr. simpl. rewrite patched_self. repeat split.
  - intros Hr. unfold Webhooks.handleSubscriptionUpdated. now rewrite Hr.
  - intros H. unfold Webhooks.handleSubscriptionCreated. now rewrite H.
  - exact legacy_own_status.
  - intros external H. unfold LegacyWebhooks.mapStripeStatus, LegacyWebhooks.get.
    rewrite (legacy_lookup_none external H).
    unfold LegacyWebhooks.Object_prototype.
    now destruct (existsb _ _).
Qed.

Lemma subscription_events_status_mapping_witness :
  UserSubscription.getByStripeSubscriptionId "sub_1"
    (user_subscriptions
       (snd (Webhooks.handleSubscriptionUpdated
               (sample_stripe_subscription "trialing") 2000 sample_paying_store))) =
  Some (UserSubscription.mk "row-1" (Some "alice") None None (Some "cus_1")
          (Some "sub_1") (Some "pro_monthly") "trial" None None 1000 2000).
Proof.
  apply (proj1 (proj1 (proj2 (proj2
           (subscription_events_status_mapping
              (sample_stripe_subscription "trialing") 2000 sample_paying_store)))
           (UserSubscription.mk "row-1" (Some "alice") None None (Some "cus_1")
              (Some "sub_1") (Some "pro_monthly") "active" None None 1000 1000)
           eq_refl)).
Defined.

(** ** The license key table *)

Section LicenseKeyTable.

Import LicenseKey.

Lemma key_update_rows_map i d table :
  update_rows i d table = map (key_patched i d) table.
Proof. reflexivity. Qed.

Lemma key_patched_id i d r : id (key_patched i d r) = id r.
Proof. unfold key_patched. now destruct (has_id i r). Qed.

Lemma key_patched_key i d r : key (key_patched i d r) = key r.
Proof. unfold key_patched. now destruct (has_id i r). Qed.

Lemma key_patched_self d r : key_patched (id r) d r = apply_update d r.
Proof. unfold key_patched, has_id. now rewrite String.eqb_refl. Qed.

Lemma key_update_rows_ids i d table :
  map id (update_rows i d table) = map id table.
Proof.
  rewrite key_update_rows_map, map_map. apply map_ext.
  intros r. apply key_patched_id.
Qed.

Lemma key_update_rows_keys i d table :
  map key (update_rows i d table) = map key table.
Proof.
  rewrite key_update_rows_map, map_map. apply map_ext.
  intros r. apply key_patched_key.
Qed.

Lemma key_update_table this d table :
  snd (update this d table) = update_rows (id this) d table.
Proof.
  unfold update.
  now destruct (single (filter (has_id (id this)) (update_rows (id this) d table))).
Qed.

Lemma getByKey_update_rows env k i d table :
  getByKey env k (update_rows i d table) =
  option_map (key_patched i d) (getByKey env k table).
Proof.
  unfold getByKey. rewrite key_update_rows_map, filter_map_commute, single_map.
  - reflexivity.
  - intros x. now rewrite key_patched_key.
Qed.

Lemma getByKey_in env k table r : getByKey env k table = Some r -> In r table.
Proof.
  unfold getByKey. intros H. apply single_some in H.
  assert (Hin : In r (filter (fun r0 => key r0 =? hashKey env k) table))
    by (rewrite H; now left).
  now apply filter_In in Hin.
Qed.

(** Under the primary key, a row is the only one with its id. *)
Lemma unique_id_filter table r :
  NoDup (map id table) -> In r table -> filter (has_id (id r)) table = [r].
Proof.
  induction table as [| x table IH]; simpl; [contradiction |].
  intros Hnd Hin. inversion Hnd as [| ? ? Hnotin Hnd']; subst.
  unfold has_id at 1. destruct Hin as [-> | Hin].
  - rewrite String.eqb_refl. f_equal.
    apply filter_nil_of_existsb.
    destruct (existsb (has_id (id r)) table) eqn:E; [| reflexivity].
    apply existsb_exists in E. destruct E as (y & Hy & Ey).
    apply String.eqb_eq in Ey. exfalso. apply Hnotin. rewrite <- Ey.
    now apply in_map.
  - destruct (String.eqb_spec (id x) (id r)) as [E | E].
    + exfalso. apply Hnotin. rewrite E. now apply in_map.
    + now apply IH.
Qed.

Lemma unique_id_eq table r r' :
  NoDup (map id table) -> In r table -> In r' table -> id r' = id r -> r' = r.
Proof.
  intros Hnd Hr Hr' E.
  assert (Hin : In r' (filter (has_id (id r)) table)).
  { apply filter_In. split; [assumption |]. unfold has_id. now apply String.eqb_eq. }
  rewrite (unique_id_filter table r Hnd Hr) in Hin.
  destruct Hin as [H | []]. auto.
Qed.

(** A row with another id is not touched by the UPDATE. *)
Lemma key_update_rows_others i d table x :
  In x table -> id x <> i -> In x (update_rows i d table).
Proof.
  intros Hin Hid. rewrite key_update_rows_map. apply in_map_iff. exists x.
  split; [| assumption]. unfold key_patched, has_id.
  apply String.eqb_neq in Hid. now rewrite Hid.
Qed.

Lemma insert_spec hashedKey plan_id o uuid now table r table' :
  insert hashedKey plan_id o uuid now table = Ok (r, table') ->
  table' = table ++ [r] /\ id r = uuid /\ key r = hashedKey /\
  boundUid r = None /\ boundDeviceId r = None /\ redeemedAt r = None /\
  ~ In uuid (map id table).
Proof.
  unfold insert.
  destruct (existsb (has_id uuid) table) eqn:E; simpl; [discriminate |].
  destruct (existsb (fun r0 => key r0 =? hashedKey) table); [discriminate |].
  intros [= <- <-]. repeat split. intros Hin.
  apply in_map_iff in Hin. destruct Hin as (x & Ex & Hx).
  assert (existsb (has_id uuid) table = true).
  { apply existsb_exists. exists x. split; [assumption |].
    unfold has_id. now apply String.eqb_eq. }
  congruence.
Qed.

(** What [createMultiple] leaves: the old rows, then fresh unbound ones. *)
Lemma createMultiple_from_spec env plan_id o draws now count :
  forall i table,
    exists fresh,
      snd (createMultiple_from env i plan_id count o draws now table) =
        table ++ fresh /\
      Forall (fun r => boundUid r = None /\ boundDeviceId r = None /\
                       redeemedAt r = None) fresh /\
      (NoDup (map id table) -> NoDup (map id (table ++ fresh))).
Proof.
  induction count as [| count IH]; intros i table; simpl.
  - exists []. rewrite app_nil_r. auto.
  - destruct (insert (hashKey env (generateKey (fst (draws i)))) plan_id o
                     (snd (draws i)) now table) as [[r table'] | e] eqn:E.
    + apply insert_spec in E.
      destruct E as (-> & Hid & _ & Hu & Hd & Hr & Hfresh).
      destruct (IH (S i) (table ++ [r])) as (fresh & Hs & Hall & Hnd).
      exists (r :: fresh).
      assert (Hsnd : snd (let (r0, table'') :=
                     createMultiple_from env (S i) plan_id count o draws now
                                         (table ++ [r]) in
                   match r0 with
                   | Ok (keys, plaintextKeys) =>
                       (Ok (r :: keys,
                            generateKey (fst (draws i)) :: plaintextKeys), table'')
                   | Throw e => (Throw e, table'')
                   end) = (table ++ [r]) ++ fresh).
      { rewrite <- Hs.
        destruct (createMultiple_from env (S i) plan_id count o draws now
                                      (table ++ [r])) as [[[k p] | e] t'];
          reflexivity. }
      rewrite Hsnd, <- app_assoc. simpl. split; [reflexivity |].
      split; [constructor; auto |].
      intros Hnd0.
      replace (table ++ r :: fresh) with ((table ++ [r]) ++ fresh)
        by (rewrite <- app_assoc; reflexivity).
      apply Hnd. rewrite map_app. simpl.
      apply NoDup_snoc; [assumption | now rewrite Hid].
    + exists []. simpl. rewrite app_nil_r. auto.
Qed.

End LicenseKeyTable.

(** ** What each request does to the license key table *)

Lemma after_create_store_keys s res :
  license_keys (snd (Webhooks.after_create s res)) = license_keys s.
Proof. destruct res as [[r table] | e]; reflexivity. Qed.

Lemma after_update_store_keys s res :
  license_keys (snd (Webhooks.after_update s res)) = license_keys s.
Proof. now rewrite after_update_store. Qed.

Lemma dispatch_license_keys event now uuid s :
  license_keys (snd (Webhooks.dispatch event now uuid s)) = license_keys s.
Proof.
  destruct event as [session | invoice | invoice | sub | sub | sub | ty]; simpl.
  - unfold Webhooks.handleCheckoutSessionCompleted.
    destruct (negb (truthy (Webhooks.metadata_uid session))
              && negb (truthy (Webhooks.metadata_guest_id session)));
      [reflexivity |].
    destruct (truthy (Webhooks.metadata_uid session)).
    + destruct (UserSubscription.getByUid _ _);
        [apply after_update_store_keys | apply after_create_store_keys].
    + destruct (truthy (Webhooks.metadata_guest_id session)); [| reflexivity].
      destruct (Device.getById _ _); [| reflexivity].
      destruct (UserSubscription.getByDeviceId _ _);
        [apply after_update_store_keys | apply after_create_store_keys].
  - unfold Webhooks.handleInvoicePaymentSucceeded, Webhooks.force_status.
    destruct (negb (truthy (Webhooks.invoice_subscription invoice)));
      [reflexivity |].
    destruct (UserSubscription.getByStripeSubscriptionId _ _);
      [apply after_update_store_keys | reflexivity].
  - unfold Webhooks.handleInvoicePaymentFailed, Webhooks.force_status.
    destruct (negb (truthy (Webhooks.invoice_subscription invoice)));
      [reflexivity |].
    destruct (UserSubscription.getByStripeSubscriptionId _ _);
      [apply after_update_store_keys | reflexivity].
  - now rewrite handleSubscriptionCreated_store.
  - unfold Webhooks.handleSubscriptionUpdated.
    destruct (UserSubscription.getByStripeSubscriptionId _ _);
      [apply after_update_store_keys | reflexivity].
  - unfold Webhooks.handleSubscriptionDeleted, Webhooks.force_status.
    destruct (UserSubscription.getByStripeSubscriptionId _ _);
      [apply after_update_store_keys | reflexivity].
  - reflexivity.
Qed.

Lemma stripe_license_keys verified now uuid s :
  license_keys (snd (Webhooks.stripe verified now uuid s)) = license_keys s.
Proof.
  unfold Webhooks.stripe. destruct verified as [event |]; [| reflexivity].
  rewrite <- (dispatch_license_keys event now uuid s).
  now destruct (Webhooks.dispatch event now uuid s) as [[[] | e] s'].
Qed.

Lemma startGuestTrial_license_keys env d now ud us s :
  license_keys (snd (Paywall.startGuestTrial env d now ud us s)) = license_keys s.
Proof.
  unfold Paywall.startGuestTrial.
  destruct (negb (Paywall.valid_text d)); [reflexivity |].
  destruct (Device.getByDeviceId _ _ _); [reflexivity |].
  destruct (Device.create _ _ _ _ _) as [[device devices'] | e]; [| reflexivity].
  now destruct (UserSubscription.create _ _ _ _) as [[r subs'] | e].
Qed.

Lemma linkGuest_license_keys g u now us s :
  license_keys (snd (Paywall.linkGuest g u now us s)) = license_keys s.
Proof.
  unfold Paywall.linkGuest.
  destruct (Device.getById _ _) as [device |]; [| reflexivity].
  destruct (truthy (Device.linkedUid device)); [reflexivity |].
  destruct (Device.linkToUid _ _ _) as [[device' | e] devices']; [| reflexivity].
  destruct (UserSubscription.getByUid _ _) as [subscription |].
  - destruct (is_null _ && negb _); [| reflexivity].
    now destruct (UserSubscription.update _ _ _ _) as [[r | e] subs'].
  - now destruct (UserSubscription.create _ _ _ _) as [[r subs'] | e].
Qed.

(** The bodies that the schema of redeem-license lets through. *)
Lemma redeemLicenseSchema_passes env k g t :
  Paywall.redeemLicenseSchema env k g t = None <->
  Paywall.valid_text k = true /\
  (forall x, g = Some x -> x <> "" /\ joiUuid env x = true) /\
  (forall x, t = Some x -> x <> "").
Proof.
  unfold Paywall.redeemLicenseSchema, Paywall.first_error, Paywall.required,
    Paywall.optional, Paywall.string_error, Paywall.max_255, Paywall.uuid_rule,
    Paywall.valid_text.
  destruct k as [k |]; [| split; [discriminate | intros (H & _); discriminate]].
  destruct (String.eqb_spec k "") as [-> | Hk]; cbn [negb andb];
    [split; [discriminate | intros (H & _); discriminate] |].
  destruct (Nat.leb (String.length k) 255);
    [| split; [discriminate | intros (H & _); discriminate]].
  destruct g as [g |].
  - destruct (String.eqb_spec g "") as [-> | Hg].
    { split; [discriminate |]. intros (_ & H & _).
      now destruct (H "" eq_refl) as [H0 _]. }
    destruct (joiUuid env g) eqn:Hu.
    2:{ split; [discriminate |]. intros (_ & H & _).
        destruct (H g eq_refl) as [_ H1]. congruence. }
    destruct t as [t |].
    + destruct (String.eqb_spec t "") as [-> | Ht].
      * split; [discriminate |]. intros (_ & _ & H). now specialize (H "" eq_refl).
      * split; [| reflexivity]. intros _. split; [reflexivity |]. split.
        -- intros x [= <-]. now split.
        -- now intros x [= <-].
    + split; [| reflexivity]. intros _. split; [reflexivity |]. split.
      * intros x [= <-]. now split.
      * discriminate.
  - destruct t as [t |].
    + destruct (String.eqb_spec t "") as [-> | Ht].
      * split; [discriminate |]. intros (_ & _ & H). now specialize (H "" eq_refl).
      * split; [| reflexivity]. intros _. split; [reflexivity |]. split.
        -- discriminate.
        -- now intros x [= <-].
    + split; [| reflexivity]. intros _. split; [reflexivity |].
      split; discriminate.
Qed.

Lemma redeemLicense_keys_effect env k g t u now us s :
  let keys' := license_keys (snd (Paywall.redeemLicense env k g t u now us s)) in
  keys' = license_keys s \/
  exists licenseKey boundUid boundDeviceId,
    In licenseKey (license_keys s) /\
    LicenseKey.redeemedAt licenseKey = None /\
    Paywall.choose_binding u g s = inr (boundUid, boundDeviceId) /\
    keys' = LicenseKey.update_rows (LicenseKey.id licenseKey)
              (LicenseKey.mkUpdate boundUid boundDeviceId (Some now))
              (license_keys s).
Proof.
  cbv zeta. unfold Paywall.redeemLicense.
  destruct (Paywall.redeemLicenseSchema env k g t); [now left |].
  destruct (LicenseKey.getByKey env (or_default k "") (license_keys s))
    as [licenseKey |] eqn:Hget; [| now left].
  destruct (negb (LicenseKey.isValidForRedemption licenseKey now)) eqn:Hvalid;
    [now left |].
  destruct (Paywall.choose_binding u g s) as [response | [boundUid boundDeviceId]]
    eqn:Hbind; [now left |].
  right. exists licenseKey, boundUid, boundDeviceId.
  apply negb_false_iff in Hvalid. unfold LicenseKey.isValidForRedemption in Hvalid.
  apply andb_true_iff in Hvalid. destruct Hvalid as [Hred Hexp].
  apply negb_true_iff in Hred, Hexp.
  assert (Hnull : LicenseKey.redeemedAt licenseKey = None).
  { unfold LicenseKey.isRedeemed in Hred.
    destruct (LicenseKey.redeemedAt licenseKey); [discriminate | reflexivity]. }
  split; [eapply getByKey_in; eassumption |]. split; [assumption |].
  split; [reflexivity |].
  unfold LicenseKey.redeem. rewrite Hred, Hexp.
  pose proof (key_update_table licenseKey
                (LicenseKey.mkUpdate boundUid boundDeviceId (Some now))
                (license_keys s)) as Hupd.
  destruct (LicenseKey.update licenseKey _ (license_keys s))
    as [[licenseKey' | e] keys']; simpl in Hupd; subst keys'; [| reflexivity].
  now destruct (UserSubscription.create _ _ _ _) as [[r subs'] | e].
Qed.

Lemma choose_binding_one_sided u g s boundUid boundDeviceId :
  Paywall.choose_binding u g s = inr (boundUid, boundDeviceId) ->
  (truthy u = true /\ boundUid = u /\ boundDeviceId = None) \/
  (truthy u = false /\ boundUid = None /\
   exists device, Device.getById (or_default g "") (devices s) = Some device /\
                  boundDeviceId = Some (Device.id device)).
Proof.
  unfold Paywall.choose_binding. destruct (truthy u).
  - intros [= <- <-]. now left.
  - destruct (truthy g); [| discriminate].
    destruct (Device.getById (or_default g "") (devices s)) as [device |];
      [| discriminate].
    intros [= <- <-]. right. eauto.
Qed.

Lemma revokeLicense_keys_effect env a k now s :
  let keys' := license_keys (snd (Admin.revokeLicense env a k now s)) in
  keys' = license_keys s \/
  exists licenseKey,
    LicenseKey.getByKey env (or_default k "") (license_keys s) = Some licenseKey /\
    keys' = LicenseKey.update_rows (LicenseKey.id licenseKey)
              (LicenseKey.mkUpdate None None (Some now)) (license_keys s).
Proof.
  cbv zeta. unfold Admin.revokeLicense.
  destruct (negb (Admin.adminAuth env a)); [now left |].
  destruct (negb (truthy k)); [now left |].
  destruct (LicenseKey.getByKey env (or_default k "") (license_keys s))
    as [licenseKey |] eqn:Hget; [| now left].
  right. exists licenseKey. split; [reflexivity |].
  unfold LicenseKey.revoke.
  pose proof (key_update_table licenseKey
                (LicenseKey.mkUpdate None None (Some now)) (license_keys s)) as Hupd.
  now destruct (LicenseKey.update licenseKey _ (license_keys s))
    as [[licenseKey' | e] keys']; simpl in Hupd; subst keys'.
Qed.

Lemma serve_keys_effect env req now s :
  keys_effect (license_keys s) (license_keys (Service.serve env req now s))
              (kind_of req).
Proof.
  destruct req as [d ud us | u g | u | k g t u us | g u us | v u | a p c o dr | a k
                  | lk0];
    simpl.
  9:{ now apply effect_none. }
  - apply effect_none, startGuestTrial_license_keys.
  - now apply effect_none.
  - now apply effect_none.
  - destruct (redeemLicense_keys_effect env k g t u now us s)
      as [H | (lk & bu & bd & Hin & Hnull & Hbind & H)].
    + now apply effect_none.
    + apply effect_redeem with lk bu bd now; try assumption.
      apply choose_binding_one_sided in Hbind.
      destruct Hbind as [(_ & _ & ->) | (_ & -> & _)]; auto.
  - apply effect_none, linkGuest_license_keys.
  - apply effect_none, stripe_license_keys.
  - unfold Admin.generateLicenseKeys.
    destruct (negb (Admin.adminAuth env a)); [now apply effect_none |].
    destruct (Nat.ltb c 1 || Nat.ltb 1000 c); [now apply effect_none |].
    destruct (StripePlan.getByPlanKey p (stripe_plans s));
      [| now apply effect_none].
    destruct (createMultiple_from_spec env p o dr now c 0%nat (license_keys s))
      as (fresh & Hs & Hall & Hnd).
    assert (E : license_keys
                  (snd (let (r, keys') :=
                          LicenseKey.createMultiple env p c o dr now (license_keys s) in
                        match r with
                        | Ok (_, plaintextKeys) =>
                            (Admin.Generated plaintextKeys, with_license_keys s keys')
                        | Throw _ => (Admin.Failed, with_license_keys s keys')
                        end)) = license_keys s ++ fresh).
    { rewrite <- Hs. unfold LicenseKey.createMultiple.
      now destruct (LicenseKey.createMultiple_from env 0 p c o dr now (license_keys s))
        as [[[ks ps] | e] keys']. }
    apply effect_generate with fresh; try assumption.
    now rewrite E.
  - destruct (revokeLicense_keys_effect env a k now s) as [H | (lk & Hget & H)].
    + now apply effect_none.
    + apply effect_revoke with lk now; [| assumption].
      eapply getByKey_in; eassumption.
Qed.

Lemma keys_effect_ids keys keys' kind :
  keys_effect keys keys' kind ->
  NoDup (map LicenseKey.id keys) -> NoDup (map LicenseKey.id keys').
Proof.
  intros [kind' -> | fresh _ _ H | lk bu bd now _ _ _ -> | lk now _ ->]; auto;
    now rewrite key_update_rows_ids.
Qed.

Lemma update_rows_exclusive i boundUid boundDeviceId t keys :
  boundUid = None \/ boundDeviceId = None ->
  Forall binding_exclusive keys ->
  Forall binding_exclusive
    (LicenseKey.update_rows i (LicenseKey.mkUpdate boundUid boundDeviceId t) keys).
Proof.
  intros Hone Hall. rewrite key_update_rows_map. apply Forall_map.
  eapply Forall_impl; [| exact Hall]. intros x Hx. unfold key_patched.
  destruct (LicenseKey.has_id i x); [exact Hone | exact Hx].
Qed.

Lemma keys_effect_exclusive keys keys' kind :
  keys_effect keys keys' kind ->
  Forall binding_exclusive keys -> Forall binding_exclusive keys'.
Proof.
  intros [kind' -> | fresh -> Hfresh _ | lk bu bd now _ _ Hone -> | lk now _ ->]
         Hall.
  - assumption.
  - apply Forall_app. split; [assumption |].
    eapply Forall_impl; [| exact Hfresh]. intros x (Hu & _). now left.
  - now apply update_rows_exclusive.
  - apply update_rows_exclusive; auto.
Qed.

Lemma reachable_keys_invariant env plans s :
  Service.reachable env plans s ->
  NoDup (map LicenseKey.id (license_keys s)) /\
  Forall binding_exclusive (license_keys s).
Proof.
  induction 1 as [| s req now _ [IHn IHe]]; simpl.
  - split; constructor.
  - pose proof (serve_keys_effect env req now s) as Heff. split.
    + eapply keys_effect_ids; eassumption.
    + eapply keys_effect_exclusive; eassumption.
Qed.

Lemma redeemed_key_survives keys keys' kind x :
  keys_effect keys keys' kind -> kind <> Revoking ->
  NoDup (map LicenseKey.id keys) ->
  In x keys -> LicenseKey.redeemedAt x <> None -> In x keys'.
Proof.
  intros [kind' -> | fresh -> _ _ | lk bu bd now Hin Hnull _ -> | lk now _ _]
         Hkind Hnd Hx Hred.
  - assumption.
  - apply in_or_app. now left.
  - apply key_update_rows_others; [assumption |].
    intros E. apply Hred.
    now rewrite (unique_id_eq keys lk x Hnd Hin Hx E).
  - contradiction.
Qed.

(** ** License keys: redemption and revocation *)

Lemma reachable_serve_all env plans requests :
  forall s, Service.reachable env plans s ->
            Service.reachable env plans (serve_all env requests s).
Proof.
  induction requests as [| [req now] rest IH]; intros s Hr; simpl;
    [assumption |].
  apply IH. now constructor.
Qed.

Lemma sample_guests_store_reachable :
  Service.reachable sample_env sample_plans sample_guests_store.
Proof. repeat apply Service.reachable_serve. apply Service.reachable_init. Defined.

Lemma sample_guest_redeemed_store_reachable :
  Service.reachable sample_env sample_plans sample_guest_redeemed_store.
Proof. apply Service.reachable_serve, sample_guests_store_reachable. Defined.

(** C2, as stated, fails: revoking the key that a guest redeemed at time
    1000 succeeds and writes [redeemed_at] again, with the time of the
    revocation. *)
Lemma revoke_rewrites_redeemed_at :
  let result :=
    Admin.revokeLicense sample_env (Some "admin") (Some sample_key) 5000
                        sample_guest_redeemed_store in
  option_map LicenseKey.redeemedAt
    (LicenseKey.getByKey sample_env sample_key
       (license_keys sample_guest_redeemed_store)) = Some (Some 1000) /\
  fst result = Admin.Revoked /\
  option_map LicenseKey.redeemedAt
    (LicenseKey.getByKey sample_env sample_key (license_keys (snd result))) =
  Some (Some 5000).
Proof. repeat split. Qed.

(** C2 (amended).  For every license key, [redeem] on a key that was read
    with [redeemed_at] set fails with "already been redeemed" and changes
    nothing, whatever its [single_use] flag, in the model method and in the
    route alike; and while the requests are served one after the other, no
    request other than a revocation changes a key whose [redeemed_at] is
    set.  A revocation rewrites [redeemed_at] with the current time and
    clears both bindings on every key it finds, redeemed or revoked before
    or not.  (Redemptions that are in flight together are not covered.) *)
Theorem redeemed_at_written_by_redeem_once :
  forall (env : Env),
    (forall this boundUid boundDeviceId now table,
        LicenseKey.redeemedAt this <> None ->
        LicenseKey.redeem this boundUid boundDeviceId now table =
        (Throw "License key has already been redeemed", table)) /\
    (forall body_key guest_id id_token uid now uuid s licenseKey,
        Paywall.redeemLicenseSchema env body_key guest_id id_token = None ->
        LicenseKey.getByKey env (or_default body_key "") (license_keys s) =
          Some licenseKey ->
        LicenseKey.redeemedAt licenseKey <> None ->
        Paywall.redeemLicense env body_key guest_id id_token uid now uuid s =
        (Paywall.RedeemBadRequest "License key has already been redeemed", s)) /\
    (forall plans s requests licenseKey,
        Service.reachable env plans s ->
        Forall (fun served => kind_of (fst served) <> Revoking) requests ->
        In licenseKey (license_keys s) ->
        LicenseKey.redeemedAt licenseKey <> None ->
        In licenseKey (license_keys (serve_all env requests s))) /\
    (forall x_admin_key body_key now s licenseKey,
        Admin.adminAuth env x_admin_key = true ->
        truthy body_key = true ->
        LicenseKey.getByKey env (or_default body_key "") (license_keys s) =
          Some licenseKey ->
        LicenseKey.getByKey env (or_default body_key "")
          (license_keys (snd (Admin.revokeLicense env x_admin_key body_key now s))) =
        Some (LicenseKey.mk
                (LicenseKey.id licenseKey) (LicenseKey.key licenseKey)
                (LicenseKey.planId licenseKey) (LicenseKey.expiresAt licenseKey)
                (LicenseKey.singleUse licenseKey) None None (Some now)
                (LicenseKey.createdBy licenseKey) (LicenseKey.createdAt licenseKey))).
Proof.
  intros env. repeat split.
  - intros this bu bd now table Hred. unfold LicenseKey.redeem, LicenseKey.isRedeemed.
    destruct (LicenseKey.redeemedAt this); [reflexivity | contradiction].
  - intros k g t u now uuid s lk Hvalid Hget Hred. unfold Paywall.redeemLicense.
    rewrite Hvalid, Hget. simpl.
    unfold LicenseKey.isValidForRedemption, LicenseKey.isRedeemed.
    destruct (LicenseKey.redeemedAt lk); [reflexivity | contradiction].
  - intros plans s requests lk Hreach Hall. revert s Hreach.
    induction Hall as [| [req now] rest Hkind _ IH]; intros s Hreach Hin Hred;
      simpl; [assumption |].
    apply IH; [now constructor | | assumption].
    destruct (reachable_keys_invariant env plans s Hreach) as [Hnd _].
    eapply redeemed_key_survives; eauto using serve_keys_effect.
  - intros a k now s lk Hauth Htruthy Hget. unfold Admin.revokeLicense.
    rewrite Hauth, Htruthy, Hget. simpl. unfold LicenseKey.revoke.
    pose proof (key_update_table lk (LicenseKey.mkUpdate None None (Some now))
                                 (license_keys s)) as Hupd.
    destruct (LicenseKey.update lk _ (license_keys s)) as [[lk2 | e] keys'];
      simpl in *; subst keys';
      rewrite getByKey_update_rows, Hget; simpl; now rewrite key_patched_self.
Qed.

Lemma redeemed_at_written_by_redeem_once_witness :
  Paywall.redeemLicense sample_env (Some sample_key) (Some sample_guest_b) None
                        None 2000 "row-b" sample_guest_redeemed_store =
  (Paywall.RedeemBadRequest "License key has already been redeemed",
   sample_guest_redeemed_store) /\
  In sample_guest_redeemed_key
     (license_keys
        (serve_all sample_env
           [(Service.RedeemLicense (Some sample_key) (Some sample_guest_b) None
                                   None "row-b", 2000);
            (Service.StartGuestTrial (Some "fingerprint-c")
               "33333333-3333-4333-8333-333333333333" "row-c", 3000)]
           sample_guest_redeemed_store)) /\
  LicenseKey.getByKey sample_env sample_key
    (license_keys
       (snd (Admin.revokeLicense sample_env (Some "admin") (Some sample_key) 5000
               sample_guest_redeemed_store))) =
  Some (LicenseKey.mk "key-1" (LicenseKey.hashKey sample_env sample_key)
          "pro_monthly" None true None None (Some 5000) (Some "ops") 300).
Proof.
  destruct (redeemed_at_written_by_redeem_once sample_env)
    as (_ & Hroute & Hserved & Hrevoke).
  split; [| split].
  - apply (Hroute (Some sample_key) (Some sample_guest_b) None None 2000 "row-b"
             sample_guest_redeemed_store sample_guest_redeemed_key).
    + reflexivity.
    + reflexivity.
    + discriminate.
  - apply (Hserved sample_plans).
    + exact sample_guest_redeemed_store_reachable.
    + repeat constructor; discriminate.
    + now left.
    + discriminate.
  - apply (Hrevoke (Some "admin") (Some sample_key) 5000
             sample_guest_redeemed_store sample_guest_redeemed_key);
      reflexivity.
Defined.

Lemma choose_binding_response u g s response :
  Paywall.choose_binding u g s = inl response ->
  exists e, response = Paywall.RedeemBadRequest e.
Proof.
  unfold Paywall.choose_binding. destruct (truthy u); [discriminate |].
  destruct (truthy g).
  - destruct (Device.getById (or_default g "") (devices s)); [discriminate |].
    intros [= <-]. eauto.
  - intros [= <-]. eauto.
Qed.

Lemma redeemLicense_ok env k g t u now uuid s body s' :
  Paywall.redeemLicense env k g t u now uuid s = (Paywall.RedeemOk body, s') ->
  exists licenseKey boundUid boundDeviceId,
    LicenseKey.getByKey env (or_default k "") (license_keys s) = Some licenseKey /\
    LicenseKey.redeemedAt licenseKey = None /\
    Paywall.choose_binding u g s = inr (boundUid, boundDeviceId) /\
    license_keys s' =
      LicenseKey.update_rows (LicenseKey.id licenseKey)
        (LicenseKey.mkUpdate boundUid boundDeviceId (Some now)) (license_keys s) /\
    devices s' = devices s /\
    Paywall.redeemLicenseSchema env k g t = None.
Proof.
  unfold Paywall.redeemLicense.
  destruct (Paywall.redeemLicenseSchema env k g t); [discriminate |].
  destruct (LicenseKey.getByKey env (or_default k "") (license_keys s))
    as [lk |] eqn:Hget; [| discriminate].
  destruct (negb (LicenseKey.isValidForRedemption lk now)) eqn:Hvalid;
    [discriminate |].
  destruct (Paywall.choose_binding u g s) as [response | [bu bd]] eqn:Hbind.
  { apply choose_binding_response in Hbind. destruct Hbind as [e ->].
    discriminate. }
  apply negb_false_iff in Hvalid. unfold LicenseKey.isValidForRedemption in Hvalid.
  apply andb_true_iff in Hvalid. destruct Hvalid as [Hred Hexp].
  apply negb_true_iff in Hred, Hexp.
  unfold LicenseKey.redeem. rewrite Hred, Hexp.
  pose proof (key_update_table lk (LicenseKey.mkUpdate bu bd (Some now))
                               (license_keys s)) as Hupd.
  destruct (LicenseKey.update lk _ (license_keys s)) as [[lk' | e] keys'];
    simpl in Hupd; subst keys'; [| discriminate].
  destruct (UserSubscription.create _ _ _ _) as [[r subs'] | e]; [| discriminate].
  intros [= _ <-]. exists lk, bu, bd. repeat split.
  unfold LicenseKey.isRedeemed in Hred.
  destruct (LicenseKey.redeemedAt lk); [discriminate | reflexivity].
Qed.




Example sample_guest_redeemed_store_keys :
  license_keys sample_guest_redeemed_store = [sample_guest_redeemed_key].
Proof. reflexivity. Qed.


(** ** The key generator *)

Lemma unhex_byte_hex (b : byte) :
  match toUpperCase (toStringHex [b]) with
  | String c1 (String c2 EmptyString) =>
      unhex_byte c1 c2 = b /\ upper_alnum c1 = true /\ upper_alnum c2 = true
  | _ => False
  end.
Proof. destruct b; vm_compute; auto. Qed.

Lemma segment_shape (b0 b1 : byte) :
  unsegment (segment b0 b1) = [b0; b1] /\
  String.length (segment b0 b1) = 4%nat /\
  all_chars upper_alnum (segment b0 b1) = true.
Proof.
  pose proof (unhex_byte_hex b0) as H0. pose proof (unhex_byte_hex b1) as H1.
  unfold segment. simpl in *.
  destruct H0 as (E0 & A0 & A0'). destruct H1 as (E1 & A1 & A1').
  simpl. rewrite E0, E1, A0, A0', A1, A1'. auto.
Qed.

Lemma generateKey_segments randomBytes2 :
  LicenseKey.generateKey randomBytes2 =
  String.append "UTM-"
    (String.append (segment (fst (randomBytes2 0%nat)) (snd (randomBytes2 0%nat)))
       (String.append "-"
          (String.append (segment (fst (randomBytes2 1%nat)) (snd (randomBytes2 1%nat)))
             (String.append "-"
                (segment (fst (randomBytes2 2%nat)) (snd (randomBytes2 2%nat))))))).
Proof.
  unfold LicenseKey.generateKey. simpl seq. simpl map.
  destruct (randomBytes2 0%nat) as [a0 a1], (randomBytes2 1%nat) as [b0 b1],
           (randomBytes2 2%nat) as [c0 c1].
  reflexivity.
Qed.

Lemma generateKey_drawn_bytes randomBytes2 :
  LicenseKey.generateKey randomBytes2 =
  LicenseKey.generateKey (source_of (drawn_bytes randomBytes2)).
Proof. now rewrite !generateKey_segments. Qed.

Lemma byte_of_to_N (b : byte) : byte_of_N (Byte.to_N b) = b.
Proof. unfold byte_of_N. now rewrite Byte.of_to_N. Qed.

Lemma to_N_byte_of_N (n : N) : (n < 256)%N -> Byte.to_N (byte_of_N n) = n.
Proof.
  intros H. unfold byte_of_N.
  destruct (Byte.of_N n) as [b |] eqn:E.
  - now apply Byte.to_of_N.
  - apply Byte.of_N_None_iff in E. lia.
Qed.

Lemma bytes_of_index_of_bytes (l : list byte) :
  bytes_of_index (List.length l) (index_of_bytes l) = l.
Proof.
  induction l as [| b l IH]; [reflexivity |].
  pose proof (Byte.to_N_bounded b) as Hb.
  cbn [index_of_bytes List.length bytes_of_index].
  assert (Hmod : ((Byte.to_N b + 256 * index_of_bytes l) mod 256 = Byte.to_N b)%N).
  { rewrite N.mul_comm, N.Div0.mod_add. apply N.mod_small. lia. }
  assert (Hdiv : ((Byte.to_N b + 256 * index_of_bytes l) / 256 = index_of_bytes l)%N).
  { rewrite N.mul_comm, N.div_add by lia. rewrite N.div_small by lia. lia. }
  now rewrite Hmod, Hdiv, byte_of_to_N, IH.
Qed.

Lemma index_of_bytes_bound (l : list byte) :
  (index_of_bytes l < 256 ^ N.of_nat (List.length l))%N.
Proof.
  induction l as [| b l IH]; [reflexivity |].
  pose proof (Byte.to_N_bounded b) as Hb.
  cbn [index_of_bytes List.length]. rewrite Nat2N.inj_succ, N.pow_succ_r'. lia.
Qed.

Lemma index_of_bytes_of_index (count : nat) :
  forall n, (n < 256 ^ N.of_nat count)%N ->
            index_of_bytes (bytes_of_index count n) = n.
Proof.
  induction count as [| count IH]; intros n Hn.
  - simpl in *. lia.
  - cbn [bytes_of_index index_of_bytes].
    rewrite Nat2N.inj_succ, N.pow_succ_r' in Hn.
    rewrite to_N_byte_of_N by (apply N.mod_lt; lia).
    rewrite IH by (apply N.Div0.div_lt_upper_bound; lia).
    pose proof (N.div_mod n 256). lia.
Qed.

Lemma bytes_of_index_length count n : List.length (bytes_of_index count n) = count.
Proof. revert n. induction count; intros n; simpl; auto. Qed.

Lemma unhex_hex (b : byte) :
  unhex_byte (upper_char (hex_digit (Byte.to_N b / 16)))
             (upper_char (hex_digit (Byte.to_N b mod 16))) = b.
Proof. destruct b; reflexivity. Qed.

Lemma parse_generateKey randomBytes2 :
  parse_key (LicenseKey.generateKey randomBytes2) = drawn_bytes randomBytes2.
Proof.
  rewrite generateKey_segments. unfold segment.
  cbn [toStringHex toUpperCase String.append parse_key].
  rewrite !unhex_hex. reflexivity.
Qed.

Lemma drawn_bytes_source_of (l : list byte) :
  List.length l = 6%nat -> drawn_bytes (source_of l) = l.
Proof.
  destruct l as [| b0 [| b1 [| b2 [| b3 [| b4 [| b5 [| b6 l]]]]]]];
    try discriminate.
  reflexivity.
Qed.

Lemma key_of_index_drawn randomBytes2 :
  key_of_index (index_of_bytes (drawn_bytes randomBytes2)) =
  LicenseKey.generateKey randomBytes2.
Proof.
  unfold key_of_index.
  pose proof (bytes_of_index_of_bytes (drawn_bytes randomBytes2)) as H.
  change (List.length (drawn_bytes randomBytes2)) with 6%nat in H.
  rewrite H. symmetry. apply generateKey_drawn_bytes.
Qed.

(** C7, as stated, fails: every key the generator can draw is one of the
    2^48 keys [key_of_index n], [n < 2^48], and 2^48 is below 2^96. *)
Lemma generated_keys_have_48_random_bits :
  (forall randomBytes2,
      exists n, (n < 2 ^ 48)%N /\
                LicenseKey.generateKey randomBytes2 = key_of_index n) /\
  (2 ^ 48 < 2 ^ 96)%N.
Proof.
  split; [| reflexivity].
  intros rnd. exists (index_of_bytes (drawn_bytes rnd)). split.
  - apply (index_of_bytes_bound (drawn_bytes rnd)).
  - symmetry. apply key_of_index_drawn.
Qed.

(** C7 (amended).  Every generated license key's random component is six
    random bytes: the keys are exactly the 2^48 pairwise different keys
    [key_of_index n], [n < 2^48] (48 bits of entropy).  The key is [UTM-]
    followed by three groups of four uppercase alphanumeric characters
    separated by [-]. *)
Theorem generated_key_space_and_format :
  forall (randomBytes2 : nat -> byte * byte),
    (exists n, (n < 2 ^ 48)%N /\
               LicenseKey.generateKey randomBytes2 = key_of_index n) /\
    (forall n m, (n < 2 ^ 48)%N -> (m < 2 ^ 48)%N ->
                 key_of_index n = key_of_index m -> n = m) /\
    (exists a b c,
        LicenseKey.generateKey randomBytes2 =
        String.append "UTM-"
          (String.append a (String.append "-"
             (String.append b (String.append "-" c)))) /\
        String.length a = 4%nat /\ String.length b = 4%nat /\
        String.length c = 4%nat /\
        all_chars upper_alnum a = true /\ all_chars upper_alnum b = true /\
        all_chars upper_alnum c = true).
Proof.
  intros rnd. split; [| split].
  - exists (index_of_bytes (drawn_bytes rnd)). split.
    + apply (index_of_bytes_bound (drawn_bytes rnd)).
    + symmetry. apply key_of_index_drawn.
  - intros n m Hn Hm E. unfold key_of_index in E.
    apply (f_equal parse_key) in E. rewrite !parse_generateKey in E.
    rewrite !drawn_bytes_source_of in E by apply bytes_of_index_length.
    apply (f_equal index_of_bytes) in E.
    now rewrite !index_of_bytes_of_index in E.
  - exists (segment (fst (rnd 0%nat)) (snd (rnd 0%nat))),
           (segment (fst (rnd 1%nat)) (snd (rnd 1%nat))),
           (segment (fst (rnd 2%nat)) (snd (rnd 2%nat))).
    split; [apply generateKey_segments |].
    destruct (segment_shape (fst (rnd 0%nat)) (snd (rnd 0%nat))) as (_ & L0 & A0).
    destruct (segment_shape (fst (rnd 1%nat)) (snd (rnd 1%nat))) as (_ & L1 & A1).
    destruct (segment_shape (fst (rnd 2%nat)) (snd (rnd 2%nat))) as (_ & L2 & A2).
    repeat split; assumption.
Qed.

(** The key drawn from the bytes 0a 1b 2c 3d 4e 5f. *)
Example generateKey_sample :
  LicenseKey.generateKey
    (source_of [x0a; x1b; x2c; x3d; x4e; x5f]) = "UTM-0A1B-2C3D-4E5F".
Proof. reflexivity. Qed.

(** ** The trial manager *)

Lemma device_create_spec env device_id uuid now table device table' :
  Device.create env device_id uuid now table = Ok (device, table') ->
  table' = table ++ [device] /\
  Device.id device = uuid /\
  Device.deviceId device = Device.hashDeviceId env device_id /\
  Device.trialStart device = Some now /\
  Device.trialEnd device = Some (now + Device.TRIAL_MS) /\
  Device.subscriptionStatus device = "trial" /\
  filter (fun r => Device.deviceId r =? Device.hashDeviceId env device_id) table = [].
Proof.
  unfold Device.create.
  destruct (existsb (Device.has_id uuid) table); simpl; [discriminate |].
  destruct (existsb (fun r => Device.deviceId r =? Device.hashDeviceId env device_id)
                    table) eqn:E; [discriminate |].
  intros [= <- <-]. repeat split. now apply filter_nil_of_existsb.
Qed.

Lemma getByDeviceId_after_create env device_id uuid now table device table' :
  Device.create env device_id uuid now table = Ok (device, table') ->
  Device.getByDeviceId env device_id table' = Some device.
Proof.
  intros H. apply device_create_spec in H.
  destruct H as (-> & _ & Hhash & _ & _ & _ & Hnone).
  unfold Device.getByDeviceId. rewrite filter_app, Hnone. simpl.
  now rewrite Hhash, String.eqb_refl.
Qed.

(** C6.  For every fingerprint, a call of start-guest-trial after a first
    successful one succeeds, sends the same device id and the same
    [trial_start] and [trial_end] as the first, and leaves the store as the
    first call left it. *)
Theorem startGuestTrial_twice :
  forall (env : Env) (fingerprint : option string) (now1 now2 : Z)
         (uuid_device1 uuid_subscription1 uuid_device2 uuid_subscription2 : string)
         (s s1 : Store) (view1 : Device.PublicJSON),
    Paywall.startGuestTrial env fingerprint now1 uuid_device1 uuid_subscription1 s =
      (Paywall.TrialOk view1, s1) ->
    exists view2,
      Paywall.startGuestTrial env fingerprint now2 uuid_device2 uuid_subscription2 s1 =
        (Paywall.TrialOk view2, s1) /\
      Device.guest_id view2 = Device.guest_id view1 /\
      Device.trial_start view2 = Device.trial_start view1 /\
      Device.trial_end view2 = Device.trial_end view1.
Proof.
  intros env f now1 now2 ud1 us1 ud2 us2 s s1 view1.
  unfold Paywall.startGuestTrial.
  destruct (negb (Paywall.valid_text f)); [discriminate |].
  destruct (Device.getByDeviceId env (or_default f "") (devices s))
    as [device |] eqn:Hget.
  - intros [= <- <-]. rewrite Hget.
    exists (Device.toPublicJSON device now2). repeat split.
  - destruct (Device.create env (or_default f "") ud1 now1 (devices s))
      as [[device devices'] | e] eqn:Hcreate; [| discriminate].
    destruct (UserSubscription.create _ us1 now1 _) as [[r subs'] | e];
      [| discriminate].
    intros [= <- <-]. simpl.
    rewrite (getByDeviceId_after_create _ _ _ _ _ _ _ Hcreate).
    exists (Device.toPublicJSON device now2). repeat split.
Qed.

Lemma startGuestTrial_twice_witness :
  exists view2,
    Paywall.startGuestTrial sample_env (Some "fingerprint-1") 9000 "dev-2" "row-2"
      (snd (Paywall.startGuestTrial sample_env (Some "fingerprint-1") 1000
              "dev-1" "row-1" (empty_store sample_plans))) =
      (Paywall.TrialOk view2,
       snd (Paywall.startGuestTrial sample_env (Some "fingerprint-1") 1000
              "dev-1" "row-1" (empty_store sample_plans))) /\
    Device.guest_id view2 = "dev-1" /\
    Device.trial_start view2 = Some 1000 /\
    Device.trial_end view2 = Some (1000 + Device.TRIAL_MS).
Proof.
  apply (startGuestTrial_twice sample_env (Some "fingerprint-1") 1000 9000
           "dev-1" "row-1" "dev-2" "row-2" (empty_store sample_plans) _
           (Device.mkPublic "dev-1" (Some 1000) (Some (1000 + Device.TRIAL_MS))
                            "trial" true 3)).
  reflexivity.
Defined.

(** ** The billing event processor: checkout completed *)

Lemma getByUid_update_rows u i d now table :
  UserSubscription.u_uid d = None ->
  UserSubscription.getByUid u (UserSubscription.update_rows i d now table) =
  option_map (patched i d now) (UserSubscription.getByUid u table).
Proof.
  intros Hd. unfold UserSubscription.getByUid.
  rewrite update_rows_map, filter_map_commute, latest_map; [reflexivity | |].
  - intros x. apply patched_createdAt.
  - intros x. unfold patched. destruct (UserSubscription.has_id i x); [| reflexivity].
    simpl. now rewrite Hd.
Qed.

Lemma getByDeviceId_update_rows dev i d now table :
  UserSubscription.getByDeviceId dev (UserSubscription.update_rows i d now table) =
  option_map (patched i d now) (UserSubscription.getByDeviceId dev table).
Proof.
  unfold UserSubscription.getByDeviceId.
  rewrite update_rows_map, filter_map_commute, latest_map; [reflexivity | |].
  - intros x. apply patched_createdAt.
  - intros x. unfold patched. now destruct (UserSubscription.has_id i x).
Qed.

Lemma getByUid_in u table r :
  UserSubscription.getByUid u table = Some r ->
  In r table /\ UserSubscription.uid r = Some u.
Proof.
  unfold UserSubscription.getByUid. intros H. apply latest_in in H.
  apply filter_In in H. destruct H as [Hin Hu]. split; [assumption |].
  unfold col_eq in Hu. destruct (UserSubscription.uid r) as [u' |]; [| discriminate].
  apply String.eqb_eq in Hu. now subst.
Qed.

Lemma getByDeviceId_in dev table r :
  UserSubscription.getByDeviceId dev table = Some r ->
  In r table /\ UserSubscription.deviceId r = Some dev.
Proof.
  unfold UserSubscription.getByDeviceId. intros H. apply latest_in in H.
  apply filter_In in H. destruct H as [Hin Hu]. split; [assumption |].
  unfold col_eq in Hu.
  destruct (UserSubscription.deviceId r) as [d' |]; [| discriminate].
  apply String.eqb_eq in Hu. now subst.
Qed.

(** Under the primary key, a row is the only one with its id. *)
Lemma subscription_unique_id table r :
  NoDup (map UserSubscription.id table) -> In r table ->
  filter (UserSubscription.has_id (UserSubscription.id r)) table = [r].
Proof.
  induction table as [| x table IH]; simpl; [contradiction |].
  intros Hnd Hin. inversion Hnd as [| ? ? Hnotin Hnd']; subst.
  unfold UserSubscription.has_id at 1. destruct Hin as [-> | Hin].
  - rewrite String.eqb_refl. f_equal.
    apply filter_nil_of_existsb.
    destruct (existsb (UserSubscription.has_id (UserSubscription.id r)) table)
      eqn:E; [| reflexivity].
    apply existsb_exists in E. destruct E as (y & Hy & Ey).
    apply String.eqb_eq in Ey. exfalso. apply Hnotin. rewrite <- Ey.
    now apply in_map.
  - destruct (String.eqb_spec (UserSubscription.id x) (UserSubscription.id r))
      as [E | E].
    + exfalso. apply Hnotin. rewrite E. now apply in_map.
    + now apply IH.
Qed.

Lemma update_ok this d now table :
  NoDup (map UserSubscription.id table) -> In this table ->
  exists this', fst (UserSubscription.update this d now table) = Ok this'.
Proof.
  intros Hnd Hin. apply update_ok_iff. exists this.
  now rewrite subscription_unique_id.
Qed.

(** The record that check-subscription locates is the one that the
    checkout handler updates. *)
Lemma checkout_updates_current session now uuid s r :
  Paywall.current_subscription (Webhooks.metadata_uid session)
    (Webhooks.metadata_guest_id session) s = Some r ->
  Webhooks.handleCheckoutSessionCompleted session now uuid s =
  Webhooks.after_update s
    (UserSubscription.update r (Webhooks.checkout_update session) now
                             (user_subscriptions s)).
Proof.
  unfold Paywall.current_subscription, Webhooks.handleCheckoutSessionCompleted.
  destruct (truthy (Webhooks.metadata_uid session)); simpl.
  - now intros ->.
  - destruct (truthy (Webhooks.metadata_guest_id session)); simpl;
      [| discriminate].
    destruct (Device.getById _ (devices s)); [| discriminate].
    now intros ->.
Qed.

Lemma current_subscription_update_rows uid guest_id s i d now :
  UserSubscription.u_uid d = None ->
  Paywall.current_subscription uid guest_id
    (with_user_subscriptions s
       (UserSubscription.update_rows i d now (user_subscriptions s))) =
  option_map (patched i d now) (Paywall.current_subscription uid guest_id s).
Proof.
  intros Hd. unfold Paywall.current_subscription. simpl.
  destruct (truthy uid); [now apply getByUid_update_rows |].
  destruct (truthy guest_id); [| reflexivity].
  destruct (Device.getById _ (devices s)); [| reflexivity].
  apply getByDeviceId_update_rows.
Qed.

Lemma current_subscription_in uid guest_id s r :
  Paywall.current_subscription uid guest_id s = Some r ->
  In r (user_subscriptions s).
Proof.
  unfold Paywall.current_subscription.
  destruct (truthy uid); [intros H; now apply getByUid_in in H |].
  destruct (truthy guest_id); [| discriminate].
  destruct (Device.getById _ (devices s)); [| discriminate].
  intros H. now apply getByDeviceId_in in H.
Qed.

(** *** The primary key of the entitlement table holds in every reachable
    store *)

Lemma subscriptions_step_ids t t' :
  subscriptions_step t t' ->
  NoDup (map UserSubscription.id t) -> NoDup (map UserSubscription.id t').
Proof.
  intros [-> | [(i & d & now & ->) | (ins & uuid & now & r & Hc)]] Hnd.
  - assumption.
  - rewrite update_rows_map, map_map.
    erewrite map_ext; [eassumption |]. intros x. apply patched_id.
  - apply create_spec in Hc. destruct Hc as (-> & Hfresh & ->).
    rewrite map_app. simpl. apply NoDup_snoc; [assumption |].
    intros Hin. apply in_map_iff in Hin. destruct Hin as (x & Ex & Hx).
    assert (existsb (UserSubscription.has_id uuid) t = true).
    { apply existsb_exists. exists x. split; [assumption |].
      unfold UserSubscription.has_id. now apply String.eqb_eq. }
    congruence.
Qed.

Lemma update_step this d now t :
  subscriptions_step t (snd (UserSubscription.update this d now t)).
Proof. right. left. rewrite update_table. eauto. Qed.

Lemma create_step ins uuid now t :
  subscriptions_step t
    match UserSubscription.create ins uuid now t with
    | Ok (_, t') => t'
    | Throw _ => t
    end.
Proof.
  destruct (UserSubscription.create ins uuid now t) as [[r t'] | e] eqn:E.
  - right. right. eauto 6.
  - now left.
Qed.

Lemma after_update_step s this d now :
  subscriptions_step (user_subscriptions s)
    (user_subscriptions
       (snd (Webhooks.after_update s
               (UserSubscription.update this d now (user_subscriptions s))))).
Proof. rewrite after_update_store. simpl. apply update_step. Qed.

Lemma after_create_step s ins uuid now :
  subscriptions_step (user_subscriptions s)
    (user_subscriptions
       (snd (Webhooks.after_create s
               (UserSubscription.create ins uuid now (user_subscriptions s))))).
Proof.
  pose proof (create_step ins uuid now (user_subscriptions s)) as H.
  now destruct (UserSubscription.create ins uuid now (user_subscriptions s))
    as [[r t'] | e].
Qed.

Lemma subscriptions_step_refl t : subscriptions_step t t.
Proof. now left. Qed.

Lemma dispatch_subscriptions_step event now uuid s :
  subscriptions_step (user_subscriptions s)
    (user_subscriptions (snd (Webhooks.dispatch event now uuid s))).
Proof.
  destruct event as [session | invoice | invoice | sub | sub | sub | ty]; simpl.
  - unfold Webhooks.handleCheckoutSessionCompleted.
    destruct (negb (truthy (Webhooks.metadata_uid session))
              && negb (truthy (Webhooks.metadata_guest_id session)));
      [apply subscriptions_step_refl |].
    destruct (truthy (Webhooks.metadata_uid session)).
    + destruct (UserSubscription.getByUid _ _);
        [apply after_update_step | apply after_create_step].
    + destruct (truthy (Webhooks.metadata_guest_id session));
        [| apply subscriptions_step_refl].
      destruct (Device.getById _ _); [| apply subscriptions_step_refl].
      destruct (UserSubscription.getByDeviceId _ _);
        [apply after_update_step | apply after_create_step].
  - unfold Webhooks.handleInvoicePaymentSucceeded, Webhooks.force_status.
    destruct (negb (truthy (Webhooks.invoice_subscription invoice)));
      [apply subscriptions_step_refl |].
    destruct (UserSubscription.getByStripeSubscriptionId _ _);
      [apply after_update_step | apply subscriptions_step_refl].
  - unfold Webhooks.handleInvoicePaymentFailed, Webhooks.force_status.
    destruct (negb (truthy (Webhooks.invoice_subscription invoice)));
      [apply subscriptions_step_refl |].
    destruct (UserSubscription.getByStripeSubscriptionId _ _);
      [apply after_update_step | apply subscriptions_step_refl].
  - rewrite handleSubscriptionCreated_store. apply subscriptions_step_refl.
  - unfold Webhooks.handleSubscriptionUpdated.
    destruct (UserSubscription.getByStripeSubscriptionId _ _);
      [apply after_update_step | apply subscriptions_step_refl].
  - unfold Webhooks.handleSubscriptionDeleted, Webhooks.force_status.
    destruct (UserSubscription.getByStripeSubscriptionId _ _);
      [apply after_update_step | apply subscriptions_step_refl].
  - apply subscriptions_step_refl.
Qed.

Lemma serve_subscriptions_step env req now s :
  subscriptions_step (user_subscriptions s)
    (user_subscriptions (Service.serve env req now s)).
Proof.
  destruct req as [d ud us | u g | u | k g t u us | g u us | v u | a p c o dr | a k
                  | lk0];
    simpl; try apply subscriptions_step_refl.
  - unfold Paywall.startGuestTrial.
    destruct (negb (Paywall.valid_text d)); [apply subscriptions_step_refl |].
    destruct (Device.getByDeviceId _ _ _); [apply subscriptions_step_refl |].
    destruct (Device.create _ _ _ _ _) as [[device devices'] | e];
      [| apply subscriptions_step_refl].
    pose proof (create_step
                  (UserSubscription.mkInsert None (Some (Device.id device))
                     None None None "trial"
                     (Device.trialStart device) (Device.trialEnd device))
                  us now (user_subscriptions s)) as H.
    simpl.
    now destruct (UserSubscription.create _ us now (user_subscriptions s))
      as [[r t'] | e].
  - unfold Paywall.redeemLicense.
    destruct (Paywall.redeemLicenseSchema _ _ _ _); [apply subscriptions_step_refl |].
    destruct (LicenseKey.getByKey _ _ _) as [lk |]; [| apply subscriptions_step_refl].
    destruct (negb (LicenseKey.isValidForRedemption lk now));
      [apply subscriptions_step_refl |].
    destruct (Paywall.choose_binding u g s) as [response | [bu bd]];
      [apply subscriptions_step_refl |].
    destruct (LicenseKey.redeem lk bu bd now (license_keys s))
      as [[lk' | e] keys']; [| apply subscriptions_step_refl].
    pose proof (create_step (Paywall.license_insert lk' bu bd) us now
                            (user_subscriptions s)) as H.
    simpl.
    now destruct (UserSubscription.create _ us now (user_subscriptions s))
      as [[r t'] | e].
  - unfold Paywall.linkGuest.
    destruct (Device.getById _ _) as [device |]; [| apply subscriptions_step_refl].
    destruct (truthy (Device.linkedUid device)); [apply subscriptions_step_refl |].
    destruct (Device.linkToUid _ _ _) as [[device' | e] devices'];
      [| apply subscriptions_step_refl].
    simpl.
    destruct (UserSubscription.getByUid u (user_subscriptions s))
      as [subscription |].
    + destruct (is_null _ && negb _); [| apply subscriptions_step_refl].
      pose proof (update_step subscription
                    (UserSubscription.mkUpdate None None None None
                       (Some (Device.subscriptionStatus device'))
                       (Some (Device.trialStart device'))
                       (Some (Device.trialEnd device')))
                    now (user_subscriptions s)) as H.
      now destruct (UserSubscription.update subscription _ now (user_subscriptions s))
        as [[r | e] t'].
    + pose proof (create_step
                    (UserSubscription.mkInsert (Some u) None None None None
                       (Device.subscriptionStatus device')
                       (Device.trialStart device') (Device.trialEnd device'))
                    us now (user_subscriptions s)) as H.
      now destruct (UserSubscription.create _ us now (user_subscriptions s))
        as [[r t'] | e].
  - unfold Webhooks.stripe. destruct v as [event |]; [| apply subscriptions_step_refl].
    pose proof (dispatch_subscriptions_step event now u s) as H.
    now destruct (Webhooks.dispatch event now u s) as [[[] | e] s'].
  - unfold Admin.generateLicenseKeys.
    destruct (negb (Admin.adminAuth env a)); [apply subscriptions_step_refl |].
    destruct (Nat.ltb c 1 || Nat.ltb 1000 c); [apply subscriptions_step_refl |].
    destruct (StripePlan.getByPlanKey p (stripe_plans s));
      [| apply subscriptions_step_refl].
    destruct (LicenseKey.createMultiple env p c o dr now (license_keys s))
      as [[[ks ps] | e] keys']; apply subscriptions_step_refl.
  - unfold Admin.revokeLicense.
    destruct (negb (Admin.adminAuth env a)); [apply subscriptions_step_refl |].
    destruct (negb (truthy k)); [apply subscriptions_step_refl |].
    destruct (LicenseKey.getByKey _ _ _) as [lk |]; [| apply subscriptions_step_refl].
    destruct (LicenseKey.revoke lk now (license_keys s)) as [[lk' | e] keys'];
      apply subscriptions_step_refl.
Qed.

Lemma reachable_subscription_ids env plans s :
  Service.reachable env plans s ->
  NoDup (map UserSubscription.id (user_subscriptions s)).
Proof.
  induction 1 as [| s req now _ IH]; simpl; [constructor |].
  eapply subscriptions_step_ids; [apply serve_subscriptions_step | exact IH].
Qed.

(** C5.  For every identity whose current entitlement record is in a
    running trial, a checkout-completed event for that identity sets the
    record to [active] and leaves [trial_start] and [trial_end] as they
    were; check-subscription afterwards reports the original [trial_start]
    and [trial_end].  In every store the service can reach the handler does
    not throw. *)
Theorem checkout_during_trial_keeps_trial_window :
  forall (session : Webhooks.Session) (now : Z) (uuid : string) (s : Store)
         (r : UserSubscription.t),
    let uid := Webhooks.metadata_uid session in
    let guest_id := Webhooks.metadata_guest_id session in
    Paywall.current_subscription uid guest_id s = Some r ->
    UserSubscription.isTrial r now = true ->
    let s' := snd (Webhooks.handleCheckoutSessionCompleted session now uuid s) in
    exists r',
      Paywall.current_subscription uid guest_id s' = Some r' /\
      UserSubscription.id r' = UserSubscription.id r /\
      UserSubscription.status r' = "active" /\
      UserSubscription.trialStart r' = UserSubscription.trialStart r /\
      UserSubscription.trialEnd r' = UserSubscription.trialEnd r /\
      (exists trial_end,
          UserSubscription.trialEnd r' = Some trial_end /\ now < trial_end) /\
      (forall later,
          exists body,
            Paywall.checkSubscription uid guest_id later s' = Paywall.CheckOk body /\
            Paywall.c_status body = "active" /\
            Paywall.c_trialStart body = UserSubscription.trialStart r /\
            Paywall.c_trialEnd body = UserSubscription.trialEnd r) /\
      List.length (user_subscriptions s') = List.length (user_subscriptions s) /\
      (forall env plans,
          Service.reachable env plans s ->
          fst (Webhooks.handleCheckoutSessionCompleted session now uuid s) = Ok tt).
Proof.
  intros session now uuid s r uid guest_id Hcur Htrial s'.
  apply isTrial_true_iff in Htrial. destruct Htrial as (_ & te & Hte & Hlt).
  assert (Hs' : s' = with_user_subscriptions s
                       (UserSubscription.update_rows (UserSubscription.id r)
                          (Webhooks.checkout_update session) now
                          (user_subscriptions s))).
  { unfold s'. rewrite (checkout_updates_current _ _ _ _ _ Hcur).
    now rewrite after_update_store, update_table. }
  assert (Hcur' : Paywall.current_subscription uid guest_id s' =
                  Some (UserSubscription.apply_update
                          (Webhooks.checkout_update session) now r)).
  { rewrite Hs', current_subscription_update_rows by reflexivity.
    rewrite Hcur. simpl. now rewrite patched_self. }
  exists (UserSubscription.apply_update (Webhooks.checkout_update session) now r).
  split; [assumption |]. repeat split.
  - exists te. split; [exact Hte | exact Hlt].
  - intros later. unfold Paywall.checkSubscription. rewrite Hcur'.
    exists (Paywall.check_of
              (UserSubscription.apply_update (Webhooks.checkout_update session) now r)
              later s').
    unfold Paywall.current_subscription in Hcur.
    fold uid guest_id in Hcur.
    destruct (truthy uid); simpl; [repeat split |].
    destruct (truthy guest_id); simpl; [repeat split | discriminate].
  - rewrite Hs'. simpl. apply update_rows_length.
  - intros env plans Hreach.
    pose proof (reachable_subscription_ids env plans s Hreach) as Hnd.
    rewrite (checkout_updates_current _ _ _ _ _ Hcur).
    rewrite after_update_result.
    destruct (update_ok r (Webhooks.checkout_update session) now
                (user_subscriptions s) Hnd
                (current_subscription_in _ _ _ _ Hcur)) as [this' ->].
    reflexivity.
Qed.

(** ** The billing event processor: replayed events *)

Lemma assign_twice {A : Type} (new : option A) (old : A) :
  UserSubscription.assign new (UserSubscription.assign new old) =
  UserSubscription.assign new old.
Proof. now destruct new. Qed.

Lemma apply_update_twice d now1 now2 r :
  forget_updated_at
    (UserSubscription.apply_update d now2 (UserSubscription.apply_update d now1 r)) =
  forget_updated_at (UserSubscription.apply_update d now1 r).
Proof.
  unfold forget_updated_at, UserSubscription.apply_update. simpl.
  now rewrite !assign_twice.
Qed.

Lemma update_rows_twice i d now1 now2 table :
  map forget_updated_at
    (UserSubscription.update_rows i d now2
       (UserSubscription.update_rows i d now1 table)) =
  map forget_updated_at (UserSubscription.update_rows i d now1 table).
Proof.
  rewrite !update_rows_map, !map_map. apply map_ext. intros x.
  unfold patched at 1. rewrite patched_has_id. unfold patched.
  destruct (UserSubscription.has_id i x); [| reflexivity].
  apply apply_update_twice.
Qed.

Lemma update_result_ok this d now table :
  (exists r, single (filter (UserSubscription.has_id (UserSubscription.id this))
                            table) = Some r) ->
  exists this', fst (UserSubscription.update this d now table) = Ok this'.
Proof. intros H. now apply update_ok_iff. Qed.

(** A replayed locate-and-update finds the updated record and writes the
    same values again. *)
Lemma locate_update_replay locate d now1 now2 s s1 :
  (forall i now table,
      locate (UserSubscription.update_rows i d now table) =
      option_map (patched i d now) (locate table)) ->
  locate_update locate d now1 s = (Ok tt, s1) ->
  exists s2,
    locate_update locate d now2 s1 = (Ok tt, s2) /\ same_entitlements s2 s1.
Proof.
  intros Hloc. unfold locate_update.
  destruct (locate (user_subscriptions s)) as [r |] eqn:Hr.
  - intros H1.
    pose proof (f_equal snd H1) as Hs1. pose proof (f_equal fst H1) as Hok.
    rewrite after_update_store, update_table in Hs1. simpl in Hs1.
    rewrite after_update_result in Hok. simpl in Hok.
    assert (Hsingle : exists r0,
               single (filter (UserSubscription.has_id (UserSubscription.id r))
                              (user_subscriptions s)) = Some r0).
    { apply (update_ok_iff r d now1).
      destruct (fst (UserSubscription.update r d now1 (user_subscriptions s)));
        [eauto | discriminate]. }
    subst s1. cbn [user_subscriptions with_user_subscriptions].
    rewrite Hloc, Hr. simpl.
    set (r1 := patched (UserSubscription.id r) d now1 r).
    set (t1 := UserSubscription.update_rows (UserSubscription.id r) d now1
                 (user_subscriptions s)).
    assert (Hid : UserSubscription.id r1 = UserSubscription.id r)
      by apply patched_id.
    destruct (update_result_ok r1 d now2 t1) as [this' Hthis].
    { rewrite Hid. unfold t1. rewrite update_rows_map, filter_map_commute
        by (intros x; apply patched_has_id).
      rewrite single_map. destruct Hsingle as [r0 ->]. simpl. eauto. }
    eexists. split.
    + apply injective_projections.
      * rewrite after_update_result, Hthis. reflexivity.
      * rewrite after_update_store. reflexivity.
    + rewrite update_table, Hid. repeat split. simpl.
      apply update_rows_twice.
  - intros [= <-]. rewrite Hr. exists s. repeat split.
Qed.

Lemma locate_update_frame locate d now s o s1 :
  locate_update locate d now s = (o, s1) ->
  devices s1 = devices s /\ stripe_plans s1 = stripe_plans s /\
  license_keys s1 = license_keys s.
Proof.
  unfold locate_update. destruct (locate (user_subscriptions s)) as [r |].
  - intros H. pose proof (f_equal snd H) as Hs. rewrite after_update_store in Hs.
    simpl in Hs. subst s1. auto.
  - intros [= _ <-]. auto.
Qed.

Lemma locate_update_found locate d now s o s1 r :
  (forall i now table,
      locate (UserSubscription.update_rows i d now table) =
      option_map (patched i d now) (locate table)) ->
  locate_update locate d now s = (o, s1) ->
  locate (user_subscriptions s) = Some r ->
  user_subscriptions s1 =
    UserSubscription.update_rows (UserSubscription.id r) d now (user_subscriptions s) /\
  locate (user_subscriptions s1) = Some (UserSubscription.apply_update d now r).
Proof.
  intros Hloc H Hr. unfold locate_update in H. rewrite Hr in H.
  pose proof (f_equal snd H) as Hs. rewrite after_update_store, update_table in Hs.
  simpl in Hs. subst s1. simpl. split; [reflexivity |].
  rewrite Hloc, Hr. simpl. now rewrite patched_self.
Qed.

(** A replayed checkout whose first delivery created the record: the second
    delivery finds that record and writes the values it already has. *)
Lemma checkout_create_replay (p : UserSubscription.t -> bool) session u dev
      uuid now1 now2 table r table1 :
  UserSubscription.latest (filter p table) = None ->
  UserSubscription.create (Webhooks.checkout_insert session u dev) uuid now1 table =
    Ok (r, table1) ->
  p r = true ->
  UserSubscription.latest (filter p table1) = Some r /\
  (exists this',
      fst (UserSubscription.update r (Webhooks.checkout_update session) now2 table1) =
      Ok this') /\
  map forget_updated_at
    (snd (UserSubscription.update r (Webhooks.checkout_update session) now2 table1)) =
  map forget_updated_at table1.
Proof.
  intros Hnone Hcreate Hp. apply create_spec in Hcreate.
  destruct Hcreate as (-> & Hfresh & Hr).
  apply latest_none in Hnone.
  assert (Hid : UserSubscription.id r = uuid) by now rewrite Hr.
  assert (Hrows : UserSubscription.update_rows (UserSubscription.id r)
                    (Webhooks.checkout_update session) now2 (table ++ [r]) =
                  table ++ [UserSubscription.apply_update
                              (Webhooks.checkout_update session) now2 r]).
  { unfold UserSubscription.update_rows. rewrite map_app, Hid. simpl.
    rewrite (map_id_of_existsb (UserSubscription.has_id uuid)) by assumption.
    unfold UserSubscription.has_id. now rewrite Hid, String.eqb_refl. }
  split; [| split].
  - rewrite filter_app, Hnone. simpl. now rewrite Hp.
  - apply update_result_ok. rewrite filter_app, Hid.
    rewrite (filter_nil_of_existsb _ _ Hfresh). simpl.
    unfold UserSubscription.has_id. rewrite Hid, String.eqb_refl. simpl. eauto.
  - rewrite update_table, Hrows, !map_app. f_equal. simpl. f_equal.
    rewrite Hr. reflexivity.
Qed.

Lemma stripe_received event now uuid s s1 :
  Webhooks.stripe (Some event) now uuid s = (Webhooks.Received, s1) <->
  Webhooks.dispatch event now uuid s = (Ok tt, s1).
Proof.
  unfold Webhooks.stripe.
  destruct (Webhooks.dispatch event now uuid s) as [[[] | e] s']; split;
    congruence.
Qed.

Lemma getByUid_locates u d :
  UserSubscription.u_uid d = None ->
  forall i now table,
    UserSubscription.getByUid u (UserSubscription.update_rows i d now table) =
    option_map (patched i d now) (UserSubscription.getByUid u table).
Proof. intros Hd i now table. now apply getByUid_update_rows. Qed.

Lemma after_create_ok s res s1 :
  Webhooks.after_create s res = (Ok tt, s1) ->
  exists r table1, res = Ok (r, table1) /\ s1 = with_user_subscriptions s table1.
Proof.
  destruct res as [[r table1] | e]; simpl; [| discriminate].
  intros [= <-]. eauto.
Qed.

(** The update branch and the create branch of the checkout handler, for a
    record located among the rows that satisfy [p]. *)
Lemma upsert_replay (p : UserSubscription.t -> bool) session u dev
      uuid1 uuid2 now1 now2 s s1 :
  (forall x now i,
      p (patched i (Webhooks.checkout_update session) now x) = p x) ->
  (forall r table1,
      UserSubscription.create (Webhooks.checkout_insert session u dev) uuid1 now1
        (user_subscriptions s) = Ok (r, table1) -> p r = true) ->
  match UserSubscription.latest (filter p (user_subscriptions s)) with
  | Some subscription =>
      Webhooks.after_update s
        (UserSubscription.update subscription (Webhooks.checkout_update session)
           now1 (user_subscriptions s))
  | None =>
      Webhooks.after_create s
        (UserSubscription.create (Webhooks.checkout_insert session u dev)
           uuid1 now1 (user_subscriptions s))
  end = (Ok tt, s1) ->
  exists s2,
    match UserSubscription.latest (filter p (user_subscriptions s1)) with
    | Some subscription =>
        Webhooks.after_update s1
          (UserSubscription.update subscription (Webhooks.checkout_update session)
             now2 (user_subscriptions s1))
    | None =>
        Webhooks.after_create s1
          (UserSubscription.create (Webhooks.checkout_insert session u dev)
             uuid2 now2 (user_subscriptions s1))
    end = (Ok tt, s2) /\
    same_entitlements s2 s1 /\ devices s1 = devices s.
Proof.
  intros Hp Hnew.
  set (locate := fun table => UserSubscription.latest (filter p table)).
  assert (Hloc : forall i now table,
             locate (UserSubscription.update_rows i
                       (Webhooks.checkout_update session) now table) =
             option_map (patched i (Webhooks.checkout_update session) now)
                        (locate table)).
  { intros i now table. unfold locate.
    rewrite update_rows_map, filter_map_commute, latest_map; [reflexivity | |].
    - intros x. apply patched_createdAt.
    - intros x. apply Hp. }
  destruct (UserSubscription.latest (filter p (user_subscriptions s)))
    as [r |] eqn:Hr.
  - intros H1.
    assert (H1' : locate_update locate (Webhooks.checkout_update session) now1 s =
                  (Ok tt, s1)).
    { unfold locate_update, locate. now rewrite Hr. }
    destruct (locate_update_replay locate _ now1 now2 s s1 Hloc H1')
      as (s2 & H2 & Hsame).
    destruct (locate_update_found locate _ now1 s _ s1 r Hloc H1' Hr) as [_ Hr1].
    destruct (locate_update_frame _ _ _ _ _ _ H1') as (Hdev & _).
    exists s2. unfold locate_update, locate in H2, Hr1. rewrite Hr1 in *. auto.
  - intros H1. apply after_create_ok in H1.
    destruct H1 as (r & table1 & Hcreate & ->). simpl.
    destruct (checkout_create_replay p session u dev uuid1 now1 now2 _ r table1
                Hr Hcreate (Hnew _ _ Hcreate)) as (Hfound & [this' Hok] & Hforget).
    rewrite Hfound. eexists. split; [| split].
    + apply injective_projections.
      * rewrite after_update_result, Hok. reflexivity.
      * rewrite after_update_store. reflexivity.
    + repeat split. exact Hforget.
    + reflexivity.
Qed.

Lemma same_entitlements_refl s : same_entitlements s s.
Proof. repeat split. Qed.

Lemma getByStripeSubscriptionId_locates sid st :
  forall i now table,
    UserSubscription.getByStripeSubscriptionId sid
      (UserSubscription.update_rows i (status_update st) now table) =
    option_map (patched i (status_update st) now)
      (UserSubscription.getByStripeSubscriptionId sid table).
Proof. intros. now apply getByStripeSubscriptionId_update_rows. Qed.

Lemma force_status_replay sid st now1 now2 s s1 :
  Webhooks.force_status sid st now1 s = (Ok tt, s1) ->
  exists s2,
    Webhooks.force_status sid st now2 s1 = (Ok tt, s2) /\ same_entitlements s2 s1.
Proof.
  apply (locate_update_replay (UserSubscription.getByStripeSubscriptionId sid)
           (status_update st) now1 now2 s s1).
  apply getByStripeSubscriptionId_locates.
Qed.

Lemma checkout_replay session now1 now2 uuid1 uuid2 s s1 :
  Webhooks.handleCheckoutSessionCompleted session now1 uuid1 s = (Ok tt, s1) ->
  exists s2,
    Webhooks.handleCheckoutSessionCompleted session now2 uuid2 s1 = (Ok tt, s2) /\
    same_entitlements s2 s1.
Proof.
  unfold Webhooks.handleCheckoutSessionCompleted.
  destruct (negb (truthy (Webhooks.metadata_uid session))
            && negb (truthy (Webhooks.metadata_guest_id session))).
  { intros [= <-]. exists s. split; [reflexivity | apply same_entitlements_refl]. }
  destruct (truthy (Webhooks.metadata_uid session)).
  - set (u := or_default (Webhooks.metadata_uid session) "").
    intros H.
    destruct (upsert_replay (fun r => col_eq (UserSubscription.uid r) u)
                session (Some u) None uuid1 uuid2 now1 now2 s s1)
      as (s2 & H2 & Hsame & _).
    + intros x now i. unfold patched.
      now destruct (UserSubscription.has_id i x).
    + intros r table1 Hc. apply create_spec in Hc. destruct Hc as (_ & _ & ->).
      simpl. apply String.eqb_refl.
    + exact H.
    + exists s2. split; assumption.
  - destruct (truthy (Webhooks.metadata_guest_id session)).
    2:{ intros [= <-]. exists s. split; [reflexivity | apply same_entitlements_refl]. }
    destruct (Device.getById (or_default (Webhooks.metadata_guest_id session) "")
                             (devices s)) as [device |] eqn:Hdev.
    2:{ intros [= <-]. rewrite Hdev. exists s.
        split; [reflexivity | apply same_entitlements_refl]. }
    intros H.
    destruct (upsert_replay
                (fun r => col_eq (UserSubscription.deviceId r) (Device.id device))
                session None (Some (Device.id device)) uuid1 uuid2 now1 now2 s s1)
      as (s2 & H2 & Hsame & Hdevices).
    + intros x now i. unfold patched.
      now destruct (UserSubscription.has_id i x).
    + intros r table1 Hc. apply create_spec in Hc. destruct Hc as (_ & _ & ->).
      simpl. apply String.eqb_refl.
    + exact H.
    + exists s2. rewrite Hdevices, Hdev. split; assumption.
Qed.

Lemma created_replay sub now1 now2 s s1 :
  Webhooks.handleSubscriptionCreated sub now1 s = (Ok tt, s1) ->
  exists s2,
    Webhooks.handleSubscriptionCreated sub now2 s1 = (Ok tt, s2) /\
    same_entitlements s2 s1.
Proof.
  intros H. apply handleSubscriptionCreated_ok in H. destruct H as [Hp ->].
  exists s. split; [| apply same_entitlements_refl].
  unfold Webhooks.handleSubscriptionCreated. now rewrite Hp.
Qed.

Lemma dispatch_replay event now1 now2 uuid1 uuid2 s s1 :
  Webhooks.dispatch event now1 uuid1 s = (Ok tt, s1) ->
  exists s2,
    Webhooks.dispatch event now2 uuid2 s1 = (Ok tt, s2) /\ same_entitlements s2 s1.
Proof.
  destruct event as [session | invoice | invoice | sub | sub | sub | ty]; simpl.
  - apply checkout_replay.
  - unfold Webhooks.handleInvoicePaymentSucceeded.
    destruct (negb (truthy (Webhooks.invoice_subscription invoice))).
    + intros [= <-]. exists s. split; [reflexivity | apply same_entitlements_refl].
    + apply force_status_replay.
  - unfold Webhooks.handleInvoicePaymentFailed.
    destruct (negb (truthy (Webhooks.invoice_subscription invoice))).
    + intros [= <-]. exists s. split; [reflexivity | apply same_entitlements_refl].
    + apply force_status_replay.
  - apply created_replay.
  - apply (locate_update_replay
             (UserSubscription.getByStripeSubscriptionId (Webhooks.subscription_id sub))
             (status_update (Webhooks.mappedStatus (Webhooks.subscription_status sub)))
             now1 now2 s s1).
    apply getByStripeSubscriptionId_locates.
  - apply force_status_replay.
  - intros [= <-]. exists s. split; [reflexivity | apply same_entitlements_refl].
Qed.

Lemma same_entitlements_length s2 s1 :
  same_entitlements s2 s1 ->
  List.length (user_subscriptions s2) = List.length (user_subscriptions s1).
Proof.
  intros (_ & _ & _ & H). apply (f_equal (@List.length _)) in H.
  now rewrite !List.length_map in H.
Qed.

Lemma forget_updated_at_createdAt r :
  UserSubscription.createdAt (forget_updated_at r) = UserSubscription.createdAt r.
Proof. reflexivity. Qed.

Lemma latest_filter_forget (p : UserSubscription.t -> bool) table :
  (forall x, p (forget_updated_at x) = p x) ->
  UserSubscription.latest (filter p (map forget_updated_at table)) =
  option_map forget_updated_at (UserSubscription.latest (filter p table)).
Proof.
  intros Hp. rewrite filter_map_commute by assumption.
  apply latest_map. intros x. apply forget_updated_at_createdAt.
Qed.

Lemma view_of_forget r now s s' :
  stripe_plans s = stripe_plans s' ->
  Paywall.view_of r now s = Paywall.view_of (forget_updated_at r) now s'.
Proof.
  intros Hplans. unfold Paywall.view_of, Paywall.plan_of. now rewrite Hplans.
Qed.

Lemma check_of_forget r now s s' :
  stripe_plans s = stripe_plans s' ->
  Paywall.check_of r now s = Paywall.check_of (forget_updated_at r) now s'.
Proof.
  intros Hplans. unfold Paywall.check_of, Paywall.plan_of. now rewrite Hplans.
Qed.

(** What the two read routes send does not depend on [updated_at]. *)
Lemma same_entitlements_observed s2 s1 :
  same_entitlements s2 s1 ->
  (forall uid guest_id now,
      Paywall.checkSubscription uid guest_id now s2 =
      Paywall.checkSubscription uid guest_id now s1) /\
  (forall uid now, Paywall.mySubscription uid now s2 = Paywall.mySubscription uid now s1).
Proof.
  intros (Hdev & _ & Hplans & Hsubs).
  assert (Hlatest : forall p,
             (forall x, p (forget_updated_at x) = p x) ->
             option_map forget_updated_at
               (UserSubscription.latest (filter p (user_subscriptions s2))) =
             option_map forget_updated_at
               (UserSubscription.latest (filter p (user_subscriptions s1)))).
  { intros p Hp. now rewrite <- !latest_filter_forget, Hsubs by assumption. }
  assert (Hview : forall o2 o1 now,
             option_map forget_updated_at o2 = option_map forget_updated_at o1 ->
             match o2 with
             | Some sub => Paywall.view_of sub now s2
             | None => Paywall.view_none
             end =
             match o1 with
             | Some sub => Paywall.view_of sub now s1
             | None => Paywall.view_none
             end).
  { intros [r2 |] [r1 |] now; simpl; try discriminate; [| reflexivity].
    intros E.
    apply (f_equal (fun o => match o with
                             | Some x => x
                             | None => forget_updated_at r1
                             end)) in E.
    cbv beta iota in E.
    rewrite (view_of_forget r2 now s2 s1 Hplans), E.
    symmetry. now apply view_of_forget. }
  split.
  - intros uid guest_id now. unfold Paywall.checkSubscription.
    destruct (negb (truthy uid) && negb (truthy guest_id)); [reflexivity |].
    assert (Hcur : option_map forget_updated_at
                     (Paywall.current_subscription uid guest_id s2) =
                   option_map forget_updated_at
                     (Paywall.current_subscription uid guest_id s1)).
    { unfold Paywall.current_subscription. rewrite Hdev.
      destruct (truthy uid); [now apply Hlatest |].
      destruct (truthy guest_id); [| reflexivity].
      destruct (Device.getById _ (devices s1)); [| reflexivity].
      now apply Hlatest. }
    destruct (Paywall.current_subscription uid guest_id s2) as [r2 |],
             (Paywall.current_subscription uid guest_id s1) as [r1 |];
      simpl in Hcur; try discriminate; [| reflexivity].
    apply (f_equal (fun o => match o with
                             | Some x => x
                             | None => forget_updated_at r1
                             end)) in Hcur.
    cbv beta iota in Hcur. f_equal.
    rewrite (check_of_forget r2 now s2 s1 Hplans), Hcur.
    symmetry. now apply check_of_forget.
  - intros uid now. unfold Paywall.mySubscription.
    apply Hview. unfold UserSubscription.getByUid. now apply Hlatest.
Qed.

(** C4, as stated, fails: the replay of a checkout-completed event, one
    second after its first delivery, leaves a store that is not the store
    the first delivery left.  The record of the account is the same in
    every column but [updated_at], which the replay moves from 2000 to
    3000. *)
Lemma replay_moves_updated_at :
  let once := sample_after_checkout in
  let twice := snd (Webhooks.stripe (Some sample_checkout) 3000 "row-2" once) in
  twice <> once /\
  map UserSubscription.updatedAt (user_subscriptions once) = [2000] /\
  map UserSubscription.updatedAt (user_subscriptions twice) = [3000] /\
  map forget_updated_at (user_subscriptions twice) =
  map forget_updated_at (user_subscriptions once).
Proof. repeat split. discriminate. Qed.

(** C4 (amended).  For every billing event whose first delivery was
    processed (answered with [received]), processing the identical event
    again is processed too and leaves the store as the first delivery left
    it but for [updated_at]: the same devices, license keys and plans, and
    the same entitlement records in every column but the [updated_at] stamp
    of the database trigger, so that check-subscription answers every query
    as before the replay.  In particular no record is added by the replay,
    and after a subscription-updated event with status [canceled] has been
    delivered twice, the one record with that subscription id is in status
    [canceled]. *)
Theorem replayed_billing_event_changes_nothing :
  forall (event : Webhooks.Event) (now1 now2 : Z) (uuid1 uuid2 : string)
         (s s1 : Store),
    Webhooks.stripe (Some event) now1 uuid1 s = (Webhooks.Received, s1) ->
    exists s2,
      Webhooks.stripe (Some event) now2 uuid2 s1 = (Webhooks.Received, s2) /\
      same_entitlements s2 s1 /\
      (forall uid guest_id later,
          Paywall.checkSubscription uid guest_id later s2 =
          Paywall.checkSubscription uid guest_id later s1) /\
      List.length (user_subscriptions s2) = List.length (user_subscriptions s1) /\
      (forall sub r,
          event = Webhooks.CustomerSubscriptionUpdated sub ->
          Webhooks.subscription_status sub = "canceled" ->
          UserSubscription.getByStripeSubscriptionId (Webhooks.subscription_id sub)
            (user_subscriptions s) = Some r ->
          exists r2,
            filter (fun x => col_eq (UserSubscription.stripeSubscriptionId x)
                                    (Webhooks.subscription_id sub))
                   (user_subscriptions s2) = [r2] /\
            UserSubscription.id r2 = UserSubscription.id r /\
            UserSubscription.status r2 = "canceled" /\
            List.length (user_subscriptions s2) = List.length (user_subscriptions s)).
Proof.
  intros event now1 now2 uuid1 uuid2 s s1 H1.
  apply stripe_received in H1.
  destruct (dispatch_replay event now1 now2 uuid1 uuid2 s s1 H1)
    as (s2 & H2 & Hsame).
  exists s2. split; [now apply stripe_received |]. split; [assumption |].
  split; [now apply same_entitlements_observed |].
  split; [now apply same_entitlements_length |].
  intros sub r -> Hst Hr. simpl in H1, H2.
  set (locate := UserSubscription.getByStripeSubscriptionId
                   (Webhooks.subscription_id sub)) in *.
  set (d := status_update (Webhooks.mappedStatus (Webhooks.subscription_status sub))).
  assert (Hloc : forall i now table,
             locate (UserSubscription.update_rows i d now table) =
             option_map (patched i d now) (locate table))
    by apply getByStripeSubscriptionId_locates.
  destruct (locate_update_found locate d now1 s _ s1 r Hloc H1 Hr) as [Hs1 Hr1].
  destruct (locate_update_found locate d now2 s1 _ s2 _ Hloc H2 Hr1) as [Hs2 Hr2].
  exists (UserSubscription.apply_update d now2 (UserSubscription.apply_update d now1 r)).
  split; [now apply single_some |]. split; [reflexivity |]. split.
  - unfold d. simpl. now rewrite Hst.
  - now rewrite Hs2, update_rows_length, Hs1, update_rows_length.
Qed.

(** ** Redemption attempts in flight together *)

(** C9.  The code on two redemptions in flight together.  Two guests post
    the same unredeemed key, each with the id of its own device, and the
    database serves their calls in turn, so that both requests have read
    the key before either updates it.  Both are answered 200 with the plan
    of the key; neither is told "already been redeemed".  The second UPDATE
    overwrites the binding and the [redeemed_at] of the first, and each
    device ends with an active record of the license plan.  Served one
    after the other, the same two requests get one success and one "already
    been redeemed", and one record is added. *)
Theorem racing_redemptions_both_succeed :
  let '(pa, pb, s') :=
    RedeemSteps.interleave sample_env request_of_guest_a request_of_guest_b
      racing_schedule RedeemSteps.AtGetByKey RedeemSteps.AtGetByKey
      sample_guests_store in
  let '(qa, qb, t') :=
    RedeemSteps.interleave sample_env request_of_guest_a request_of_guest_b
      sequential_schedule RedeemSteps.AtGetByKey RedeemSteps.AtGetByKey
      sample_guests_store in
  pa = RedeemSteps.Done
         (Paywall.RedeemOk (LicenseKey.mkPublic "pro_monthly" None None)) /\
  pb = RedeemSteps.Done
         (Paywall.RedeemOk (LicenseKey.mkPublic "pro_monthly" None None)) /\
  map (fun k => (LicenseKey.boundDeviceId k, LicenseKey.redeemedAt k))
      (license_keys s') = [(Some sample_guest_b, Some 1005)] /\
  map (fun r => (UserSubscription.deviceId r, UserSubscription.planId r,
                 UserSubscription.status r))
      (filter UserSubscription.isActive (user_subscriptions s')) =
  [(Some sample_guest_a, Some "license_pro_monthly", "active");
   (Some sample_guest_b, Some "license_pro_monthly", "active")] /\
  qa = RedeemSteps.Done
         (Paywall.RedeemOk (LicenseKey.mkPublic "pro_monthly" None None)) /\
  qb = RedeemSteps.Done
         (Paywall.RedeemBadRequest "License key has already been redeemed") /\
  map (fun k => (LicenseKey.boundDeviceId k, LicenseKey.redeemedAt k))
      (license_keys t') = [(Some sample_guest_a, Some 1002)] /\
  map (fun r => (UserSubscription.deviceId r, UserSubscription.planId r,
                 UserSubscription.status r))
      (filter UserSubscription.isActive (user_subscriptions t')) =
  [(Some sample_guest_a, Some "license_pro_monthly", "active")].
Proof. vm_compute. repeat split. Qed.

Lemma run_is_route env req now s :
  RedeemSteps.run env req now 4 RedeemSteps.AtGetByKey s =
  (RedeemSteps.Done
     (fst (Paywall.redeemLicense env (RedeemSteps.body_key req)
             (RedeemSteps.guest_id req) (RedeemSteps.id_token req)
             (RedeemSteps.uid req) now (RedeemSteps.uuid_subscription req) s)),
   snd (Paywall.redeemLicense env (RedeemSteps.body_key req)
          (RedeemSteps.guest_id req) (RedeemSteps.id_token req)
          (RedeemSteps.uid req) now (RedeemSteps.uuid_subscription req) s)).
Proof.
  destruct req as [k g t u uuid]. unfold Paywall.redeemLicense. simpl.
  destruct (Paywall.redeemLicenseSchema env k g t); [reflexivity |].
  destruct (LicenseKey.getByKey env (or_default k "") (license_keys s))
    as [lk |]; [| reflexivity].
  destruct (negb (LicenseKey.isValidForRedemption lk now)); [reflexivity |].
  unfold Paywall.choose_binding.
  destruct (truthy u).
  - simpl.
    destruct (LicenseKey.redeem lk u None now (license_keys s))
      as [[lk' | e] keys']; [| reflexivity].
    simpl. now destruct (UserSubscription.create _ _ _ _) as [[r subs'] | e].
  - destruct (truthy g); [| reflexivity]. simpl.
    destruct (Device.getById (or_default g "") (devices s)) as [device |];
      [| reflexivity].
    simpl.
    destruct (LicenseKey.redeem lk None (Some (Device.id device)) now
                                (license_keys s))
      as [[lk' | e] keys']; [| reflexivity].
    simpl. now destruct (UserSubscription.create _ _ _ _) as [[r subs'] | e].
Qed.

(** X23.  Served one after the other, redemptions of one key succeed
    once: after a redemption that was answered OK, every later request for
    the same key that passes the schema is answered 400 "License key has
    already been redeemed" and changes nothing, whoever sends it.  A
    request served alone is its database calls in a row (SELECT the key,
    SELECT the device, UPDATE, INSERT).  The check of [redeemed_at] is made
    on the row as the SELECT returned it, and the UPDATE names the row by
    id only: [redeem] on an object read before another redemption was
    stored writes its own binding and time over what the row holds. *)
Theorem sequential_redemptions_succeed_once :
  forall (env : Env) (s : Store),
    (forall body_key guest1 token1 uid1 now1 uuid1 guest2 token2 uid2 now2 uuid2
            body s1,
        Paywall.redeemLicense env body_key guest1 token1 uid1 now1 uuid1 s =
          (Paywall.RedeemOk body, s1) ->
        Paywall.redeemLicenseSchema env body_key guest2 token2 = None ->
        Paywall.redeemLicense env body_key guest2 token2 uid2 now2 uuid2 s1 =
          (Paywall.RedeemBadRequest "License key has already been redeemed", s1)) /\
    (forall req now,
        RedeemSteps.run env req now 4 RedeemSteps.AtGetByKey s =
        (RedeemSteps.Done
           (fst (Paywall.redeemLicense env (RedeemSteps.body_key req)
                   (RedeemSteps.guest_id req) (RedeemSteps.id_token req)
                   (RedeemSteps.uid req) now
                   (RedeemSteps.uuid_subscription req) s)),
         snd (Paywall.redeemLicense env (RedeemSteps.body_key req)
                (RedeemSteps.guest_id req) (RedeemSteps.id_token req)
                (RedeemSteps.uid req) now
                (RedeemSteps.uuid_subscription req) s))) /\
    (forall this boundUid boundDeviceId now row,
        LicenseKey.redeemedAt this = None ->
        LicenseKey.isExpired this now = false ->
        In row (license_keys s) ->
        LicenseKey.id row = LicenseKey.id this ->
        In (LicenseKey.mk (LicenseKey.id row) (LicenseKey.key row)
              (LicenseKey.planId row) (LicenseKey.expiresAt row)
              (LicenseKey.singleUse row) boundUid boundDeviceId (Some now)
              (LicenseKey.createdBy row) (LicenseKey.createdAt row))
           (snd (LicenseKey.redeem this boundUid boundDeviceId now (license_keys s)))).
Proof.
  intros env s. split; [| split].
  - intros k g1 t1 u1 now1 uuid1 g2 t2 u2 now2 uuid2 body s1 H1 Hvalid.
    apply redeemLicense_ok in H1.
    destruct H1 as (lk & bu & bd & Hget & _ & _ & Hkeys & _).
    unfold Paywall.redeemLicense. rewrite Hvalid.
    rewrite Hkeys, getByKey_update_rows, Hget. cbn [option_map].
    rewrite key_patched_self. reflexivity.
  - intros req now. apply run_is_route.
  - intros this bu bd now row Hnull Hexp Hin Hid.
    unfold LicenseKey.redeem, LicenseKey.isRedeemed. rewrite Hnull, Hexp. simpl.
    rewrite key_update_table, key_update_rows_map. apply in_map_iff.
    exists row. split; [| assumption].
    unfold key_patched, LicenseKey.has_id. now rewrite <- Hid, String.eqb_refl.
Qed.

Lemma sequential_redemptions_succeed_once_witness :
  Paywall.redeemLicense sample_env (Some sample_key) (Some sample_guest_b) None
                        None 2000 "row-b" sample_guest_redeemed_store =
  (Paywall.RedeemBadRequest "License key has already been redeemed",
   sample_guest_redeemed_store).
Proof.
  apply (proj1 (sequential_redemptions_succeed_once sample_env sample_guests_store)
               (Some sample_key) (Some sample_guest_a) None None 1000 "row-a"
               (Some sample_guest_b) None None 2000 "row-b"
               (LicenseKey.mkPublic "pro_monthly" None None)).
  - reflexivity.
  - reflexivity.
Defined.

(** ** The theorems on sample runs *)

Lemma replayed_billing_event_changes_nothing_witness :
  exists s2,
    Webhooks.stripe (Some sample_checkout) 3000 "row-2" sample_after_checkout =
      (Webhooks.Received, s2) /\
    same_entitlements s2 sample_after_checkout /\
    List.length (user_subscriptions s2) = 1%nat.
Proof.
  destruct (replayed_billing_event_changes_nothing sample_checkout 2000 3000
              "row-1" "row-2" (empty_store sample_plans) sample_after_checkout
              eq_refl) as (s2 & H2 & Hsame & _ & Hlen & _).
  exists s2. repeat split; try assumption; apply Hsame.
Defined.

Lemma checkout_during_trial_keeps_trial_window_witness :
  exists r',
    Paywall.current_subscription None (Some "dev-1")
      (snd (Webhooks.handleCheckoutSessionCompleted sample_guest_session
              (1000 + MS_PER_DAY) "row-2" sample_trial_store)) = Some r' /\
    UserSubscription.status r' = "active" /\
    UserSubscription.trialStart r' = Some 1000 /\
    UserSubscription.trialEnd r' = Some (1000 + Device.TRIAL_MS).
Proof.
  destruct (checkout_during_trial_keeps_trial_window sample_guest_session
              (1000 + MS_PER_DAY) "row-2" sample_trial_store
              (UserSubscription.mk "row-1" None (Some "dev-1") None None None None
                 "trial" (Some 1000) (Some (1000 + Device.TRIAL_MS)) 1000 1000)
              eq_refl eq_refl)
    as (r' & Hcur & _ & Hstatus & Hstart & Hend & _).
  exists r'. repeat split; assumption.
Defined.

(** * Further properties *)

(** ** Strings *)

Lemma string_length_append (a b : string) :
  String.length (String.append a b) = (String.length a + String.length b)%nat.
Proof. induction a as [| c a IH]; simpl; [reflexivity | now rewrite IH]. Qed.

Lemma substring_all (s : string) : String.substring 0 (String.length s) s = s.
Proof. induction s as [| c s IH]; simpl; [reflexivity | now rewrite IH]. Qed.

(** ** The license key pattern and the key generator *)

Lemma repeat_class_length n :
  forall s rest, Validation.repeat_class n s = Some rest ->
                 String.length s = (n + String.length rest)%nat.
Proof.
  induction n as [| n IH]; intros s rest; simpl.
  - now intros [= ->].
  - destruct s as [| c s]; [discriminate |].
    destruct (Validation.class_upper_alnum c); [| discriminate].
    intros H. apply IH in H. simpl. now rewrite H.
Qed.

Lemma literal_length lit :
  forall s rest, Validation.literal lit s = Some rest ->
                 String.length s = (String.length lit + String.length rest)%nat.
Proof.
  induction lit as [| c lit IH]; intros s rest; simpl.
  - now intros [= ->].
  - destruct s as [| c' s]; [discriminate |].
    destruct (Ascii.eqb c c'); [| discriminate].
    intros H. apply IH in H. simpl. now rewrite H.
Qed.

Lemma validateLicenseKey_length k :
  Validation.validateLicenseKey k = true -> String.length k = 30%nat.
Proof.
  unfold Validation.validateLicenseKey.
  destruct (Validation.literal "UTM-" k) as [s1 |] eqn:H1; [| discriminate].
  destruct (Validation.repeat_class 8 s1) as [s2 |] eqn:H2; [| discriminate].
  destruct (Validation.literal "-" s2) as [s3 |] eqn:H3; [| discriminate].
  destruct (Validation.repeat_class 8 s3) as [s4 |] eqn:H4; [| discriminate].
  destruct (Validation.literal "-" s4) as [s5 |] eqn:H5; [| discriminate].
  destruct (Validation.repeat_class 8 s5) as [[| c s6] |] eqn:H6;
    [| discriminate | discriminate].
  intros _.
  apply literal_length in H1, H3, H5. apply repeat_class_length in H2, H4, H6.
  simpl in *. lia.
Qed.

Lemma generateKey_length randomBytes2 :
  String.length (LicenseKey.generateKey randomBytes2) = 18%nat.
Proof.
  rewrite generateKey_segments. rewrite !string_length_append.
  destruct (segment_shape (fst (randomBytes2 0%nat)) (snd (randomBytes2 0%nat)))
    as (_ & L0 & _).
  destruct (segment_shape (fst (randomBytes2 1%nat)) (snd (randomBytes2 1%nat)))
    as (_ & L1 & _).
  destruct (segment_shape (fst (randomBytes2 2%nat)) (snd (randomBytes2 2%nat)))
    as (_ & L2 & _).
  rewrite L0, L1, L2. reflexivity.
Qed.

(** X1.  No key that [LicenseKey.generateKey] can draw passes
    [validateLicenseKey]: the pattern asks for three groups of eight
    characters, thirty characters in all, and a generated key has eighteen.
    A key of the documented older form passes. *)
Theorem generated_keys_fail_the_license_pattern :
  forall (randomBytes2 : nat -> byte * byte),
    Validation.validateLicenseKey (LicenseKey.generateKey randomBytes2) = false /\
    String.length (LicenseKey.generateKey randomBytes2) = 18%nat /\
    (forall k, Validation.validateLicenseKey k = true ->
               String.length k = 30%nat) /\
    Validation.validateLicenseKey "UTM-ABCD1234-EFGH5678-IJKL9012" = true.
Proof.
  intros rnd. split; [| split; [| split]].
  - destruct (Validation.validateLicenseKey (LicenseKey.generateKey rnd)) eqn:E;
      [| reflexivity].
    apply validateLicenseKey_length in E. rewrite generateKey_length in E.
    discriminate.
  - apply generateKey_length.
  - exact validateLicenseKey_length.
  - reflexivity.
Qed.

(** ** The bearer token *)

Lemma before_without_separator sep :
  forall s, FirebaseAuth.after sep s = None -> FirebaseAuth.before sep s = s.
Proof.
  induction s as [| c s IH]; cbn [FirebaseAuth.after FirebaseAuth.before].
  - intros _. now destruct sep.
  - destruct (String.prefix sep (String c s)); [discriminate |].
    intros H. now rewrite IH.
Qed.

Lemma split_1_bearer (t : string) :
  FirebaseAuth.split_1 "Bearer " (String.append "Bearer " t) =
  Some (FirebaseAuth.before "Bearer " t).
Proof.
  unfold FirebaseAuth.split_1. 
  assert (H : FirebaseAuth.after "Bearer " (String.append "Bearer " t) = Some t).
  { cbn [String.append FirebaseAuth.after].
    replace (String.prefix "Bearer " (String "B" (String "e" (String "a" (String "r"
               (String "e" (String "r" (String " " t)))))))) with true.
    - cbn [String.length String.substring Nat.sub]. f_equal.
      rewrite Nat.sub_0_r. apply substring_all.
    - symmetry. simpl. now destruct t. }
  now rewrite H.
Qed.

(** X2.  [firebaseAuth] hands to the identity provider the text that
    follows [Bearer ], up to a second [Bearer ] if the header has one: for a
    token that does not contain [Bearer ] that is the token itself.  A
    header that does not start with [Bearer ] and a header with nothing
    behind it are answered 401 without asking the provider; a token the
    provider refuses is answered 401. *)
Theorem bearer_token_is_what_follows_the_prefix :
  forall (verifyIdToken : string -> option string) (t : string),
    FirebaseAuth.firebaseAuth verifyIdToken (Some (String.append "Bearer " t)) =
      (if FirebaseAuth.before "Bearer " t =? ""
       then FirebaseAuth.Unauthorized "No Firebase ID token provided"
       else
         match verifyIdToken (FirebaseAuth.before "Bearer " t) with
         | Some uid => FirebaseAuth.Next (Some uid)
         | None =>
             FirebaseAuth.Unauthorized "Invalid or expired authentication token"
         end) /\
    (FirebaseAuth.after "Bearer " t = None -> FirebaseAuth.before "Bearer " t = t) /\
    (forall header,
        String.prefix "Bearer " header = false ->
        FirebaseAuth.firebaseAuth verifyIdToken (Some header) =
        FirebaseAuth.Unauthorized "No valid authorization header provided") /\
    FirebaseAuth.firebaseAuth verifyIdToken None =
      FirebaseAuth.Unauthorized "No valid authorization header provided".
Proof.
  intros verify t. split; [| split; [| split]].
  - unfold FirebaseAuth.firebaseAuth.
    rewrite split_1_bearer.
    replace (String.prefix "Bearer " (String.append "Bearer " t)) with true
      by (symmetry; simpl; now destruct t).
    simpl truthy. cbn [negb orb].
    destruct (FirebaseAuth.before "Bearer " t =? "") eqn:E; simpl.
    + reflexivity.
    + rewrite E. reflexivity.
  - apply before_without_separator.
  - intros header H. unfold FirebaseAuth.firebaseAuth. rewrite H.
    now rewrite orb_true_r.
  - reflexivity.
Qed.

Lemma bearer_token_is_what_follows_the_prefix_witness :
  FirebaseAuth.before "Bearer " "eyJhbGciOi.payload.sig" = "eyJhbGciOi.payload.sig".
Proof.
  apply (proj1 (proj2 (bearer_token_is_what_follows_the_prefix
                         (fun _ => None) "eyJhbGciOi.payload.sig"))).
  reflexivity.
Defined.

(** X3.  [optionalFirebaseAuth] lets in exactly the callers that
    [firebaseAuth] lets in and treats every header that [firebaseAuth]
    answers with 401 as no header at all; so check-subscription with a
    refused token answers as it does for the guest id alone, never 401. *)
Theorem optional_auth_turns_refusal_into_guest :
  forall (verifyIdToken : string -> option string)
         (authorization guest_id : option string) (now : Z) (s : Store),
    FirebaseAuth.optionalFirebaseAuth verifyIdToken authorization =
      match FirebaseAuth.firebaseAuth verifyIdToken authorization with
      | FirebaseAuth.Next user => user
      | FirebaseAuth.Unauthorized _ => None
      end /\
    ((exists error,
         FirebaseAuth.firebaseAuth verifyIdToken authorization =
         FirebaseAuth.Unauthorized error) ->
     FirebaseAuth.checkSubscription verifyIdToken authorization guest_id now s =
     FirebaseAuth.checkSubscription verifyIdToken None guest_id now s).
Proof.
  intros verify h g now s.
  assert (H : FirebaseAuth.optionalFirebaseAuth verify h =
              match FirebaseAuth.firebaseAuth verify h with
              | FirebaseAuth.Next user => user
              | FirebaseAuth.Unauthorized _ => None
              end).
  { unfold FirebaseAuth.optionalFirebaseAuth, FirebaseAuth.firebaseAuth.
    destruct h as [header |]; [| reflexivity].
    destruct (negb (truthy (Some header)) || negb (String.prefix "Bearer " header));
      [reflexivity |].
    destruct (negb (truthy (FirebaseAuth.split_1 "Bearer " header)));
      [reflexivity |].
    now destruct (verify (or_default (FirebaseAuth.split_1 "Bearer " header) "")). }
  split; [exact H |].
  intros [error E]. unfold FirebaseAuth.checkSubscription. rewrite H, E.
  reflexivity.
Qed.

Lemma optional_auth_turns_refusal_into_guest_witness :
  FirebaseAuth.checkSubscription (fun _ => None) (Some "Bearer forged")
                                 (Some "dev-1") 2000 sample_trial_store =
  FirebaseAuth.checkSubscription (fun _ => None) None
                                 (Some "dev-1") 2000 sample_trial_store.
Proof.
  apply (proj2 (optional_auth_turns_refusal_into_guest
                  (fun _ => None) (Some "Bearer forged") (Some "dev-1") 2000
                  sample_trial_store)).
  exists "Invalid or expired authentication token". reflexivity.
Defined.

(** ** The checkout session *)

Lemma device_isTrialActive_iff (d : Device.t) (now : Z) :
  Device.isTrialActive d now = true <->
  Device.subscriptionStatus d = "trial" /\
  exists trial_end, Device.trialEnd d = Some trial_end /\ now < trial_end.
Proof.
  unfold Device.isTrialActive.
  destruct (String.eqb_spec (Device.subscriptionStatus d) "trial") as [E | E];
    destruct (Device.trialEnd d) as [te |]; simpl; split.
  - intros H. apply Z.ltb_lt in H. eauto.
  - intros (_ & te' & [= <-] & H). now apply Z.ltb_lt.
  - discriminate.
  - intros (_ & te' & [=] & _).
  - discriminate.
  - intros (H & _). contradiction.
  - discriminate.
  - intros (H & _). contradiction.
Qed.

Lemma unix_seconds_bounds (ms : Z) :
  Checkout.unix_seconds ms * 1000 <= ms < Checkout.unix_seconds ms * 1000 + 1000.
Proof.
  unfold Checkout.unix_seconds.
  pose proof (Z.div_mod ms 1000 ltac:(lia)).
  pose proof (Z.mod_pos_bound ms 1000 ltac:(lia)). lia.
Qed.

(** X4.  When create-checkout-session hands a session to Stripe, the price
    is one of the catalogue, the metadata names exactly one identity (the
    account if there is one, else the guest), and that identity locates the
    same entitlement record as the caller's: the record that the
    checkout-completed handler will update for a session carrying this
    metadata.  A trial end is sent only if it is not zero and is the end of
    a running trial in whole seconds, rounded down; it is read from the
    guest's device whenever a guest id is sent, also for a signed-in
    caller, and from the account's record otherwise. *)
Theorem checkout_session_names_one_identity :
  forall (guest_id : option string) (price_id : string) (uid : option string)
         (new_customer : string) (now : Z) (s : Store)
         (cfg : Checkout.SessionConfig),
    Checkout.createCheckoutSession guest_id price_id uid new_customer now s =
      Checkout.Create cfg ->
    Checkout.price cfg = price_id /\
    (exists plan, In plan (stripe_plans s) /\
                  StripePlan.stripePriceId plan = price_id) /\
    truthy (Checkout.metadata_uid cfg) =
      negb (truthy (Checkout.metadata_guest_id cfg)) /\
    Paywall.current_subscription (Checkout.metadata_uid cfg)
                                 (Checkout.metadata_guest_id cfg) s =
      Paywall.current_subscription uid guest_id s /\
    (forall session now' uuid r,
        Webhooks.metadata_uid session = Checkout.metadata_uid cfg ->
        Webhooks.metadata_guest_id session = Checkout.metadata_guest_id cfg ->
        Paywall.current_subscription uid guest_id s = Some r ->
        Webhooks.handleCheckoutSessionCompleted session now' uuid s =
        Webhooks.after_update s
          (UserSubscription.update r (Webhooks.checkout_update session) now'
                                   (user_subscriptions s))) /\
    (forall t, Checkout.trial_end cfg = Some t ->
       t <> 0 /\
       exists trial_end,
         now < trial_end /\ t * 1000 <= trial_end < t * 1000 + 1000 /\
         if truthy guest_id
         then exists device,
             Device.getById (or_default guest_id "") (devices s) = Some device /\
             Device.trialEnd device = Some trial_end
         else exists subscription,
             UserSubscription.getByUid (or_default uid "") (user_subscriptions s) =
               Some subscription /\
             UserSubscription.trialEnd subscription = Some trial_end).
Proof.
  intros g p u c now s cfg. unfold Checkout.createCheckoutSession.
  destruct (StripePlan.getByStripePriceId p (stripe_plans s)) as [plan |] eqn:Hplan;
    [| discriminate].
  destruct (negb (truthy u) && negb (truthy g)) eqn:Hid; [discriminate |].
  intros [= <-]. cbn [Checkout.price Checkout.metadata_uid
                      Checkout.metadata_guest_id Checkout.trial_end].
  assert (Hcur : Paywall.current_subscription (if truthy u then u else None)
                   (if truthy u then None else g) s =
                 Paywall.current_subscription u g s).
  { unfold Paywall.current_subscription.
    destruct (truthy u) eqn:Hu; [now rewrite Hu | reflexivity]. }
  split; [reflexivity |]. split.
  { unfold StripePlan.getByStripePriceId in Hplan. apply single_some in Hplan.
    assert (Hin : In plan (filter (fun r => StripePlan.stripePriceId r =? p)
                                  (stripe_plans s))) by (rewrite Hplan; now left).
    apply filter_In in Hin. destruct Hin as [Hin E].
    apply String.eqb_eq in E. eauto. }
  split.
  { destruct (truthy u) eqn:Hu; [now rewrite Hu |].
    simpl in Hid. simpl. now rewrite Hid. }
  split; [exact Hcur |]. split.
  { intros session now' uuid r Eu Eg Hr. apply checkout_updates_current.
    now rewrite Eu, Eg, Hcur. }
  intros t Ht.
  destruct (Checkout.trialEnd g u now s) as [t0 |] eqn:Ht0; [| discriminate].
  simpl in Ht.
  destruct (Z.eqb_spec t0 0) as [E0 | E0]; simpl in Ht; [discriminate |].
  injection Ht as <-. split; [assumption |].
  unfold Checkout.trialEnd in Ht0. destruct (truthy g).
  - destruct (Device.getById (or_default g "") (devices s)) as [device |];
      [| discriminate].
    destruct (Device.isTrialActive device now) eqn:Hact; [| discriminate].
    apply device_isTrialActive_iff in Hact. destruct Hact as (_ & te & Ete & Hlt).
    rewrite Ete in Ht0. simpl in Ht0. injection Ht0 as <-.
    exists te. split; [assumption |]. split; [apply unix_seconds_bounds |].
    eauto.
  - destruct (truthy u); [| discriminate].
    destruct (UserSubscription.getByUid (or_default u "") (user_subscriptions s))
      as [subscription |]; [| discriminate].
    destruct (UserSubscription.isTrial subscription now) eqn:Hact; [| discriminate].
    apply isTrial_true_iff in Hact. destruct Hact as (_ & te & Ete & Hlt).
    rewrite Ete in Ht0. simpl in Ht0. injection Ht0 as <-.
    exists te. split; [assumption |]. split; [apply unix_seconds_bounds |].
    eauto.
Qed.

Lemma checkout_session_names_one_identity_witness :
  Checkout.price
    (Checkout.mkConfig "cus_new" "price_monthly_pro" (Some "alice") None
                       (Some 259201)) = "price_monthly_pro".
Proof.
  apply (checkout_session_names_one_identity
           (Some "dev-1") "price_monthly_pro" (Some "alice") "cus_new" 2000
           sample_trial_store).
  reflexivity.
Defined.

(** ** The device table *)

Lemma getById_spec g t d :
  Device.getById g t = Some d ->
  filter (Device.has_id g) t = [d] /\ In d t /\ Device.id d = g.
Proof.
  unfold Device.getById. intros H. apply single_some in H.
  assert (Hin : In d (filter (Device.has_id g) t)) by (rewrite H; now left).
  apply filter_In in Hin. destruct Hin as [Hin E].
  unfold Device.has_id in E. apply String.eqb_eq in E. auto.
Qed.

Lemma linked_id i u x : Device.id (linked i u x) = Device.id x.
Proof. unfold linked. now destruct (Device.has_id i x). Qed.

Lemma linked_deviceId i u x : Device.deviceId (linked i u x) = Device.deviceId x.
Proof. unfold linked. now destruct (Device.has_id i x). Qed.

Lemma linked_has_id g i u x :
  Device.has_id g (linked i u x) = Device.has_id g x.
Proof. unfold Device.has_id. now rewrite linked_id. Qed.

Lemma linked_three_day_trial i u x :
  three_day_trial x -> three_day_trial (linked i u x).
Proof. unfold linked. now destruct (Device.has_id i x). Qed.

Lemma linkToUid_table this u t :
  snd (Device.linkToUid this u t) = map (linked (Device.id this) u) t.
Proof. unfold Device.linkToUid. now destruct (single _). Qed.

Lemma linkToUid_result this u t r :
  fst (Device.linkToUid this u t) = Ok r -> r = this.
Proof.
  unfold Device.linkToUid. destruct (single _); simpl; congruence.
Qed.

Lemma getById_linked g u t d :
  Device.getById g t = Some d ->
  Device.getById g (map (linked g u) t) = Some (linked g u d) /\
  Device.linkedUid (linked g u d) = Some u.
Proof.
  intros H. apply getById_spec in H. destruct H as (Hf & _ & Hid).
  unfold Device.getById.
  rewrite filter_map_commute by (intros x; apply linked_has_id).
  rewrite Hf. split; [reflexivity |].
  unfold linked, Device.has_id. now rewrite Hid, String.eqb_refl.
Qed.

Lemma linkToUid_ok this u t :
  Device.getById (Device.id this) t = Some this ->
  Device.linkToUid this u t = (Ok this, map (linked (Device.id this) u) t).
Proof.
  intros H. apply (getById_linked _ u) in H. destruct H as [H _].
  unfold Device.linkToUid. unfold Device.getById in H.
  change (map
            (fun r : Device.t =>
               if Device.has_id (Device.id this) r
               then
                 Device.mk (Device.id r) (Device.deviceId r) (Device.createdAt r)
                           (Device.lastSeen r) (Some u) (Device.trialStart r)
                           (Device.trialEnd r) (Device.subscriptionStatus r)
               else r) t)
    with (map (linked (Device.id this) u) t).
  now rewrite H.
Qed.

Lemma device_create_step env device_id uuid now t device t' :
  Device.create env device_id uuid now t = Ok (device, t') ->
  devices_step t t'.
Proof.
  unfold Device.create.
  destruct (existsb (Device.has_id uuid) t) eqn:Eid; simpl; [discriminate |].
  destruct (existsb (fun r => Device.deviceId r =? Device.hashDeviceId env device_id) t)
    eqn:Eh; [discriminate |].
  intros [= <- <-].
  eapply step_create; [reflexivity | exact Eid | exact Eh | | reflexivity].
  split; [reflexivity |]. exists now. split; reflexivity.
Qed.

(** *** The requests that leave the device table alone *)

Lemma after_update_devices s res :
  devices (snd (Webhooks.after_update s res)) = devices s.
Proof. now rewrite after_update_store. Qed.

Lemma after_create_devices s res :
  devices (snd (Webhooks.after_create s res)) = devices s.
Proof. destruct res as [[r table] | e]; reflexivity. Qed.

Lemma after_update_plans s res :
  stripe_plans (snd (Webhooks.after_update s res)) = stripe_plans s.
Proof. now rewrite after_update_store. Qed.

Lemma after_create_plans s res :
  stripe_plans (snd (Webhooks.after_create s res)) = stripe_plans s.
Proof. destruct res as [[r table] | e]; reflexivity. Qed.

Lemma dispatch_devices event now uuid s :
  devices (snd (Webhooks.dispatch event now uuid s)) = devices s.
Proof.
  destruct event; simpl;
    unfold Webhooks.handleCheckoutSessionCompleted,
      Webhooks.handleInvoicePaymentSucceeded, Webhooks.handleInvoicePaymentFailed,
      Webhooks.handleSubscriptionCreated, Webhooks.handleSubscriptionUpdated,
      Webhooks.handleSubscriptionDeleted, Webhooks.force_status;
    repeat first
      [ reflexivity | apply after_update_devices | apply after_create_devices
      | match goal with
        | |- context [match ?x with _ => _ end] => destruct x
        end ].
Qed.

Lemma dispatch_plans event now uuid s :
  stripe_plans (snd (Webhooks.dispatch event now uuid s)) = stripe_plans s.
Proof.
  destruct event; simpl;
    unfold Webhooks.handleCheckoutSessionCompleted,
      Webhooks.handleInvoicePaymentSucceeded, Webhooks.handleInvoicePaymentFailed,
      Webhooks.handleSubscriptionCreated, Webhooks.handleSubscriptionUpdated,
      Webhooks.handleSubscriptionDeleted, Webhooks.force_status;
    repeat first
      [ reflexivity | apply after_update_plans | apply after_create_plans
      | match goal with
        | |- context [match ?x with _ => _ end] => destruct x
        end ].
Qed.

Lemma stripe_devices verified now uuid s :
  devices (snd (Webhooks.stripe verified now uuid s)) = devices s.
Proof.
  unfold Webhooks.stripe. destruct verified as [event |]; [| reflexivity].
  rewrite <- (dispatch_devices event now uuid s).
  now destruct (Webhooks.dispatch event now uuid s) as [[[] | e] s'].
Qed.

Lemma redeemLicense_devices env k g t u now us s :
  devices (snd (Paywall.redeemLicense env k g t u now us s)) = devices s.
Proof. unfold Paywall.redeemLicense. by_cases_of_the_handler. Qed.

Lemma generateLicenseKeys_devices env a p c o dr now s :
  devices (snd (Admin.generateLicenseKeys env a p c o dr now s)) = devices s.
Proof. unfold Admin.generateLicenseKeys. by_cases_of_the_handler. Qed.

Lemma revokeLicense_devices env a k now s :
  devices (snd (Admin.revokeLicense env a k now s)) = devices s.
Proof. unfold Admin.revokeLicense. by_cases_of_the_handler. Qed.

Lemma startGuestTrial_devices_step env d now ud us s :
  devices_step (devices s)
               (devices (snd (Paywall.startGuestTrial env d now ud us s))).
Proof.
  unfold Paywall.startGuestTrial.
  destruct (negb (Paywall.valid_text d)); [now apply step_same |].
  destruct (Device.getByDeviceId _ _ _); [now apply step_same |].
  destruct (Device.create env (or_default d "") ud now (devices s))
    as [[device devices'] | e] eqn:Hc; [| now apply step_same].
  apply device_create_step in Hc.
  now destruct (UserSubscription.create _ _ _ _) as [[r subs'] | e].
Qed.

Lemma linkGuest_devices_step g u now us s :
  devices_step (devices s) (devices (snd (Paywall.linkGuest g u now us s))).
Proof.
  unfold Paywall.linkGuest.
  destruct (Device.getById g (devices s)) as [device |] eqn:Hget;
    [| now apply step_same].
  destruct (truthy (Device.linkedUid device)) eqn:Hl; [now apply step_same |].
  assert (Hstep : devices_step (devices s)
                    (map (linked (Device.id device) u) (devices s))).
  { apply step_link with device u; [| assumption | reflexivity].
    destruct (getById_spec _ _ _ Hget) as (_ & _ & ->). assumption. }
  pose proof (linkToUid_table device u (devices s)) as Ht.
  destruct (Device.linkToUid device u (devices s)) as [[device' | e] devices'];
    simpl in Ht; subst devices'; [| exact Hstep].
  cbn [with_devices user_subscriptions].
  destruct (UserSubscription.getByUid u (user_subscriptions s)) as [subscription |].
  - destruct (is_null _ && negb _); [| exact Hstep].
    now destruct (UserSubscription.update _ _ _ _) as [[r | e] subs'].
  - now destruct (UserSubscription.create _ _ _ _) as [[r subs'] | e].
Qed.

Lemma serve_devices_step env req now s :
  devices_step (devices s) (devices (Service.serve env req now s)).
Proof.
  destruct req as [d ud us | u g | u | k g t u us | g u us | v u | a p c o dr | a k
                  | lk0];
    simpl; try (now apply step_same).
  - apply startGuestTrial_devices_step.
  - apply step_same, redeemLicense_devices.
  - apply linkGuest_devices_step.
  - apply step_same, stripe_devices.
  - apply step_same, generateLicenseKeys_devices.
  - apply step_same, revokeLicense_devices.
Qed.

(** *** What a step keeps *)

Lemma devices_step_ids t t' d :
  devices_step t t' -> In d (map Device.id t) -> In d (map Device.id t').
Proof.
  intros [-> | r -> _ _ _ _ | this u _ _ ->] Hin.
  - assumption.
  - rewrite map_app. apply in_or_app. now left.
  - rewrite map_map. erewrite map_ext; [eassumption |].
    intros x. apply linked_id.
Qed.

Lemma devices_step_invariant t t' :
  devices_step t t' ->
  NoDup (map Device.id t) /\ NoDup (map Device.deviceId t) /\
  Forall three_day_trial t ->
  NoDup (map Device.id t') /\ NoDup (map Device.deviceId t') /\
  Forall three_day_trial t'.
Proof.
  intros [-> | r -> Hid Hh Htrial _ | this u _ _ ->] (Hnd & Hnh & Hall).
  - auto.
  - rewrite !map_app. simpl. split; [| split].
    + apply NoDup_snoc; [assumption |]. intros Hin.
      apply in_map_iff in Hin. destruct Hin as (x & Ex & Hx).
      assert (existsb (Device.has_id (Device.id r)) t = true); [| congruence].
      apply existsb_exists. exists x. split; [assumption |].
      unfold Device.has_id. now apply String.eqb_eq.
    + apply NoDup_snoc; [assumption |]. intros Hin.
      apply in_map_iff in Hin. destruct Hin as (x & Ex & Hx).
      assert (existsb (fun x => Device.deviceId x =? Device.deviceId r) t = true);
        [| congruence].
      apply existsb_exists. exists x. split; [assumption |].
      now apply String.eqb_eq.
    + apply Forall_app. split; [assumption |]. now constructor.
  - rewrite !map_map. split; [| split].
    + rewrite (map_ext _ Device.id); [assumption | intros x; apply linked_id].
    + rewrite (map_ext _ Device.deviceId);
        [assumption | intros x; apply linked_deviceId].
    + apply Forall_map. eapply Forall_impl; [| eassumption].
      intros x. apply linked_three_day_trial.
Qed.

Lemma reachable_devices_invariant env plans s :
  Service.reachable env plans s ->
  NoDup (map Device.id (devices s)) /\
  NoDup (map Device.deviceId (devices s)) /\
  Forall three_day_trial (devices s).
Proof.
  induction 1 as [| s req now _ IH]; simpl.
  - repeat split; constructor.
  - eapply devices_step_invariant; [apply serve_devices_step | exact IH].
Qed.

Lemma ceil_div_le_days (a n : Z) :
  a <= n * MS_PER_DAY -> ceil_div a MS_PER_DAY <= n.
Proof.
  intros H. unfold ceil_div.
  assert (- n <= (- a) / MS_PER_DAY).
  { apply Z.div_le_lower_bound; [reflexivity | lia]. }
  lia.
Qed.

Lemma device_days_bounds (d : Device.t) (now : Z) :
  three_day_trial d ->
  0 <= Device.getTrialDaysRemaining d now /\
  (forall trial_start,
      Device.trialStart d = Some trial_start -> trial_start <= now ->
      Device.getTrialDaysRemaining d now <= 3) /\
  (Device.isTrialActive d now = true <-> 1 <= Device.getTrialDaysRemaining d now).
Proof.
  intros (Est & ts & Ets & Ete). unfold Device.getTrialDaysRemaining.
  destruct (Device.isTrialActive d now) eqn:Hact; simpl.
  - apply device_isTrialActive_iff in Hact. destruct Hact as (_ & te & Ete' & Hlt).
    rewrite Ete'. rewrite Ete in Ete'. injection Ete' as <-.
    pose proof (ceil_div_pos (ts + Device.TRIAL_MS - now) ltac:(lia)) as Hpos.
    split; [lia |]. split.
    + intros ts' Ets' Hle. rewrite Ets in Ets'. injection Ets' as <-.
      pose proof (ceil_div_le_days (ts + Device.TRIAL_MS - now) 3) as Hup.
      unfold Device.TRIAL_MS, MS_PER_DAY in *. lia.
    + split; [lia | reflexivity].
  - split; [lia |]. split; [lia |]. split; [discriminate | lia].
Qed.

(** X5.  In every store the service can reach, no two devices share an id
    or a hashed fingerprint, and every device is on the trial of three days
    that [Device.create] gave it: no request moves a trial window or a
    device status.  So the days reported for a device lie between 0 and 3
    from the start of its trial on, and the trial counts as running exactly
    when at least one day is reported. *)
Theorem reachable_devices_keep_their_three_day_trial :
  forall (env : Env) (plans : list StripePlan.t) (s : Store),
    Service.reachable env plans s ->
    NoDup (map Device.id (devices s)) /\
    NoDup (map Device.deviceId (devices s)) /\
    forall d, In d (devices s) ->
      three_day_trial d /\
      forall now,
        0 <= Device.getTrialDaysRemaining d now /\
        (forall trial_start,
            Device.trialStart d = Some trial_start -> trial_start <= now ->
            Device.getTrialDaysRemaining d now <= 3) /\
        (Device.isTrialActive d now = true <->
         1 <= Device.getTrialDaysRemaining d now).
Proof.
  intros env plans s Hr.
  destruct (reachable_devices_invariant env plans s Hr) as (Hid & Hh & Hall).
  split; [assumption |]. split; [assumption |].
  intros d Hin. rewrite Forall_forall in Hall. specialize (Hall d Hin).
  split; [assumption |]. intros now. now apply device_days_bounds.
Qed.

Lemma sample_trial_store_reachable :
  Service.reachable sample_env sample_plans sample_trial_store.
Proof.
  apply (Service.reachable_serve sample_env sample_plans (empty_store sample_plans)
           (Service.StartGuestTrial (Some "fingerprint-1") "dev-1" "row-1") 1000).
  apply Service.reachable_init.
Defined.

Lemma reachable_devices_keep_their_three_day_trial_witness :
  NoDup (map Device.id (devices sample_trial_store)) /\
  NoDup (map Device.deviceId (devices sample_trial_store)) /\
  forall d, In d (devices sample_trial_store) ->
    three_day_trial d /\
    forall now,
      0 <= Device.getTrialDaysRemaining d now /\
      (forall trial_start,
          Device.trialStart d = Some trial_start -> trial_start <= now ->
          Device.getTrialDaysRemaining d now <= 3) /\
      (Device.isTrialActive d now = true <->
       1 <= Device.getTrialDaysRemaining d now).
Proof.
  apply (reachable_devices_keep_their_three_day_trial sample_env sample_plans
           sample_trial_store).
  exact sample_trial_store_reachable.
Defined.

(** *** Devices are kept, and a link is written once *)

Lemma kept_device_refl d : kept_device d d.
Proof. unfold kept_device. repeat split. Qed.

Lemma kept_device_trans d1 d2 d3 :
  kept_device d1 d2 -> kept_device d2 d3 -> kept_device d1 d3.
Proof.
  unfold kept_device.
  intros (A1 & A2 & A3 & A4 & A5 & A6 & A7) (B1 & B2 & B3 & B4 & B5 & B6 & B7).
  repeat split; try congruence.
  intros H. rewrite B7; [now apply A7 |]. rewrite A7; assumption.
Qed.

Lemma Forall2_kept_refl t : Forall2 kept_device t t.
Proof. induction t; constructor; [apply kept_device_refl | assumption]. Qed.

Lemma Forall2_kept_trans t1 :
  forall t2 t3, Forall2 kept_device t1 t2 -> Forall2 kept_device t2 t3 ->
                Forall2 kept_device t1 t3.
Proof.
  induction t1 as [| x t1 IH]; intros t2 t3 H12 H23.
  - inversion H12; subst. inversion H23; subst. constructor.
  - inversion H12 as [| ? y ? t2' Hxy H12']; subst.
    inversion H23 as [| ? z ? t3' Hyz H23']; subst.
    constructor; [eapply kept_device_trans; eassumption | eapply IH; eassumption].
Qed.

Lemma devices_kept_refl t : devices_kept t t.
Proof. exists t, []. split; [now rewrite app_nil_r | apply Forall2_kept_refl]. Qed.

Lemma devices_kept_trans t1 t2 t3 :
  devices_kept t1 t2 -> devices_kept t2 t3 -> devices_kept t1 t3.
Proof.
  intros (k1 & f1 & -> & H1) (k2 & f2 & -> & H2).
  apply Forall2_app_inv_l in H2. destruct H2 as (k2a & k2b & Ha & Hb & ->).
  exists k2a, (k2b ++ f2). split; [now rewrite app_assoc |].
  eapply Forall2_kept_trans; eassumption.
Qed.

Lemma devices_step_kept t t' : devices_step t t' -> devices_kept t t'.
Proof.
  intros [-> | r -> _ _ _ _ | this u Hget Hl ->].
  - apply devices_kept_refl.
  - exists t, [r]. split; [reflexivity | apply Forall2_kept_refl].
  - exists (map (linked (Device.id this) u) t), []. split; [now rewrite app_nil_r |].
    destruct (getById_spec _ _ _ Hget) as (Hf & _ & _).
    assert (Hall : forall x, In x t -> kept_device x (linked (Device.id this) u x)).
    { intros x Hin. unfold linked.
      destruct (Device.has_id (Device.id this) x) eqn:E; [| apply kept_device_refl].
      assert (Hx : In x (filter (Device.has_id (Device.id this)) t))
        by (apply filter_In; auto).
      rewrite Hf in Hx. destruct Hx as [<- | []].
      unfold kept_device. simpl. repeat split. congruence. }
    clear Hget Hf Hl. induction t as [| x t IH]; simpl; constructor.
    + apply Hall. now left.
    + apply IH. intros y Hy. apply Hall. now right.
Qed.

(** X6.  No sequence of requests deletes a device, reorders the devices,
    or changes a device's id, hashed fingerprint, creation time, trial
    window or status; and once a device is linked to an account, no
    sequence of requests changes that link. *)
Theorem devices_are_kept_and_linked_once :
  forall (env : Env) (requests : list (Service.Request * Z)) (s : Store),
    devices_kept (devices s) (devices (serve_all env requests s)).
Proof.
  intros env requests. induction requests as [| [req now] rest IH]; intros s; simpl.
  - apply devices_kept_refl.
  - eapply devices_kept_trans; [| apply IH].
    apply devices_step_kept, serve_devices_step.
Qed.

(** *** link-guest *)

Lemma linkGuest_ok g u now us s s1 :
  Paywall.linkGuest g u now us s = (Paywall.LinkOk, s1) ->
  exists device,
    Device.getById g (devices s) = Some device /\
    truthy (Device.linkedUid device) = false /\
    devices s1 = map (linked g u) (devices s) /\
    license_keys s1 = license_keys s /\
    stripe_plans s1 = stripe_plans s /\
    match UserSubscription.getByUid u (user_subscriptions s) with
    | None =>
        exists r,
          UserSubscription.create
            (UserSubscription.mkInsert (Some u) None None None None
               (Device.subscriptionStatus device)
               (Device.trialStart device) (Device.trialEnd device))
            us now (user_subscriptions s) = Ok (r, user_subscriptions s1)
    | Some subscription =>
        if is_null (UserSubscription.trialStart subscription)
           && negb (is_null (Device.trialStart device))
        then
          user_subscriptions s1 =
          UserSubscription.update_rows (UserSubscription.id subscription)
            (UserSubscription.mkUpdate None None None None
               (Some (Device.subscriptionStatus device))
               (Some (Device.trialStart device))
               (Some (Device.trialEnd device)))
            now (user_subscriptions s)
        else user_subscriptions s1 = user_subscriptions s
    end.
Proof.
  unfold Paywall.linkGuest.
  destruct (Device.getById g (devices s)) as [device |] eqn:Hget; [| discriminate].
  destruct (truthy (Device.linkedUid device)) eqn:Hl; [discriminate |].
  destruct (getById_spec _ _ _ Hget) as (_ & _ & Hid).
  pose proof (linkToUid_table device u (devices s)) as Ht.
  pose proof (linkToUid_result device u (devices s)) as Hr.
  destruct (Device.linkToUid device u (devices s)) as [[device' | e] devices'];
    simpl in Ht, Hr; [| discriminate].
  rewrite (Hr device' eq_refl). subst devices'. rewrite Hid.
  cbn [with_devices user_subscriptions].
  destruct (UserSubscription.getByUid u (user_subscriptions s)) as [subscription |].
  - destruct (is_null (UserSubscription.trialStart subscription)
              && negb (is_null (Device.trialStart device))) eqn:Hfill.
    + pose proof (update_table subscription
                    (UserSubscription.mkUpdate None None None None
                       (Some (Device.subscriptionStatus device))
                       (Some (Device.trialStart device))
                       (Some (Device.trialEnd device)))
                    now (user_subscriptions s)) as Hu.
      destruct (UserSubscription.update subscription _ now (user_subscriptions s))
        as [[r | e] subs']; simpl in Hu; [| discriminate].
      intros [= <-]. exists device. simpl. rewrite Hfill. auto 7.
    + intros [= <-]. exists device. simpl. rewrite Hfill. auto 7.
  - destruct (UserSubscription.create _ us now (user_subscriptions s))
      as [[r subs'] | e] eqn:Hc; [| discriminate].
    intros [= <-]. exists device. simpl. eauto 8.
Qed.

Lemma linked_device_step g u t t' d :
  u <> "" -> devices_step t t' ->
  Device.getById g t = Some d -> Device.linkedUid d = Some u ->
  exists d', Device.getById g t' = Some d' /\ Device.linkedUid d' = Some u.
Proof.
  intros Hu Hstep Hget Hl. destruct (getById_spec _ _ _ Hget) as (Hf & Hin & Hid).
  destruct Hstep as [-> | r -> Hfresh _ _ _ | this u' Hthis Hfalsy ->].
  - eauto.
  - exists d. split; [| assumption].
    unfold Device.getById. rewrite filter_app, Hf. simpl.
    destruct (Device.has_id g r) eqn:E; [| reflexivity].
    unfold Device.has_id in E. apply String.eqb_eq in E.
    assert (existsb (Device.has_id (Device.id r)) t = true); [| congruence].
    apply existsb_exists. exists d. split; [assumption |].
    unfold Device.has_id. apply String.eqb_eq. congruence.
  - exists (linked (Device.id this) u' d). split.
    + unfold Device.getById.
      rewrite filter_map_commute by (intros x; apply linked_has_id).
      now rewrite Hf.
    + unfold linked.
      destruct (Device.has_id (Device.id this) d) eqn:E; [| assumption].
      destruct (getById_spec _ _ _ Hthis) as (Hf' & _ & _).
      assert (Hd : In d (filter (Device.has_id (Device.id this)) t))
        by (apply filter_In; auto).
      rewrite Hf' in Hd. destruct Hd as [-> | []].
      rewrite Hl in Hfalsy. simpl in Hfalsy.
      apply String.eqb_neq in Hu. now rewrite Hu in Hfalsy.
Qed.

(** X7.  Once link-guest has linked a device to an account, every later
    link-guest for that device, by whatever account and after whatever
    requests, is answered 400 "Device is already linked to an account" and
    changes nothing: the device stays linked to the first account. *)
Theorem linked_device_cannot_be_relinked :
  forall (env : Env) (guest_id uid : string) (now : Z) (uuid : string)
         (s s1 : Store) (requests : list (Service.Request * Z))
         (uid2 : string) (now2 : Z) (uuid2 : string),
    uid <> "" ->
    Paywall.linkGuest guest_id uid now uuid s = (Paywall.LinkOk, s1) ->
    Paywall.linkGuest guest_id uid2 now2 uuid2 (serve_all env requests s1) =
      (Paywall.LinkBadRequest "Device is already linked to an account",
       serve_all env requests s1) /\
    exists device,
      Device.getById guest_id (devices (serve_all env requests s1)) = Some device /\
      Device.linkedUid device = Some uid.
Proof.
  intros env g u now us s s1 requests u2 now2 us2 Hu Hok.
  apply linkGuest_ok in Hok.
  destruct Hok as (device & Hget & _ & Hdev & _).
  assert (H1 : exists d, Device.getById g (devices s1) = Some d /\
                         Device.linkedUid d = Some u).
  { rewrite Hdev. exists (linked g u device). now apply getById_linked. }
  clear Hdev Hget.
  assert (H2 : exists d, Device.getById g (devices (serve_all env requests s1)) = Some d /\
                         Device.linkedUid d = Some u).
  { revert s1 H1. induction requests as [| [req t] rest IH]; intros s1 H1; simpl.
    - assumption.
    - apply IH. destruct H1 as (d & Hd & Hl).
      eapply linked_device_step; [eassumption | apply serve_devices_step | |];
        eassumption. }
  split; [| assumption].
  destruct H2 as (d & Hd & Hl). unfold Paywall.linkGuest. rewrite Hd, Hl.
  simpl. apply String.eqb_neq in Hu. now rewrite Hu.
Qed.

Lemma linked_device_cannot_be_relinked_witness :
  Paywall.linkGuest "dev-1" "bob" 5000 "row-3"
    (serve_all sample_env
       [(Service.StartGuestTrial (Some "fingerprint-2") "dev-2" "row-4", 3000)]
       (snd (Paywall.linkGuest "dev-1" "alice" 2000 "row-2" sample_trial_store))) =
    (Paywall.LinkBadRequest "Device is already linked to an account",
     serve_all sample_env
       [(Service.StartGuestTrial (Some "fingerprint-2") "dev-2" "row-4", 3000)]
       (snd (Paywall.linkGuest "dev-1" "alice" 2000 "row-2" sample_trial_store))) /\
  exists device,
    Device.getById "dev-1"
      (devices
         (serve_all sample_env
            [(Service.StartGuestTrial (Some "fingerprint-2") "dev-2" "row-4", 3000)]
            (snd (Paywall.linkGuest "dev-1" "alice" 2000 "row-2"
                    sample_trial_store)))) = Some device /\
    Device.linkedUid device = Some "alice".
Proof.
  apply (linked_device_cannot_be_relinked sample_env "dev-1" "alice" 2000 "row-2"
           sample_trial_store).
  - discriminate.
  - reflexivity.
Defined.

(** *** What the account sees after link-guest *)

Lemma trial_row_view (r : UserSubscription.t) (now trial_end : Z) :
  UserSubscription.status r = "trial" ->
  UserSubscription.trialEnd r = Some trial_end ->
  UserSubscription.getSubscriptionStatus r now =
    (if (now <? trial_end)%Z then "trial" else "expired") /\
  UserSubscription.isActive r = false /\
  UserSubscription.isTrial r now = (now <? trial_end)%Z /\
  UserSubscription.getTrialDaysRemaining r now =
    (if (now <? trial_end)%Z then ceil_div (trial_end - now) MS_PER_DAY else 0).
Proof.
  intros Es Ee.
  unfold UserSubscription.getSubscriptionStatus, UserSubscription.getTrialDaysRemaining,
    UserSubscription.isActive, UserSubscription.isTrial,
    UserSubscription.isTrialExpired.
  rewrite Es, Ee. simpl.
  destruct (Z.ltb_spec now trial_end) as [Hlt | Hge]; simpl.
  - repeat split. pose proof (ceil_div_pos (trial_end - now)). lia.
  - repeat split. destruct (Z.leb_spec trial_end now); [reflexivity | lia].
Qed.

Lemma getByUid_none u table :
  UserSubscription.getByUid u table = None ->
  filter (fun r => col_eq (UserSubscription.uid r) u) table = [].
Proof. unfold UserSubscription.getByUid. apply latest_none. Qed.

(** ** The CHECK constraints and the devices that guests' records name *)

Lemma status_check_mappedStatus st :
  status_check (Webhooks.mappedStatus st) = true.
Proof.
  unfold Webhooks.mappedStatus.
  repeat match goal with
         | |- context [if ?b then _ else _] => destruct b
         end; reflexivity.
Qed.

Lemma after_update_records s this d now :
  (forall st, UserSubscription.u_status d = Some st -> status_check st = true) ->
  records_step s
    (snd (Webhooks.after_update s
            (UserSubscription.update this d now (user_subscriptions s)))).
Proof.
  intros H. rewrite after_update_store, update_table.
  now apply records_updated with (UserSubscription.id this) d now.
Qed.

Lemma after_create_records s ins uuid now :
  status_check (UserSubscription.i_status ins) = true ->
  (forall d, UserSubscription.i_device_id ins = Some d ->
             In d (map Device.id (devices s))) ->
  records_step s
    (snd (Webhooks.after_create s
            (UserSubscription.create ins uuid now (user_subscriptions s)))).
Proof.
  intros Hst Hdev.
  destruct (UserSubscription.create ins uuid now (user_subscriptions s))
    as [[r t'] | e] eqn:E; simpl.
  - now apply records_created with ins uuid now r.
  - now apply records_same.
Qed.

Lemma status_update_records s this st now :
  status_check st = true ->
  records_step s
    (snd (Webhooks.after_update s
            (UserSubscription.updateStatus this st now (user_subscriptions s)))).
Proof.
  intros H. apply after_update_records. now intros st' [= <-].
Qed.

Lemma getById_in_ids g t d :
  Device.getById g t = Some d -> In (Device.id d) (map Device.id t).
Proof.
  intros H. apply getById_spec in H. destruct H as (_ & Hin & _).
  now apply in_map.
Qed.

Lemma dispatch_records_step event now uuid s :
  records_step s (snd (Webhooks.dispatch event now uuid s)).
Proof.
  destruct event as [session | invoice | invoice | sub | sub | sub | ty]; simpl.
  - unfold Webhooks.handleCheckoutSessionCompleted.
    destruct (negb (truthy (Webhooks.metadata_uid session))
              && negb (truthy (Webhooks.metadata_guest_id session)));
      [now apply records_same |].
    destruct (truthy (Webhooks.metadata_uid session)).
    + destruct (UserSubscription.getByUid _ _).
      * apply after_update_records. now intros st [= <-].
      * apply after_create_records; [reflexivity | discriminate].
    + destruct (truthy (Webhooks.metadata_guest_id session));
        [| now apply records_same].
      destruct (Device.getById _ _) as [device |] eqn:Hget;
        [| now apply records_same].
      destruct (UserSubscription.getByDeviceId _ _).
      * apply after_update_records. now intros st [= <-].
      * apply after_create_records; [reflexivity |].
        intros d [= <-]. eapply getById_in_ids; eassumption.
  - unfold Webhooks.handleInvoicePaymentSucceeded, Webhooks.force_status.
    destruct (negb (truthy (Webhooks.invoice_subscription invoice)));
      [now apply records_same |].
    destruct (UserSubscription.getByStripeSubscriptionId _ _);
      [now apply status_update_records | now apply records_same].
  - unfold Webhooks.handleInvoicePaymentFailed, Webhooks.force_status.
    destruct (negb (truthy (Webhooks.invoice_subscription invoice)));
      [now apply records_same |].
    destruct (UserSubscription.getByStripeSubscriptionId _ _);
      [now apply status_update_records | now apply records_same].
  - apply records_same. now rewrite handleSubscriptionCreated_store.
  - unfold Webhooks.handleSubscriptionUpdated.
    destruct (UserSubscription.getByStripeSubscriptionId _ _);
      [| now apply records_same].
    apply status_update_records, status_check_mappedStatus.
  - unfold Webhooks.handleSubscriptionDeleted, Webhooks.force_status.
    destruct (UserSubscription.getByStripeSubscriptionId _ _);
      [now apply status_update_records | now apply records_same].
  - now apply records_same.
Qed.

Lemma three_day_trial_status_check d :
  three_day_trial d -> status_check (Device.subscriptionStatus d) = true.
Proof. intros [-> _]. reflexivity. Qed.

Lemma serve_records_step env req now s :
  Forall three_day_trial (devices s) ->
  records_step s (Service.serve env req now s).
Proof.
  intros Hdev.
  destruct req as [d ud us | u g | u | k g t u us | g u us | v u | a p c o dr | a k
                  | lk0];
    simpl; try (now apply records_same).
  - unfold Paywall.startGuestTrial.
    destruct (negb (Paywall.valid_text d)); [now apply records_same |].
    destruct (Device.getByDeviceId _ _ _); [now apply records_same |].
    destruct (Device.create _ _ _ _ _) as [[device devices'] | e] eqn:Hc;
      [| now apply records_same].
    apply device_create_spec in Hc. destruct Hc as (-> & _).
    cbn [with_devices user_subscriptions].
    destruct (UserSubscription.create _ us now (user_subscriptions s))
      as [[r t'] | e] eqn:E; simpl; [| now apply records_same].
    eapply records_created; [exact E | reflexivity |].
    intros x [= <-]. simpl. rewrite map_app. apply in_or_app. right. now left.
  - unfold Paywall.redeemLicense.
    destruct (Paywall.redeemLicenseSchema _ _ _ _); [now apply records_same |].
    destruct (LicenseKey.getByKey _ _ _) as [lk |]; [| now apply records_same].
    destruct (negb (LicenseKey.isValidForRedemption lk now));
      [now apply records_same |].
    destruct (Paywall.choose_binding u g s) as [response | [bu bd]] eqn:Hb;
      [now apply records_same |].
    destruct (LicenseKey.redeem lk bu bd now (license_keys s))
      as [[lk' | e] keys']; [| now apply records_same].
    cbn [with_license_keys user_subscriptions].
    destruct (UserSubscription.create _ us now (user_subscriptions s))
      as [[r t'] | e] eqn:E; simpl; [| now apply records_same].
    eapply records_created; [exact E | |].
    + unfold Paywall.license_insert. now destruct (truthy bu).
    + apply choose_binding_one_sided in Hb.
      destruct Hb as [(Hu & -> & ->) | (Hu & -> & device & Hget & ->)].
      * unfold Paywall.license_insert. rewrite Hu. discriminate.
      * unfold Paywall.license_insert. simpl. intros x [= <-].
        eapply getById_in_ids; eassumption.
  - unfold Paywall.linkGuest.
    destruct (Device.getById g (devices s)) as [device |] eqn:Hget;
      [| now apply records_same].
    destruct (truthy (Device.linkedUid device)); [now apply records_same |].
    pose proof (linkToUid_result device u (devices s)) as Hr.
    destruct (Device.linkToUid device u (devices s)) as [[device' | e] devices'];
      simpl in Hr; [| now apply records_same].
    rewrite (Hr device' eq_refl). clear Hr.
    assert (Hst : status_check (Device.subscriptionStatus device) = true).
    { apply three_day_trial_status_check. rewrite Forall_forall in Hdev.
      apply Hdev. now destruct (getById_spec _ _ _ Hget) as (_ & Hin & _). }
    cbn [with_devices user_subscriptions].
    destruct (UserSubscription.getByUid u (user_subscriptions s))
      as [subscription |].
    + destruct (is_null _ && negb _); [| now apply records_same].
      pose proof (update_table subscription
                    (UserSubscription.mkUpdate None None None None
                       (Some (Device.subscriptionStatus device))
                       (Some (Device.trialStart device))
                       (Some (Device.trialEnd device)))
                    now (user_subscriptions s)) as Hu.
      assert (Hrec : records_step s
                (with_user_subscriptions (with_devices s devices')
                   (UserSubscription.update_rows (UserSubscription.id subscription)
                      (UserSubscription.mkUpdate None None None None
                         (Some (Device.subscriptionStatus device))
                         (Some (Device.trialStart device))
                         (Some (Device.trialEnd device)))
                      now (user_subscriptions s)))).
      { eapply records_updated; [reflexivity |]. now intros st [= <-]. }
      destruct (UserSubscription.update subscription _ now (user_subscriptions s))
        as [[r | e] t']; simpl in Hu; subst t'; exact Hrec.
    + destruct (UserSubscription.create _ us now (user_subscriptions s))
        as [[r t'] | e] eqn:E; simpl; [| now apply records_same].
      eapply records_created; [exact E | exact Hst | discriminate].
  - unfold Webhooks.stripe. destruct v as [event |]; [| now apply records_same].
    pose proof (dispatch_records_step event now u s) as H.
    now destruct (Webhooks.dispatch event now u s) as [[[] | e] s'].
  - apply records_same. unfold Admin.generateLicenseKeys. by_cases_of_the_handler.
  - apply records_same. unfold Admin.revokeLicense. by_cases_of_the_handler.
Qed.

Lemma records_step_invariant s s' :
  records_step s s' ->
  (forall d, In d (map Device.id (devices s)) -> In d (map Device.id (devices s'))) ->
  (forall r, In r (user_subscriptions s) -> record_ok s r) ->
  forall r, In r (user_subscriptions s') -> record_ok s' r.
Proof.
  intros Hstep Hids Hinv r Hin.
  destruct Hstep as [E | i d now E Hst | ins uuid now r' E Hst Hdev].
  - rewrite E in Hin. destruct (Hinv r Hin) as [H1 H2]. split; auto.
  - rewrite E in Hin. unfold UserSubscription.update_rows in Hin.
    apply in_map_iff in Hin. destruct Hin as (r0 & <- & Hin0).
    destruct (Hinv r0 Hin0) as [H1 H2].
    destruct (UserSubscription.has_id i r0); [| split; auto].
    split; [| simpl; auto].
    simpl. destruct (UserSubscription.u_status d) as [st |]; simpl; auto.
  - apply create_spec in E. destruct E as (E & _ & Er). rewrite E in Hin.
    apply in_app_or in Hin. destruct Hin as [Hin | [<- | []]].
    + destruct (Hinv r Hin) as [H1 H2]. split; auto.
    + rewrite Er. split; simpl; assumption.
Qed.

Lemma reachable_records env plans s :
  Service.reachable env plans s ->
  forall r, In r (user_subscriptions s) -> record_ok s r.
Proof.
  induction 1 as [| s req now Hr IH]; [intros r [] |].
  apply records_step_invariant with s.
  - apply serve_records_step.
    now destruct (reachable_devices_invariant env plans s Hr) as (_ & _ & H).
  - intros d. apply devices_step_ids, serve_devices_step.
  - exact IH.
Qed.

(** X8.  Every row of every store the service can reach passes the CHECK
    constraint of its table: the service never hands the database a status
    that [user_subscriptions] or [devices] refuses.  And every record of a
    guest names a device that exists. *)
Theorem reachable_rows_pass_the_check_constraints :
  forall (env : Env) (plans : list StripePlan.t) (s : Store),
    Service.reachable env plans s ->
    (forall r, In r (user_subscriptions s) ->
       status_check (UserSubscription.status r) = true /\
       forall d, UserSubscription.deviceId r = Some d ->
                 exists device, In device (devices s) /\ Device.id device = d) /\
    (forall d, In d (devices s) ->
       subscription_status_check (Device.subscriptionStatus d) = true).
Proof.
  intros env plans s Hr. split.
  - intros r Hin. destruct (reachable_records env plans s Hr r Hin) as [H1 H2].
    split; [assumption |]. intros d Hd. specialize (H2 d Hd).
    apply in_map_iff in H2. destruct H2 as (device & E & Hdev). eauto.
  - intros d Hin.
    destruct (reachable_devices_invariant env plans s Hr) as (_ & _ & H).
    rewrite Forall_forall in H. destruct (H d Hin) as [-> _]. reflexivity.
Qed.

Lemma reachable_rows_pass_the_check_constraints_witness :
  (forall r, In r (user_subscriptions sample_trial_store) ->
     status_check (UserSubscription.status r) = true /\
     forall d, UserSubscription.deviceId r = Some d ->
               exists device, In device (devices sample_trial_store) /\
                              Device.id device = d) /\
  (forall d, In d (devices sample_trial_store) ->
     subscription_status_check (Device.subscriptionStatus d) = true).
Proof.
  apply (reachable_rows_pass_the_check_constraints sample_env sample_plans
           sample_trial_store).
  exact sample_trial_store_reachable.
Defined.

(** ** A trial from its start to the account *)

Lemma filter_nil {A : Type} (p : A -> bool) (l : list A) :
  (forall x, In x l -> p x = false) -> filter p l = [].
Proof.
  intros H. apply filter_nil_of_existsb.
  destruct (existsb p l) eqn:E; [| reflexivity].
  apply existsb_exists in E. destruct E as (x & Hin & Hp).
  rewrite (H x Hin) in Hp. discriminate.
Qed.

Lemma fresh_device_id uuid t :
  ~ In uuid (map Device.id t) -> existsb (Device.has_id uuid) t = false.
Proof.
  intros H. destruct (existsb (Device.has_id uuid) t) eqn:E; [| reflexivity].
  apply existsb_exists in E. destruct E as (x & Hin & Hx).
  unfold Device.has_id in Hx. apply String.eqb_eq in Hx.
  exfalso. apply H. rewrite <- Hx. now apply in_map.
Qed.

Lemma fresh_subscription_id uuid t :
  ~ In uuid (map UserSubscription.id t) ->
  existsb (UserSubscription.has_id uuid) t = false.
Proof.
  intros H. destruct (existsb (UserSubscription.has_id uuid) t) eqn:E;
    [| reflexivity].
  apply existsb_exists in E. destruct E as (x & Hin & Hx).
  unfold UserSubscription.has_id in Hx. apply String.eqb_eq in Hx.
  exfalso. apply H. rewrite <- Hx. now apply in_map.
Qed.

(** Under UNIQUE, a value that [.single()] does not find is in no row. *)
Lemma unique_single_none {A : Type} (f : A -> string) (k : string) (l : list A) :
  NoDup (map f l) ->
  single (filter (fun r => f r =? k) l) = None ->
  existsb (fun r => f r =? k) l = false.
Proof.
  induction l as [| x l IH]; simpl; [reflexivity |].
  intros Hnd. inversion Hnd as [| ? ? Hx Hnd']; subst.
  destruct (String.eqb_spec (f x) k) as [E | E]; simpl.
  - assert (Hnil : filter (fun r => f r =? k) l = []).
    { apply filter_nil. intros y Hy. apply String.eqb_neq. intros Ey.
      apply Hx. rewrite E, <- Ey. now apply in_map. }
    rewrite Hnil. discriminate.
  - now apply IH.
Qed.

Lemma create_ok ins uuid now table :
  ~ In uuid (map UserSubscription.id table) ->
  UserSubscription.create ins uuid now table =
  Ok (UserSubscription.mk uuid (UserSubscription.i_uid ins)
        (UserSubscription.i_device_id ins) None
        (UserSubscription.i_stripe_customer_id ins)
        (UserSubscription.i_stripe_subscription_id ins)
        (UserSubscription.i_plan_id ins) (UserSubscription.i_status ins)
        (UserSubscription.i_trial_start ins) (UserSubscription.i_trial_end ins)
        now now,
      table ++
      [UserSubscription.mk uuid (UserSubscription.i_uid ins)
        (UserSubscription.i_device_id ins) None
        (UserSubscription.i_stripe_customer_id ins)
        (UserSubscription.i_stripe_subscription_id ins)
        (UserSubscription.i_plan_id ins) (UserSubscription.i_status ins)
        (UserSubscription.i_trial_start ins) (UserSubscription.i_trial_end ins)
        now now]).
Proof.
  intros H. unfold UserSubscription.create.
  now rewrite (fresh_subscription_id _ _ H).
Qed.

Lemma getById_snoc uuid t deviceId createdAt lastSeen linkedUid trialStart
      trialEnd subscriptionStatus :
  existsb (Device.has_id uuid) t = false ->
  Device.getById uuid
    (t ++ [Device.mk uuid deviceId createdAt lastSeen linkedUid trialStart
                     trialEnd subscriptionStatus]) =
  Some (Device.mk uuid deviceId createdAt lastSeen linkedUid trialStart
                  trialEnd subscriptionStatus).
Proof.
  intros H. unfold Device.getById. rewrite filter_app.
  rewrite (filter_nil_of_existsb _ _ H).
  cbn [filter app]. unfold Device.has_id. cbn [Device.id].
  now rewrite String.eqb_refl.
Qed.

Lemma getByDeviceId_snoc d t id uid email stripeCustomerId stripeSubscriptionId
      planId status trialStart trialEnd createdAt updatedAt :
  (forall x, In x t -> col_eq (UserSubscription.deviceId x) d = false) ->
  UserSubscription.getByDeviceId d
    (t ++ [UserSubscription.mk id uid (Some d) email stripeCustomerId
             stripeSubscriptionId planId status trialStart trialEnd createdAt
             updatedAt]) =
  Some (UserSubscription.mk id uid (Some d) email stripeCustomerId
          stripeSubscriptionId planId status trialStart trialEnd createdAt
          updatedAt).
Proof.
  intros H. unfold UserSubscription.getByDeviceId. rewrite filter_app.
  rewrite (filter_nil _ _ H).
  cbn [filter UserSubscription.deviceId col_eq app]. now rewrite String.eqb_refl.
Qed.

Lemma view_of_trial_row (r : UserSubscription.t) (now trial_end : Z) (s : Store) :
  UserSubscription.status r = "trial" ->
  UserSubscription.trialEnd r = Some trial_end ->
  Paywall.view_of r now s =
  Paywall.mkView (if (now <? trial_end)%Z then "trial" else "expired")
                 (Paywall.plan_of r s)
                 (UserSubscription.trialStart r) (Some trial_end) false
                 (now <? trial_end)%Z
                 (if (now <? trial_end)%Z
                  then ceil_div (trial_end - now) MS_PER_DAY else 0)
                 (match UserSubscription.planId r with
                  | Some p => if String.prefix "license_" p then Some p else None
                  | None => None
                  end).
Proof.
  intros Es Ee. unfold Paywall.view_of.
  destruct (trial_row_view r now trial_end Es Ee) as (-> & -> & -> & ->).
  now rewrite Ee.
Qed.

Lemma check_of_trial_row (r : UserSubscription.t) (now trial_end : Z) (s : Store) :
  UserSubscription.status r = "trial" ->
  UserSubscription.trialEnd r = Some trial_end ->
  Paywall.check_of r now s =
  Paywall.mkCheck (if (now <? trial_end)%Z then "trial" else "expired")
                  (Paywall.plan_of r s)
                  (UserSubscription.trialStart r) (Some trial_end)
                  (match UserSubscription.planId r with
                   | Some p =>
                       if String.prefix "license_" p
                       then Some (Paywall.mkCheckLicenseKey p None)
                       else None
                   | None => None
                   end).
Proof.
  intros Es Ee. unfold Paywall.check_of.
  destruct (trial_row_view r now trial_end Es Ee) as (-> & _).
  now rewrite Ee.
Qed.

(** X9.  In every store the service can reach, start-guest-trial for a
    fingerprint that no device has, with ids the database has not used,
    succeeds: it answers with a trial that starts now, ends three days
    later, is running and has three days left, and it inserts one device
    and one entitlement record.  From then on the body of
    check-subscription for the returned guest id is that window, status
    [trial] until the end of the window and [expired] from the end on, no
    plan and no license key. *)
Theorem new_fingerprint_starts_a_three_day_trial :
  forall (env : Env) (plans : list StripePlan.t) (s : Store)
         (fingerprint : option string) (now : Z)
         (uuid_device uuid_subscription : string),
    Service.reachable env plans s ->
    Paywall.valid_text fingerprint = true ->
    Device.getByDeviceId env (or_default fingerprint "") (devices s) = None ->
    uuid_device <> "" ->
    ~ In uuid_device (map Device.id (devices s)) ->
    ~ In uuid_subscription (map UserSubscription.id (user_subscriptions s)) ->
    exists s',
      Paywall.startGuestTrial env fingerprint now uuid_device uuid_subscription s =
        (Paywall.TrialOk
           (Device.mkPublic uuid_device (Some now) (Some (now + Device.TRIAL_MS))
                            "trial" true 3), s') /\
      List.length (devices s') = S (List.length (devices s)) /\
      List.length (user_subscriptions s') = S (List.length (user_subscriptions s)) /\
      forall now',
        Paywall.checkSubscription None (Some uuid_device) now' s' =
        Paywall.CheckOk
          (Paywall.mkCheck
             (if (now' <? now + Device.TRIAL_MS)%Z then "trial" else "expired")
             None (Some now) (Some (now + Device.TRIAL_MS)) None).
Proof.
  intros env plans s f now ud us Hr Hvalid Hget Hne Hud Hus.
  destruct (reachable_devices_invariant env plans s Hr) as (_ & Hhash & _).
  pose proof (reachable_records env plans s Hr) as Hrec.
  unfold Paywall.startGuestTrial. rewrite Hvalid, Hget. cbn [negb].
  unfold Device.create.
  rewrite (fresh_device_id _ _ Hud).
  rewrite (unique_single_none Device.deviceId _ _ Hhash Hget).
  cbn [orb Device.id Device.trialStart Device.trialEnd with_devices
       user_subscriptions].
  rewrite (create_ok _ _ _ _ Hus).
  cbn [UserSubscription.i_uid UserSubscription.i_device_id
       UserSubscription.i_stripe_customer_id
       UserSubscription.i_stripe_subscription_id UserSubscription.i_plan_id
       UserSubscription.i_status UserSubscription.i_trial_start
       UserSubscription.i_trial_end].
  eexists. split; [| split; [| split]].
  - f_equal. f_equal. unfold Device.toPublicJSON, Device.getTrialDaysRemaining,
      Device.isTrialActive.
    cbn [Device.id Device.trialStart Device.trialEnd Device.subscriptionStatus
         is_null].
    replace ("trial" =? "trial") with true by reflexivity. cbn [negb orb].
    replace (now <? now + Device.TRIAL_MS)%Z with true
      by (symmetry; apply Z.ltb_lt; unfold Device.TRIAL_MS; lia).
    cbn [negb]. f_equal.
    replace (now + Device.TRIAL_MS - now) with (3 * MS_PER_DAY)
      by (unfold Device.TRIAL_MS, MS_PER_DAY; lia).
    rewrite ceil_div_days. reflexivity.
  - cbn [devices with_user_subscriptions with_devices].
    rewrite length_app. simpl. lia.
  - cbn [user_subscriptions with_user_subscriptions with_devices].
    rewrite length_app. simpl. lia.
  - intros now'. unfold Paywall.checkSubscription, Paywall.current_subscription.
    cbn [truthy negb andb].
    cbn [devices user_subscriptions with_user_subscriptions with_devices
         or_default].
    apply String.eqb_neq in Hne. rewrite Hne. cbn [negb].
    rewrite getById_snoc by (apply fresh_device_id, Hud).
    cbn [Device.id].
    rewrite getByDeviceId_snoc.
    2:{ intros x Hx. destruct (Hrec x Hx) as [_ Hdev]. unfold col_eq.
        destruct (UserSubscription.deviceId x) as [d |] eqn:Ed; [| reflexivity].
        apply String.eqb_neq. intros ->. apply Hud. now apply Hdev. }
    rewrite (check_of_trial_row _ now' (now + Device.TRIAL_MS)) by reflexivity.
    reflexivity.
Qed.

Lemma new_fingerprint_starts_a_three_day_trial_witness :
  exists s',
    Paywall.startGuestTrial sample_env (Some "fingerprint-2") 5000 "dev-2" "row-2"
                            sample_trial_store =
      (Paywall.TrialOk
         (Device.mkPublic "dev-2" (Some 5000) (Some (5000 + Device.TRIAL_MS))
                          "trial" true 3), s') /\
    List.length (devices s') = S (List.length (devices sample_trial_store)) /\
    List.length (user_subscriptions s') =
      S (List.length (user_subscriptions sample_trial_store)) /\
    forall now',
      Paywall.checkSubscription None (Some "dev-2") now' s' =
      Paywall.CheckOk
        (Paywall.mkCheck
           (if (now' <? 5000 + Device.TRIAL_MS)%Z then "trial" else "expired")
           None (Some 5000) (Some (5000 + Device.TRIAL_MS)) None).
Proof.
  apply (new_fingerprint_starts_a_three_day_trial sample_env sample_plans
           sample_trial_store (Some "fingerprint-2") 5000 "dev-2" "row-2").
  - exact sample_trial_store_reachable.
  - reflexivity.
  - reflexivity.
  - discriminate.
  - vm_compute. intros [H | []]. discriminate.
  - vm_compute. intros [H | []]. discriminate.
Defined.

Lemma device_trial_view (d : Device.t) (now trial_end : Z) :
  Device.subscriptionStatus d = "trial" ->
  Device.trialEnd d = Some trial_end ->
  Device.isTrialActive d now = (now <? trial_end)%Z /\
  Device.getTrialDaysRemaining d now =
    (if (now <? trial_end)%Z then ceil_div (trial_end - now) MS_PER_DAY else 0).
Proof.
  intros Es Ee. unfold Device.getTrialDaysRemaining, Device.isTrialActive.
  rewrite Es, Ee. simpl.
  destruct (Z.ltb_spec now trial_end) as [Hlt | Hge]; simpl; split;
    try reflexivity.
  pose proof (ceil_div_pos (trial_end - now)). lia.
Qed.

Lemma getByUid_snoc u t id deviceId email stripeCustomerId stripeSubscriptionId
      planId status trialStart trialEnd createdAt updatedAt :
  UserSubscription.getByUid u t = None ->
  UserSubscription.getByUid u
    (t ++ [UserSubscription.mk id (Some u) deviceId email stripeCustomerId
             stripeSubscriptionId planId status trialStart trialEnd createdAt
             updatedAt]) =
  Some (UserSubscription.mk id (Some u) deviceId email stripeCustomerId
          stripeSubscriptionId planId status trialStart trialEnd createdAt
          updatedAt).
Proof.
  intros H. unfold UserSubscription.getByUid. rewrite filter_app.
  rewrite (getByUid_none _ _ H).
  cbn [filter UserSubscription.uid col_eq app]. now rewrite String.eqb_refl.
Qed.

(** X10.  In every store the service can reach, link-guest for a device
    that is not linked yet and an account that has no entitlement record
    succeeds, and the account inherits the device's trial: my-subscription
    afterwards reports the device's trial window, status [trial] while the
    device's trial runs and [expired] afterwards, the days the device
    reports, and no plan. *)
Theorem link_guest_hands_the_trial_to_the_account :
  forall (env : Env) (plans : list StripePlan.t) (s : Store)
         (guest_id uid : string) (now : Z) (uuid : string) (device : Device.t),
    Service.reachable env plans s ->
    Device.getById guest_id (devices s) = Some device ->
    truthy (Device.linkedUid device) = false ->
    UserSubscription.getByUid uid (user_subscriptions s) = None ->
    ~ In uuid (map UserSubscription.id (user_subscriptions s)) ->
    exists s1,
      Paywall.linkGuest guest_id uid now uuid s = (Paywall.LinkOk, s1) /\
      forall now',
        Paywall.mySubscription uid now' s1 =
        Paywall.mkView
          (if Device.isTrialActive device now' then "trial" else "expired")
          None (Device.trialStart device) (Device.trialEnd device) false
          (Device.isTrialActive device now')
          (Device.getTrialDaysRemaining device now') None.
Proof.
  intros env plans s g u now us device Hr Hget Hl Hnone Hus.
  destruct (reachable_devices_invariant env plans s Hr) as (_ & _ & Hall).
  destruct (getById_spec _ _ _ Hget) as (_ & Hin & Hid).
  rewrite Forall_forall in Hall. destruct (Hall device Hin) as (Est & ts & Ets & Ete).
  unfold Paywall.linkGuest. rewrite Hget, Hl.
  rewrite linkToUid_ok by now rewrite Hid.
  cbn [with_devices user_subscriptions]. rewrite Hnone.
  rewrite (create_ok _ _ _ _ Hus).
  cbn [UserSubscription.i_uid UserSubscription.i_device_id
       UserSubscription.i_stripe_customer_id
       UserSubscription.i_stripe_subscription_id UserSubscription.i_plan_id
       UserSubscription.i_status UserSubscription.i_trial_start
       UserSubscription.i_trial_end].
  eexists. split; [reflexivity |]. intros now'.
  unfold Paywall.mySubscription.
  cbn [user_subscriptions with_user_subscriptions].
  rewrite getByUid_snoc by assumption.
  destruct (device_trial_view device now' _ Est Ete) as [-> ->].
  rewrite (view_of_trial_row _ now' (ts + Device.TRIAL_MS)) by assumption.
  rewrite Ete. reflexivity.
Qed.

Lemma link_guest_hands_the_trial_to_the_account_witness :
  exists s1,
    Paywall.linkGuest "dev-1" "alice" 2000 "row-2" sample_trial_store =
      (Paywall.LinkOk, s1) /\
    forall now',
      Paywall.mySubscription "alice" now' s1 =
      Paywall.mkView
        (if (now' <? 1000 + Device.TRIAL_MS)%Z then "trial" else "expired")
        None (Some 1000) (Some (1000 + Device.TRIAL_MS)) false
        (now' <? 1000 + Device.TRIAL_MS)%Z
        (Device.getTrialDaysRemaining
           (Device.mk "dev-1" (Device.hashDeviceId sample_env "fingerprint-1")
                      1000 1000 None (Some 1000) (Some (1000 + Device.TRIAL_MS))
                      "trial") now')
        None.
Proof.
  apply (link_guest_hands_the_trial_to_the_account sample_env sample_plans
           sample_trial_store "dev-1" "alice" 2000 "row-2"
           (Device.mk "dev-1" (Device.hashDeviceId sample_env "fingerprint-1")
                      1000 1000 None (Some 1000) (Some (1000 + Device.TRIAL_MS))
                      "trial")).
  - exact sample_trial_store_reachable.
  - reflexivity.
  - reflexivity.
  - reflexivity.
  - vm_compute. intros [H | []]. discriminate.
Defined.

(** X11.  In every store the service can reach, link-guest for a device
    that is not linked yet and an account whose record has no trial start
    succeeds and overwrites the record's status with the device's: whatever
    the status was, also [active] after a checkout, my-subscription
    afterwards reports [trial] while the device's trial runs and [expired]
    afterwards, with the device's trial window; the plan of the record is
    reported as before. *)
Theorem link_guest_overwrites_the_status_of_a_record_without_trial :
  forall (env : Env) (plans : list StripePlan.t) (s : Store)
         (guest_id uid : string) (now : Z) (uuid : string) (device : Device.t)
         (subscription : UserSubscription.t),
    Service.reachable env plans s ->
    Device.getById guest_id (devices s) = Some device ->
    truthy (Device.linkedUid device) = false ->
    UserSubscription.getByUid uid (user_subscriptions s) = Some subscription ->
    UserSubscription.trialStart subscription = None ->
    exists s1,
      Paywall.linkGuest guest_id uid now uuid s = (Paywall.LinkOk, s1) /\
      forall now',
        Paywall.mySubscription uid now' s1 =
        Paywall.mkView
          (if Device.isTrialActive device now' then "trial" else "expired")
          (Paywall.plan_of subscription s)
          (Device.trialStart device) (Device.trialEnd device) false
          (Device.isTrialActive device now')
          (Device.getTrialDaysRemaining device now')
          (Paywall.v_licensePlan (Paywall.view_of subscription now' s)).
Proof.
  intros env plans s g u now us device subscription Hr Hget Hl Hsub Hnull.
  destruct (reachable_devices_invariant env plans s Hr) as (_ & _ & Hall).
  pose proof (reachable_subscription_ids env plans s Hr) as Hids.
  destruct (getById_spec _ _ _ Hget) as (_ & Hin & Hid).
  rewrite Forall_forall in Hall. destruct (Hall device Hin) as (Est & ts & Ets & Ete).
  destruct (getByUid_in _ _ _ Hsub) as [Hsin _].
  unfold Paywall.linkGuest. rewrite Hget, Hl.
  rewrite linkToUid_ok by now rewrite Hid.
  cbn [with_devices user_subscriptions]. rewrite Hsub, Hnull, Ets.
  cbn [is_null negb andb].
  pose proof (update_table subscription
                (UserSubscription.mkUpdate None None None None
                   (Some (Device.subscriptionStatus device))
                   (Some (Some ts)) (Some (Device.trialEnd device)))
                now (user_subscriptions s)) as Ht.
  destruct (update_ok subscription
              (UserSubscription.mkUpdate None None None None
                 (Some (Device.subscriptionStatus device))
                 (Some (Some ts)) (Some (Device.trialEnd device)))
              now (user_subscriptions s) Hids Hsin) as [this' Hok].
  destruct (UserSubscription.update subscription _ now (user_subscriptions s))
    as [[r | e] t']; simpl in Ht, Hok; [| discriminate]. subst t'.
  eexists. split; [reflexivity |]. intros now'.
  unfold Paywall.mySubscription.
  cbn [user_subscriptions with_user_subscriptions].
  rewrite getByUid_update_rows by reflexivity. rewrite Hsub.
  cbn [option_map]. rewrite patched_self.
  destruct (device_trial_view device now' _ Est Ete) as [-> ->].
  rewrite (view_of_trial_row _ now' (ts + Device.TRIAL_MS)).
  - rewrite Ete. reflexivity.
  - simpl. exact Est.
  - simpl. exact Ete.
Qed.

Lemma link_guest_overwrites_the_status_of_a_record_without_trial_witness :
  exists s1,
    Paywall.linkGuest "dev-1" "alice" 4000 "row-3"
      (Service.serve sample_env
         (Service.StartGuestTrial (Some "fingerprint-1") "dev-1" "row-2") 3000
         sample_after_checkout) = (Paywall.LinkOk, s1) /\
    forall now',
      Paywall.v_status (Paywall.mySubscription "alice" now' s1) =
      if (now' <? 3000 + Device.TRIAL_MS)%Z then "trial" else "expired".
Proof.
  destruct (link_guest_overwrites_the_status_of_a_record_without_trial
              sample_env sample_plans
              (Service.serve sample_env
                 (Service.StartGuestTrial (Some "fingerprint-1") "dev-1" "row-2")
                 3000 sample_after_checkout)
              "dev-1" "alice" 4000 "row-3"
              (Device.mk "dev-1" (Device.hashDeviceId sample_env "fingerprint-1")
                         3000 3000 None (Some 3000) (Some (3000 + Device.TRIAL_MS))
                         "trial")
              (UserSubscription.mk "row-1" (Some "alice") None None (Some "cus_1")
                 (Some "sub_1") None "active" None None 2000 2000))
    as (s1 & Hok & Hview).
  - apply Service.reachable_serve.
    apply (Service.reachable_serve sample_env sample_plans
             (empty_store sample_plans)
             (Service.StripeWebhook (Some sample_checkout) "row-1") 2000).
    apply Service.reachable_init.
  - reflexivity.
  - reflexivity.
  - reflexivity.
  - reflexivity.
  - exists s1. split; [exact Hok |]. intros now'. rewrite Hview. reflexivity.
Defined.

(** ** The billing event processor: what it writes *)

Lemma located_update_ok env plans s this d now :
  Service.reachable env plans s ->
  In this (user_subscriptions s) ->
  Webhooks.after_update s
    (UserSubscription.update this d now (user_subscriptions s)) =
  (Ok tt,
   with_user_subscriptions s
     (UserSubscription.update_rows (UserSubscription.id this) d now
                                   (user_subscriptions s))).
Proof.
  intros Hr Hin.
  pose proof (reachable_subscription_ids env plans s Hr) as Hids.
  pose proof (update_table this d now (user_subscriptions s)) as Ht.
  destruct (update_ok this d now (user_subscriptions s) Hids Hin) as [this' Hok].
  destruct (UserSubscription.update this d now (user_subscriptions s))
    as [[r | e] t']; simpl in Ht, Hok; [| discriminate].
  now subst t'.
Qed.

Lemma getByStripeSubscriptionId_in sid table r :
  UserSubscription.getByStripeSubscriptionId sid table = Some r -> In r table.
Proof.
  unfold UserSubscription.getByStripeSubscriptionId. intros H.
  apply single_some in H.
  assert (Hin : In r (filter (fun x => col_eq (UserSubscription.stripeSubscriptionId x) sid)
                             table)) by (rewrite H; now left).
  apply filter_In in Hin. tauto.
Qed.

Lemma force_status_effect env plans s sid st now r :
  Service.reachable env plans s ->
  UserSubscription.getByStripeSubscriptionId sid (user_subscriptions s) = Some r ->
  Webhooks.force_status sid st now s =
    (Ok tt,
     with_user_subscriptions s
       (UserSubscription.update_rows (UserSubscription.id r) (status_update st) now
                                     (user_subscriptions s))) /\
  forall now',
    resolved_by_subscription sid now'
      (with_user_subscriptions s
         (UserSubscription.update_rows (UserSubscription.id r) (status_update st)
                                       now (user_subscriptions s))) =
    Some (UserSubscription.getSubscriptionStatus
            (UserSubscription.apply_update (status_update st) now r) now').
Proof.
  intros Hr Hget. split.
  - unfold Webhooks.force_status. rewrite Hget.
    unfold UserSubscription.updateStatus.
    apply (located_update_ok env plans s r (status_update st) now Hr).
    eapply getByStripeSubscriptionId_in; eassumption.
  - intros now'. unfold resolved_by_subscription.
    cbn [user_subscriptions with_user_subscriptions].
    rewrite getByStripeSubscriptionId_locates, Hget. simpl.
    now rewrite patched_self.
Qed.

(** X12.  In every store the service can reach, for a record located by
    its external subscription id: an invoice-payment-failed event stores
    [past_due], after which the resolver reports [none]; an
    invoice-payment-succeeded event stores [active], after which it reports
    [active]; a subscription-deleted event stores [canceled], after which it
    reports [none].  Each is acknowledged, and updates that record by id
    with the status and nothing else.  An invoice event that carries no
    subscription id, or one that no record has, changes nothing. *)
Theorem payment_events_set_the_access_of_the_located_record :
  forall (env : Env) (plans : list StripePlan.t) (s : Store) (sid : string)
         (r : UserSubscription.t) (invoice_id : string)
         (sub : Webhooks.StripeSubscription) (now : Z) (uuid : string),
    Service.reachable env plans s ->
    sid <> "" ->
    UserSubscription.getByStripeSubscriptionId sid (user_subscriptions s) = Some r ->
    Webhooks.subscription_id sub = sid ->
    let written st :=
      with_user_subscriptions s
        (UserSubscription.update_rows (UserSubscription.id r) (status_update st)
                                      now (user_subscriptions s)) in
    Webhooks.stripe
      (Some (Webhooks.InvoicePaymentFailed (Webhooks.mkInvoice invoice_id (Some sid))))
      now uuid s = (Webhooks.Received, written "past_due") /\
    Webhooks.stripe
      (Some (Webhooks.InvoicePaymentSucceeded
               (Webhooks.mkInvoice invoice_id (Some sid))))
      now uuid s = (Webhooks.Received, written "active") /\
    Webhooks.stripe (Some (Webhooks.CustomerSubscriptionDeleted sub)) now uuid s =
      (Webhooks.Received, written "canceled") /\
    (forall now',
        resolved_by_subscription sid now' (written "past_due") = Some "none" /\
        resolved_by_subscription sid now' (written "active") = Some "active" /\
        resolved_by_subscription sid now' (written "canceled") = Some "none") /\
    (forall invoice,
        Webhooks.invoice_subscription invoice = None \/
        UserSubscription.getByStripeSubscriptionId
          (or_default (Webhooks.invoice_subscription invoice) "")
          (user_subscriptions s) = None ->
        Webhooks.stripe (Some (Webhooks.InvoicePaymentFailed invoice)) now uuid s =
          (Webhooks.Received, s) /\
        Webhooks.stripe (Some (Webhooks.InvoicePaymentSucceeded invoice)) now uuid s =
          (Webhooks.Received, s)).
Proof.
  intros env plans s sid r invoice_id sub now uuid Hr Hne Hget Hsub written.
  assert (Hsid : (sid =? "") = false) by now apply String.eqb_neq.
  split; [| split; [| split; [| split]]].
  - apply stripe_received. simpl. unfold Webhooks.handleInvoicePaymentFailed.
    cbn [Webhooks.invoice_subscription or_default truthy]. rewrite Hsid.
    cbn [negb]. now apply (force_status_effect env plans).
  - apply stripe_received. simpl. unfold Webhooks.handleInvoicePaymentSucceeded.
    cbn [Webhooks.invoice_subscription or_default truthy]. rewrite Hsid.
    cbn [negb]. now apply (force_status_effect env plans).
  - apply stripe_received. simpl. unfold Webhooks.handleSubscriptionDeleted.
    rewrite Hsub. now apply (force_status_effect env plans).
  - intros now'. unfold written.
    rewrite !(proj2 (force_status_effect env plans s sid _ now r Hr Hget)).
    repeat split.
  - intros invoice Hnone. split; apply stripe_received; simpl.
    + unfold Webhooks.handleInvoicePaymentFailed, Webhooks.force_status.
      destruct Hnone as [-> | ->]; [reflexivity |].
      now destruct (negb (truthy (Webhooks.invoice_subscription invoice))).
    + unfold Webhooks.handleInvoicePaymentSucceeded, Webhooks.force_status.
      destruct Hnone as [-> | ->]; [reflexivity |].
      now destruct (negb (truthy (Webhooks.invoice_subscription invoice))).
Qed.

Lemma payment_events_set_the_access_of_the_located_record_witness :
  resolved_by_subscription "sub_1" 9000
    (snd (Webhooks.stripe
            (Some (Webhooks.InvoicePaymentFailed
                     (Webhooks.mkInvoice "in_1" (Some "sub_1"))))
            3000 "row-9" sample_after_checkout)) = Some "none".
Proof.
  destruct (payment_events_set_the_access_of_the_located_record
              sample_env sample_plans sample_after_checkout "sub_1"
              (UserSubscription.mk "row-1" (Some "alice") None None (Some "cus_1")
                 (Some "sub_1") None "active" None None 2000 2000)
              "in_1" (sample_stripe_subscription "canceled") 3000 "row-9")
    as (Hfailed & _ & _ & Hres & _).
  - apply (Service.reachable_serve sample_env sample_plans
             (empty_store sample_plans)
             (Service.StripeWebhook (Some sample_checkout) "row-1") 2000).
    apply Service.reachable_init.
  - discriminate.
  - reflexivity.
  - reflexivity.
  - rewrite Hfailed. apply (Hres 9000).
Defined.

Lemma same_identity_refl r : same_identity r r.
Proof. unfold same_identity. repeat split. Qed.

Lemma Forall2_same_identity_refl t : Forall2 same_identity t t.
Proof. induction t; constructor; [apply same_identity_refl | assumption]. Qed.

Lemma update_rows_same_identity i d now t :
  UserSubscription.u_uid d = None ->
  UserSubscription.u_trial_start d = None ->
  UserSubscription.u_trial_end d = None ->
  Forall2 same_identity t (UserSubscription.update_rows i d now t).
Proof.
  intros Hu Hs He. induction t as [| r t IH]; simpl; constructor; [| exact IH].
  destruct (UserSubscription.has_id i r); [| apply same_identity_refl].
  unfold same_identity. simpl. rewrite Hu, Hs, He. repeat split.
Qed.

(** What a billing event does to the entitlement table. *)
Lemma dispatch_effect event now uuid s :
  let t := user_subscriptions s in
  let t' := user_subscriptions (snd (Webhooks.dispatch event now uuid s)) in
  t' = t \/
  (exists i d,
      t' = UserSubscription.update_rows i d now t /\
      UserSubscription.u_uid d = None /\
      UserSubscription.u_trial_start d = None /\
      UserSubscription.u_trial_end d = None) \/
  (exists session ins,
      event = Webhooks.CheckoutSessionCompleted session /\
      UserSubscription.i_status ins = "active" /\
      UserSubscription.i_trial_start ins = None /\
      UserSubscription.i_trial_end ins = None /\
      UserSubscription.create ins uuid now t =
        Ok (UserSubscription.mk uuid (UserSubscription.i_uid ins)
              (UserSubscription.i_device_id ins) None
              (UserSubscription.i_stripe_customer_id ins)
              (UserSubscription.i_stripe_subscription_id ins)
              (UserSubscription.i_plan_id ins) "active" None None now now, t')).
Proof.
  cbv zeta.
  assert (Hupd : forall this d,
             UserSubscription.u_uid d = None ->
             UserSubscription.u_trial_start d = None ->
             UserSubscription.u_trial_end d = None ->
             let t' := user_subscriptions
                         (snd (Webhooks.after_update s
                                 (UserSubscription.update this d now
                                    (user_subscriptions s)))) in
             t' = user_subscriptions s \/
             (exists i d,
                 t' = UserSubscription.update_rows i d now (user_subscriptions s) /\
                 UserSubscription.u_uid d = None /\
                 UserSubscription.u_trial_start d = None /\
                 UserSubscription.u_trial_end d = None) \/
             (exists session ins,
                 event = Webhooks.CheckoutSessionCompleted session /\
                 UserSubscription.i_status ins = "active" /\
                 UserSubscription.i_trial_start ins = None /\
                 UserSubscription.i_trial_end ins = None /\
                 UserSubscription.create ins uuid now (user_subscriptions s) =
                   Ok (UserSubscription.mk uuid (UserSubscription.i_uid ins)
                         (UserSubscription.i_device_id ins) None
                         (UserSubscription.i_stripe_customer_id ins)
                         (UserSubscription.i_stripe_subscription_id ins)
                         (UserSubscription.i_plan_id ins) "active" None None
                         now now, t'))).
  { intros this d Hu Hs He. cbv zeta. right. left.
    rewrite after_update_store, update_table. simpl. eauto 6. }
  destruct event as [session | invoice | invoice | sub | sub | sub | ty]; simpl.
  - unfold Webhooks.handleCheckoutSessionCompleted.
    destruct (negb (truthy (Webhooks.metadata_uid session))
              && negb (truthy (Webhooks.metadata_guest_id session)));
      [now left |].
    assert (Hcre : forall ins,
               UserSubscription.i_status ins = "active" ->
               UserSubscription.i_trial_start ins = None ->
               UserSubscription.i_trial_end ins = None ->
               let t' := user_subscriptions
                           (snd (Webhooks.after_create s
                                   (UserSubscription.create ins uuid now
                                      (user_subscriptions s)))) in
               t' = user_subscriptions s \/
               (exists i d,
                   t' = UserSubscription.update_rows i d now (user_subscriptions s) /\
                   UserSubscription.u_uid d = None /\
                   UserSubscription.u_trial_start d = None /\
                   UserSubscription.u_trial_end d = None) \/
               (exists session' ins',
                   Webhooks.CheckoutSessionCompleted session =
                     Webhooks.CheckoutSessionCompleted session' /\
                   UserSubscription.i_status ins' = "active" /\
                   UserSubscription.i_trial_start ins' = None /\
                   UserSubscription.i_trial_end ins' = None /\
                   UserSubscription.create ins' uuid now (user_subscriptions s) =
                     Ok (UserSubscription.mk uuid (UserSubscription.i_uid ins')
                           (UserSubscription.i_device_id ins') None
                           (UserSubscription.i_stripe_customer_id ins')
                           (UserSubscription.i_stripe_subscription_id ins')
                           (UserSubscription.i_plan_id ins') "active" None None
                           now now, t'))).
    { intros ins Hst Hs He. cbv zeta.
      destruct (UserSubscription.create ins uuid now (user_subscriptions s))
        as [[r t'] | e] eqn:E; simpl; [| now left].
      right. right. exists session, ins.
      pose proof (create_spec _ _ _ _ _ _ E) as (_ & _ & Er).
      rewrite Hst, Hs, He in Er. rewrite E, Er. auto 6. }
    destruct (truthy (Webhooks.metadata_uid session)).
    + destruct (UserSubscription.getByUid _ _);
        [now apply Hupd | now apply Hcre].
    + destruct (truthy (Webhooks.metadata_guest_id session)); [| now left].
      destruct (Device.getById _ _); [| now left].
      destruct (UserSubscription.getByDeviceId _ _);
        [now apply Hupd | now apply Hcre].
  - unfold Webhooks.handleInvoicePaymentSucceeded, Webhooks.force_status.
    destruct (negb (truthy (Webhooks.invoice_subscription invoice)));
      [now left |].
    destruct (UserSubscription.getByStripeSubscriptionId _ _);
      [now apply Hupd | now left].
  - unfold Webhooks.handleInvoicePaymentFailed, Webhooks.force_status.
    destruct (negb (truthy (Webhooks.invoice_subscription invoice)));
      [now left |].
    destruct (UserSubscription.getByStripeSubscriptionId _ _);
      [now apply Hupd | now left].
  - left. now rewrite handleSubscriptionCreated_store.
  - unfold Webhooks.handleSubscriptionUpdated.
    destruct (UserSubscription.getByStripeSubscriptionId _ _);
      [now apply Hupd | now left].
  - unfold Webhooks.handleSubscriptionDeleted, Webhooks.force_status.
    destruct (UserSubscription.getByStripeSubscriptionId _ _);
      [now apply Hupd | now left].
  - now left.
Qed.

Lemma stripe_store verified now uuid s :
  snd (Webhooks.stripe verified now uuid s) =
  match verified with
  | Some event => snd (Webhooks.dispatch event now uuid s)
  | None => s
  end.
Proof.
  unfold Webhooks.stripe. destruct verified as [event |]; [| reflexivity].
  now destruct (Webhooks.dispatch event now uuid s) as [[[] | e] s'].
Qed.

(** X13.  Whatever is posted to the billing webhook, the handler leaves
    the devices, the license keys and the plan catalogue as they are, and
    keeps every entitlement record in its place with its id, uid, device
    id, email, trial start, trial end and creation time: it writes only the
    customer id, the subscription id, the plan and the status.  It inserts
    at most one record, and only for a checkout-completed event: one that
    is [active] and has no trial window.  With a signature that does not
    verify, and for an event type it does not handle, it changes nothing. *)
Theorem billing_events_write_billing_columns_only :
  forall (verified : option Webhooks.Event) (now : Z) (uuid : string) (s : Store),
    devices (snd (Webhooks.stripe verified now uuid s)) = devices s /\
    license_keys (snd (Webhooks.stripe verified now uuid s)) = license_keys s /\
    stripe_plans (snd (Webhooks.stripe verified now uuid s)) = stripe_plans s /\
    (exists kept fresh,
        user_subscriptions (snd (Webhooks.stripe verified now uuid s)) =
          kept ++ fresh /\
        Forall2 same_identity (user_subscriptions s) kept /\
        (fresh = [] \/
         exists session r,
           verified = Some (Webhooks.CheckoutSessionCompleted session) /\
           fresh = [r] /\
           UserSubscription.id r = uuid /\
           UserSubscription.status r = "active" /\
           UserSubscription.trialStart r = None /\
           UserSubscription.trialEnd r = None)) /\
    Webhooks.stripe None now uuid s = (Webhooks.InvalidSignature, s) /\
    (forall type,
        Webhooks.stripe (Some (Webhooks.Unhandled type)) now uuid s =
        (Webhooks.Received, s)).
Proof.
  intros verified now uuid s.
  split; [apply stripe_devices |]. split; [apply stripe_license_keys |].
  split; [| split; [| split; reflexivity]].
  - rewrite stripe_store. destruct verified; [apply dispatch_plans | reflexivity].
  - rewrite stripe_store. destruct verified as [event |].
    + destruct (dispatch_effect event now uuid s)
        as [E | [(i & d & E & Hu & Hs & He)
                | (session & ins & -> & Hst & Hts & Hte & E)]].
      * exists (user_subscriptions s), []. rewrite E, app_nil_r.
        split; [reflexivity |]. split; [apply Forall2_same_identity_refl | now left].
      * exists (UserSubscription.update_rows i d now (user_subscriptions s)), [].
        rewrite E, app_nil_r. split; [reflexivity |].
        split; [now apply update_rows_same_identity | now left].
      * apply create_spec in E. destruct E as (E & _ & _).
        eexists (user_subscriptions s), [_]. split; [exact E |].
        split; [apply Forall2_same_identity_refl |]. right.
        eexists session, _. split; [reflexivity |]. split; [reflexivity |].
        repeat split.
    + exists (user_subscriptions s), []. rewrite app_nil_r.
      split; [reflexivity |]. split; [apply Forall2_same_identity_refl | now left].
Qed.

(** ** The order of the billing events *)

Lemma checkout_creates_the_record session u now uuid s :
  u <> "" ->
  Webhooks.metadata_uid session = Some u ->
  UserSubscription.getByUid u (user_subscriptions s) = None ->
  ~ In uuid (map UserSubscription.id (user_subscriptions s)) ->
  snd (Webhooks.stripe (Some (Webhooks.CheckoutSessionCompleted session))
                       now uuid s) =
  with_user_subscriptions s
    (user_subscriptions s ++
     [UserSubscription.mk uuid (Some u) None None
        (Webhooks.session_customer session)
        (Webhooks.session_subscription session) None "active" None None
        now now]).
Proof.
  intros Hne Hmeta Hnone Hfresh. rewrite stripe_store. simpl.
  unfold Webhooks.handleCheckoutSessionCompleted. rewrite Hmeta.
  apply String.eqb_neq in Hne. cbn [truthy or_default]. rewrite Hne.
  cbn [negb andb]. rewrite Hnone. rewrite (create_ok _ _ _ _ Hfresh).
  reflexivity.
Qed.

Lemma getByStripeCustomerId_none c table :
  UserSubscription.getByStripeCustomerId c table = None ->
  filter (fun r => col_eq (UserSubscription.stripeCustomerId r) c) table = [].
Proof. unfold UserSubscription.getByStripeCustomerId. apply latest_none. Qed.

Lemma getByStripeCustomerId_snoc c t id uid deviceId email stripeSubscriptionId
      planId status trialStart trialEnd createdAt updatedAt :
  UserSubscription.getByStripeCustomerId c t = None ->
  UserSubscription.getByStripeCustomerId c
    (t ++ [UserSubscription.mk id uid deviceId email (Some c)
             stripeSubscriptionId planId status trialStart trialEnd createdAt
             updatedAt]) =
  Some (UserSubscription.mk id uid deviceId email (Some c)
          stripeSubscriptionId planId status trialStart trialEnd createdAt
          updatedAt).
Proof.
  intros H. unfold UserSubscription.getByStripeCustomerId. rewrite filter_app.
  rewrite (getByStripeCustomerId_none _ _ H).
  cbn [filter UserSubscription.stripeCustomerId col_eq app].
  now rewrite String.eqb_refl.
Qed.

(** X14.  A subscription-created event that names a price is answered
    500 and writes nothing, whatever the store holds: the handler fails on
    the [undefined] that its [require] of the plan model destructures.  So
    the plan of a purchase is not stored: after the two events of a first
    purchase by an account without a record, in whichever order Stripe
    delivers them, the record that the checkout created has no plan, and
    my-subscription reports [active] with no plan. *)
Theorem purchased_plan_is_not_stored :
  forall (s : Store) (u : string) (session : Webhooks.Session)
         (sub : Webhooks.StripeSubscription) (price : string)
         (now1 now2 : Z) (uuid1 uuid2 : string),
    u <> "" ->
    Webhooks.metadata_uid session = Some u ->
    Webhooks.price_id sub = Some price ->
    price <> "" ->
    UserSubscription.getByUid u (user_subscriptions s) = None ->
    ~ In uuid1 (map UserSubscription.id (user_subscriptions s)) ->
    let checkout := Some (Webhooks.CheckoutSessionCompleted session) in
    let created := Some (Webhooks.CustomerSubscriptionCreated sub) in
    let in_order :=
      snd (Webhooks.stripe created now2 uuid2
             (snd (Webhooks.stripe checkout now1 uuid1 s))) in
    let reversed :=
      snd (Webhooks.stripe checkout now2 uuid1
             (snd (Webhooks.stripe created now1 uuid2 s))) in
    (forall now uuid s0,
        Webhooks.stripe created now uuid s0 = (Webhooks.ProcessingFailed, s0)) /\
    UserSubscription.getByUid u (user_subscriptions in_order) =
      Some (UserSubscription.mk uuid1 (Some u) None None
              (Webhooks.session_customer session)
              (Webhooks.session_subscription session)
              None "active" None None now1 now1) /\
    UserSubscription.getByUid u (user_subscriptions reversed) =
      Some (UserSubscription.mk uuid1 (Some u) None None
              (Webhooks.session_customer session)
              (Webhooks.session_subscription session)
              None "active" None None now2 now2) /\
    forall now',
      Paywall.mySubscription u now' in_order =
        Paywall.mkView "active" None None None true false 0 None /\
      Paywall.mySubscription u now' reversed =
        Paywall.mkView "active" None None None true false 0 None.
Proof.
  intros s u session sub price now1 now2 uuid1 uuid2
         Hu Hmeta Hprice Hpne Hnone Hfresh checkout created in_order reversed.
  assert (Hfail : forall now uuid s0,
             Webhooks.stripe created now uuid s0 = (Webhooks.ProcessingFailed, s0)).
  { intros now uuid s0. unfold created, Webhooks.stripe, Webhooks.dispatch,
      Webhooks.handleSubscriptionCreated.
    rewrite Hprice. apply String.eqb_neq in Hpne. cbn [truthy]. rewrite Hpne.
    reflexivity. }
  assert (Hrow : forall now,
             UserSubscription.getByUid u
               (user_subscriptions s ++
                [UserSubscription.mk uuid1 (Some u) None None
                   (Webhooks.session_customer session)
                   (Webhooks.session_subscription session) None "active" None
                   None now now]) =
             Some (UserSubscription.mk uuid1 (Some u) None None
                     (Webhooks.session_customer session)
                     (Webhooks.session_subscription session) None "active" None
                     None now now)).
  { intros now. now apply getByUid_snoc. }
  assert (Hin : user_subscriptions in_order =
                user_subscriptions s ++
                [UserSubscription.mk uuid1 (Some u) None None
                   (Webhooks.session_customer session)
                   (Webhooks.session_subscription session) None "active" None
                   None now1 now1]).
  { unfold in_order. rewrite Hfail. cbn [snd]. unfold checkout.
    now rewrite (checkout_creates_the_record session u now1 uuid1 s
                   Hu Hmeta Hnone Hfresh). }
  assert (Hrev : user_subscriptions reversed =
                 user_subscriptions s ++
                 [UserSubscription.mk uuid1 (Some u) None None
                    (Webhooks.session_customer session)
                    (Webhooks.session_subscription session) None "active" None
                    None now2 now2]).
  { unfold reversed. rewrite Hfail. cbn [snd]. unfold checkout.
    now rewrite (checkout_creates_the_record session u now2 uuid1 s
                   Hu Hmeta Hnone Hfresh). }
  split; [exact Hfail |].
  split; [now rewrite Hin, Hrow |]. split; [now rewrite Hrev, Hrow |].
  intros now'. unfold Paywall.mySubscription.
  rewrite Hin, Hrev, !Hrow. split; reflexivity.
Qed.

Lemma purchased_plan_is_not_stored_witness :
  let checkout := Some sample_checkout in
  let created :=
    Some (Webhooks.CustomerSubscriptionCreated
            (sample_stripe_subscription "active")) in
  Webhooks.stripe created 1000 "row-2" (empty_store sample_plans) =
    (Webhooks.ProcessingFailed, empty_store sample_plans) /\
  Paywall.mySubscription "alice" 9000
    (snd (Webhooks.stripe created 2000 "row-2"
            (snd (Webhooks.stripe checkout 1000 "row-1"
                    (empty_store sample_plans))))) =
    Paywall.mkView "active" None None None true false 0 None /\
  Paywall.mySubscription "alice" 9000
    (snd (Webhooks.stripe checkout 2000 "row-1"
            (snd (Webhooks.stripe created 1000 "row-2"
                    (empty_store sample_plans))))) =
    Paywall.mkView "active" None None None true false 0 None.
Proof.
  assert (H : "alice" <> "" /\ "price_monthly_pro" <> "" /\
              ~ In "row-1" (map UserSubscription.id
                              (user_subscriptions (empty_store sample_plans)))).
  { split; [discriminate |]. split; [discriminate | intros []]. }
  destruct H as (Hu & Hp & Hfresh).
  destruct (purchased_plan_is_not_stored
              (empty_store sample_plans) "alice"
              (Webhooks.mkSession "cs_1" (Some "alice") None (Some "cus_1")
                                  (Some "sub_1"))
              (sample_stripe_subscription "active") "price_monthly_pro"
              1000 2000 "row-1" "row-2" Hu eq_refl eq_refl Hp eq_refl Hfresh)
    as (Hfail & _ & _ & Hmy).
  split; [apply Hfail |]. apply (Hmy 9000).
Defined.

(** ** A batch of license keys *)

Lemma unique_filter {A : Type} (f : A -> string) (l : list A) (x : A) :
  NoDup (map f l) -> In x l -> filter (fun r => f r =? f x) l = [x].
Proof.
  induction l as [| y l IH]; simpl; [contradiction |].
  intros Hnd Hin. inversion Hnd as [| ? ? Hy Hnd']; subst.
  destruct Hin as [-> | Hin].
  - rewrite String.eqb_refl. f_equal. apply filter_nil.
    intros z Hz. apply String.eqb_neq. intros E. apply Hy. rewrite <- E.
    now apply in_map.
  - destruct (String.eqb_spec (f y) (f x)) as [E | E].
    + exfalso. apply Hy. rewrite E. now apply in_map.
    + now apply IH.
Qed.

Lemma insert_row hashedKey plan_id o uuid now table r table' :
  LicenseKey.insert hashedKey plan_id o uuid now table = Ok (r, table') ->
  table' = table ++ [r] /\
  r = LicenseKey.mk uuid hashedKey plan_id (LicenseKey.o_expiresAt o)
                    (LicenseKey.single_use_flag o) None None None
                    (LicenseKey.o_createdBy o) now /\
  ~ In hashedKey (map LicenseKey.key table).
Proof.
  unfold LicenseKey.insert.
  destruct (existsb (LicenseKey.has_id uuid) table); simpl; [discriminate |].
  destruct (existsb (fun r0 => LicenseKey.key r0 =? hashedKey) table) eqn:E;
    [discriminate |].
  intros [= <- <-]. repeat split. intros Hin.
  apply in_map_iff in Hin. destruct Hin as (x & Ex & Hx).
  assert (existsb (fun r0 => LicenseKey.key r0 =? hashedKey) table = true);
    [| congruence].
  apply existsb_exists. exists x. split; [assumption |]. now apply String.eqb_eq.
Qed.

Lemma createMultiple_from_ok env plan_id o draws now count :
  forall i table rows plaintexts table',
    NoDup (map LicenseKey.key table) ->
    LicenseKey.createMultiple_from env i plan_id count o draws now table =
      (Ok (rows, plaintexts), table') ->
    table' = table ++ rows /\
    plaintexts = map (fun j => LicenseKey.generateKey (fst (draws j))) (seq i count) /\
    rows = map (fun j =>
                  LicenseKey.mk (snd (draws j))
                    (LicenseKey.hashKey env (LicenseKey.generateKey (fst (draws j))))
                    plan_id (LicenseKey.o_expiresAt o)
                    (LicenseKey.single_use_flag o) None None None
                    (LicenseKey.o_createdBy o) now) (seq i count) /\
    NoDup (map LicenseKey.key (table ++ rows)).
Proof.
  induction count as [| count IH]; intros i table rows plaintexts table' Hnd; simpl.
  - intros [= <- <- <-]. rewrite app_nil_r. auto.
  - destruct (LicenseKey.insert _ plan_id o (snd (draws i)) now table)
      as [[r t1] | e] eqn:E; [| discriminate].
    destruct (LicenseKey.createMultiple_from env (S i) plan_id count o draws now t1)
      as [[[ks ps] | e] t2] eqn:E2; [| discriminate].
    intros [= <- <- <-].
    apply insert_row in E. destruct E as (-> & Er & Hfresh).
    assert (Hnd1 : NoDup (map LicenseKey.key (table ++ [r]))).
    { rewrite map_app. simpl. apply NoDup_snoc; [assumption |]. now rewrite Er. }
    destruct (IH _ _ _ _ _ Hnd1 E2) as (-> & -> & -> & Hnd2).
    rewrite <- app_assoc in Hnd2. simpl in Hnd2.
    rewrite <- app_assoc. simpl. subst r. auto.
Qed.

Lemma combine_map_seq {A B : Type} (f : nat -> A) (g : nat -> B) (l : list nat)
      (a : A) (b : B) :
  In (a, b) (combine (map f l) (map g l)) -> exists j, In j l /\ a = f j /\ b = g j.
Proof.
  induction l as [| x l IH]; simpl; [contradiction |].
  intros [[= <- <-] | H]; [eauto |].
  destruct (IH H) as (j & Hj & Ha & Hb). eauto.
Qed.

(** X15.  When [createMultiple] succeeds on a table whose keys are
    distinct, the plaintext keys it returns are the [count] keys drawn, in
    the order drawn, and no two of them are equal; the table has grown by
    one row for each, which stores the digest of the plaintext and not the
    plaintext; and [getByKey] of each returned plaintext finds its row,
    which is unredeemed, unbound, of the plan asked for, and valid for
    redemption until it expires. *)
Theorem generated_batch_is_redeemable :
  forall (env : Env) (plan_id : string) (count : nat) (o : LicenseKey.Options)
         (draws : nat -> (nat -> byte * byte) * string) (now : Z)
         (table rows : list LicenseKey.t) (plaintexts : list string)
         (table' : list LicenseKey.t),
    NoDup (map LicenseKey.key table) ->
    LicenseKey.createMultiple env plan_id count o draws now table =
      (Ok (rows, plaintexts), table') ->
    table' = table ++ rows /\
    plaintexts =
      map (fun j => LicenseKey.generateKey (fst (draws j))) (seq 0 count) /\
    List.length rows = count /\
    NoDup plaintexts /\
    forall k row,
      In (k, row) (combine plaintexts rows) ->
      LicenseKey.getByKey env k table' = Some row /\
      LicenseKey.key row = LicenseKey.hashKey env k /\
      LicenseKey.planId row = plan_id /\
      LicenseKey.expiresAt row = LicenseKey.o_expiresAt o /\
      LicenseKey.isRedeemed row = false /\
      LicenseKey.getBoundInfo row = None /\
      forall now',
        LicenseKey.isValidForRedemption row now' =
        negb (LicenseKey.isExpired row now').
Proof.
  intros env plan count o draws now table rows plaintexts table' Hnd H.
  unfold LicenseKey.createMultiple in H.
  destruct (createMultiple_from_ok _ _ _ _ _ _ _ _ _ _ _ Hnd H)
    as (Et & Ep & Er & Hkeys).
  split; [assumption |]. split; [assumption |].
  split; [rewrite Er, length_map; apply length_seq |].
  assert (Hrows : NoDup (map LicenseKey.key rows)).
  { rewrite map_app in Hkeys. now apply NoDup_app_remove_l in Hkeys. }
  split.
  { rewrite Er, map_map in Hrows. simpl in Hrows.
    rewrite Ep.
    rewrite <- (map_map (fun j => LicenseKey.generateKey (fst (draws j)))
                        (LicenseKey.hashKey env)) in Hrows.
    now apply NoDup_map_inv in Hrows. }
  intros k row Hin. rewrite Ep, Er in Hin.
  apply combine_map_seq in Hin. destruct Hin as (j & Hj & -> & Erow).
  assert (Hrow : In row rows).
  { rewrite Er, Erow. apply in_map_iff. eauto. }
  assert (Hkey : LicenseKey.key row =
                 LicenseKey.hashKey env (LicenseKey.generateKey (fst (draws j)))).
  { now rewrite Erow. }
  split.
  { unfold LicenseKey.getByKey. rewrite <- Hkey, Et.
    rewrite (unique_filter LicenseKey.key _ row Hkeys); [reflexivity |].
    apply in_or_app. now right. }
  rewrite Erow. repeat split.
Qed.

Lemma generated_batch_is_redeemable_witness :
  LicenseKey.getByKey sample_env sample_key [sample_fresh_key] =
  Some sample_fresh_key.
Proof.
  apply (generated_batch_is_redeemable sample_env "pro_monthly" 1
           (LicenseKey.mkOptions None None (Some "ops"))
           (fun _ => (source_of [x0a; x1b; x2c; x3d; x4e; x5f], "key-1")) 10
           [] [sample_fresh_key] [sample_key] [sample_fresh_key]).
  - constructor.
  - reflexivity.
  - now left.
Defined.

Lemma createMultiple_from_throw env plan_id o draws now count :
  forall i table e table',
    LicenseKey.createMultiple_from env i plan_id count o draws now table =
      (Throw e, table') ->
    exists n,
      (n < count)%nat /\
      table' =
        table ++
        map (fun j =>
               LicenseKey.mk (snd (draws j))
                 (LicenseKey.hashKey env (LicenseKey.generateKey (fst (draws j))))
                 plan_id (LicenseKey.o_expiresAt o)
                 (LicenseKey.single_use_flag o) None None None
                 (LicenseKey.o_createdBy o) now) (seq i n) /\
      (In (snd (draws (i + n)%nat)) (map LicenseKey.id table') \/
       In (LicenseKey.hashKey env
             (LicenseKey.generateKey (fst (draws (i + n)%nat))))
          (map LicenseKey.key table')).
Proof.
  induction count as [| count IH]; intros i table e table'; simpl;
    [discriminate |].
  destruct (LicenseKey.insert _ plan_id o (snd (draws i)) now table)
    as [[r t1] | e1] eqn:E.
  - destruct (LicenseKey.createMultiple_from env (S i) plan_id count o draws now t1)
      as [[[ks ps] | e2] t2] eqn:E2; [discriminate |].
    intros [= <- <-]. apply insert_row in E. destruct E as (-> & Er & _).
    destruct (IH _ _ _ _ E2) as (n & Hn & -> & Hwhy).
    exists (S n). split; [lia |]. split.
    + rewrite <- app_assoc. simpl. now subst r.
    + now replace (i + S n)%nat with (S i + n)%nat by lia.
  - intros [= <- <-]. exists 0%nat. split; [lia |]. split.
    + simpl. now rewrite app_nil_r.
    + rewrite Nat.add_0_r. unfold LicenseKey.insert in E.
      destruct (existsb (LicenseKey.has_id (snd (draws i))) table) eqn:E1.
      * left. apply existsb_exists in E1. destruct E1 as (x & Hx & Ex).
        unfold LicenseKey.has_id in Ex. apply String.eqb_eq in Ex.
        rewrite <- Ex. now apply in_map.
      * simpl in E.
        destruct (existsb (fun r0 => LicenseKey.key r0 =?
                                       LicenseKey.hashKey env
                                         (LicenseKey.generateKey (fst (draws i))))
                          table) eqn:E2; [| discriminate].
        right. apply existsb_exists in E2. destruct E2 as (x & Hx & Ex).
        apply String.eqb_eq in Ex. rewrite <- Ex. now apply in_map.
Qed.

(** X16.  A batch is not all or nothing.  When generate-license-keys
    answers 500, the keys inserted before the failing round stay in the
    table, unredeemed, and their plaintexts are sent to nobody; the round
    failed because the id or the digest it drew is already in the table.
    The devices, the entitlement records and the plans are as they
    were. *)
Theorem failed_batch_keeps_the_keys_inserted_before :
  forall (env : Env) (x_admin_key : option string) (plan_id : string)
         (count : nat) (o : LicenseKey.Options)
         (draws : nat -> (nat -> byte * byte) * string) (now : Z) (s s' : Store),
    Admin.generateLicenseKeys env x_admin_key plan_id count o draws now s =
      (Admin.Failed, s') ->
    exists n,
      (n < count)%nat /\
      license_keys s' =
        license_keys s ++
        map (fun j =>
               LicenseKey.mk (snd (draws j))
                 (LicenseKey.hashKey env (LicenseKey.generateKey (fst (draws j))))
                 plan_id (LicenseKey.o_expiresAt o)
                 (LicenseKey.single_use_flag o) None None None
                 (LicenseKey.o_createdBy o) now) (seq 0 n) /\
      (In (snd (draws n)) (map LicenseKey.id (license_keys s')) \/
       In (LicenseKey.hashKey env (LicenseKey.generateKey (fst (draws n))))
          (map LicenseKey.key (license_keys s'))) /\
      devices s' = devices s /\
      user_subscriptions s' = user_subscriptions s /\
      stripe_plans s' = stripe_plans s.
Proof.
  intros env a p c o dr now s s'. unfold Admin.generateLicenseKeys.
  destruct (negb (Admin.adminAuth env a)); [discriminate |].
  destruct (Nat.ltb c 1 || Nat.ltb 1000 c); [discriminate |].
  destruct (StripePlan.getByPlanKey p (stripe_plans s)); [| discriminate].
  unfold LicenseKey.createMultiple.
  destruct (LicenseKey.createMultiple_from env 0 p c o dr now (license_keys s))
    as [[[ks ps] | e] keys'] eqn:E; [discriminate |].
  intros [= <-].
  destruct (createMultiple_from_throw _ _ _ _ _ _ _ _ _ _ E) as (n & Hn & Ht & Hwhy).
  exists n. simpl. auto 7.
Qed.

Lemma failed_batch_keeps_the_keys_inserted_before_witness :
  exists n,
    (n < 2)%nat /\
    license_keys
      (snd (Admin.generateLicenseKeys sample_env (Some "admin") "pro_monthly" 2
              (LicenseKey.mkOptions None None (Some "ops"))
              (fun _ => (source_of [x0a; x1b; x2c; x3d; x4e; x5f], "key-1")) 10
              (empty_store sample_plans))) =
    [] ++ map (fun _ => sample_fresh_key) (seq 0 n).
Proof.
  destruct (failed_batch_keeps_the_keys_inserted_before
              sample_env (Some "admin") "pro_monthly" 2
              (LicenseKey.mkOptions None None (Some "ops"))
              (fun _ => (source_of [x0a; x1b; x2c; x3d; x4e; x5f], "key-1")) 10
              (empty_store sample_plans)
              (mkStore [] [] [sample_fresh_key] sample_plans))
    as (n & Hn & Ht & _).
  - reflexivity.
  - exists n. split; [exact Hn |]. change (license_keys _) with [sample_fresh_key].
    simpl in Ht. exact Ht.
Defined.

(** ** Redemption, from the answer to the access *)

Lemma keys_effect_unredeemed keys keys' kind :
  keys_effect keys keys' kind ->
  Forall unredeemed_unbound keys -> Forall unredeemed_unbound keys'.
Proof.
  intros [kind' -> | fresh -> Hfresh _ | lk bu bd now _ _ _ -> | lk now _ ->] Hall.
  - assumption.
  - apply Forall_app. split; [assumption |].
    eapply Forall_impl; [| exact Hfresh].
    intros x (Hu & Hd & _) _. now split.
  - rewrite key_update_rows_map. apply Forall_map.
    eapply Forall_impl; [| exact Hall]. intros x Hx. unfold key_patched.
    destruct (LicenseKey.has_id _ x); [discriminate | exact Hx].
  - rewrite key_update_rows_map. apply Forall_map.
    eapply Forall_impl; [| exact Hall]. intros x Hx. unfold key_patched.
    destruct (LicenseKey.has_id _ x); [discriminate | exact Hx].
Qed.

Lemma reachable_unredeemed_unbound env plans s :
  Service.reachable env plans s -> Forall unredeemed_unbound (license_keys s).
Proof.
  induction 1 as [| s req now _ IH]; simpl; [constructor |].
  eapply keys_effect_unredeemed; [apply serve_keys_effect | exact IH].
Qed.

Lemma redeemLicense_answer env k g t u now uuid s body s' :
  Paywall.redeemLicense env k g t u now uuid s = (Paywall.RedeemOk body, s') ->
  exists licenseKey boundUid boundDeviceId r,
    LicenseKey.getByKey env (or_default k "") (license_keys s) = Some licenseKey /\
    LicenseKey.redeemedAt licenseKey = None /\
    Paywall.choose_binding u g s = inr (boundUid, boundDeviceId) /\
    body = LicenseKey.toPublicJSON licenseKey /\
    license_keys s' =
      LicenseKey.update_rows (LicenseKey.id licenseKey)
        (LicenseKey.mkUpdate boundUid boundDeviceId (Some now)) (license_keys s) /\
    UserSubscription.create
      (Paywall.license_insert licenseKey boundUid boundDeviceId) uuid now
      (user_subscriptions s) = Ok (r, user_subscriptions s') /\
    devices s' = devices s /\ stripe_plans s' = stripe_plans s.
Proof.
  unfold Paywall.redeemLicense.
  destruct (Paywall.redeemLicenseSchema _ _ _ _); [discriminate |].
  destruct (LicenseKey.getByKey env (or_default k "") (license_keys s))
    as [lk |] eqn:Hget; [| discriminate].
  destruct (negb (LicenseKey.isValidForRedemption lk now)) eqn:Hvalid;
    [discriminate |].
  destruct (Paywall.choose_binding u g s) as [response | [bu bd]] eqn:Hbind.
  { apply choose_binding_response in Hbind. destruct Hbind as [e ->].
    discriminate. }
  apply negb_false_iff in Hvalid. unfold LicenseKey.isValidForRedemption in Hvalid.
  apply andb_true_iff in Hvalid. destruct Hvalid as [Hred Hexp].
  apply negb_true_iff in Hred, Hexp.
  unfold LicenseKey.redeem. rewrite Hred, Hexp.
  unfold LicenseKey.update.
  destruct (single _) as [data |]; [| discriminate].
  cbn [with_license_keys user_subscriptions].
  destruct (UserSubscription.create _ uuid now (user_subscriptions s))
    as [[r subs'] | e] eqn:Hc; [| discriminate].
  intros [= <- <-]. exists lk, bu, bd, r. simpl.
  repeat split; try assumption.
  unfold LicenseKey.isRedeemed in Hred.
  destruct (LicenseKey.redeemedAt lk); [discriminate | reflexivity].
Qed.

Lemma choose_binding_guest u g s boundUid boundDeviceId :
  Paywall.choose_binding u g s = inr (boundUid, boundDeviceId) ->
  truthy u = false -> truthy g = true.
Proof.
  unfold Paywall.choose_binding. intros H Hu. rewrite Hu in H.
  destruct (truthy g); [reflexivity | discriminate].
Qed.

Lemma latest_snoc (p : UserSubscription.t -> bool) l r :
  p r = true ->
  (forall x, In x l -> p x = true ->
             UserSubscription.createdAt x < UserSubscription.createdAt r) ->
  UserSubscription.latest (filter p (l ++ [r])) = Some r.
Proof.
  intros Hr. induction l as [| x l IH]; intros Hall; simpl.
  - now rewrite Hr.
  - destruct (p x) eqn:Hx; simpl.
    + rewrite IH by (intros y Hy; apply Hall; now right).
      assert (UserSubscription.createdAt x < UserSubscription.createdAt r)
        by (apply Hall; [now left | assumption]).
      destruct (Z.ltb_spec (UserSubscription.createdAt x)
                           (UserSubscription.createdAt r)); [reflexivity | lia].
    + apply IH. intros y Hy. apply Hall. now right.
Qed.

(** X17.  In every store the service can reach, when redeem-license
    answers OK and the caller's earlier records are older than the
    redemption, the body of check-subscription for the same caller is from
    then on: status [active], no trial window, and a [licenseKey] that
    names the plan [license_] followed by the plan of the key, with
    [expires_at] null; its [plan] is whatever the catalogue holds under
    that name.  The answer of the redemption itself shows the key as it
    was read before the redemption: its [bound_to] is null, although the
    stored key is by then bound to the identity that the route chose for
    the caller and stamped with the time of the redemption. *)
Theorem redeemed_license_gives_active_access :
  forall (env : Env) (plans : list StripePlan.t) (s s' : Store)
         (body_key guest_id id_token uid : option string) (now : Z)
         (uuid : string) (body : LicenseKey.PublicJSON),
    Service.reachable env plans s ->
    Paywall.redeemLicense env body_key guest_id id_token uid now uuid s =
      (Paywall.RedeemOk body, s') ->
    (forall r, In r (user_subscriptions s) -> record_of uid guest_id r = true ->
               UserSubscription.createdAt r < now) ->
    exists licenseKey licenseKey',
      LicenseKey.getByKey env (or_default body_key "") (license_keys s) =
        Some licenseKey /\
      body = LicenseKey.mkPublic (LicenseKey.planId licenseKey)
                                 (LicenseKey.expiresAt licenseKey) None /\
      LicenseKey.getByKey env (or_default body_key "") (license_keys s') =
        Some licenseKey' /\
      LicenseKey.redeemedAt licenseKey' = Some now /\
      Paywall.choose_binding uid guest_id s =
        inr (LicenseKey.boundUid licenseKey', LicenseKey.boundDeviceId licenseKey') /\
      forall now',
        Paywall.checkSubscription uid guest_id now' s' =
        Paywall.CheckOk
          (Paywall.mkCheck "active"
             (StripePlan.getByPlanKey
                (String.append "license_" (LicenseKey.planId licenseKey))
                (stripe_plans s))
             None None
             (Some (Paywall.mkCheckLicenseKey
                      (String.append "license_" (LicenseKey.planId licenseKey))
                      None))).
Proof.
  intros env plans s s' k g t u now uuid body Hr Hok Hold.
  apply redeemLicense_answer in Hok.
  destruct Hok as (lk & bu & bd & r & Hget & Hnull & Hbind & -> & Hkeys & Hc
                   & Hdev & Hplans).
  pose proof (reachable_unredeemed_unbound env plans s Hr) as Hunb.
  rewrite Forall_forall in Hunb.
  destruct (Hunb lk (getByKey_in _ _ _ _ Hget) Hnull) as [Hbu Hbd].
  apply create_spec in Hc. destruct Hc as (Hsubs & _ & Erow).
  exists lk,
    (key_patched (LicenseKey.id lk) (LicenseKey.mkUpdate bu bd (Some now)) lk).
  split; [assumption |]. split.
  { unfold LicenseKey.toPublicJSON, LicenseKey.getBoundInfo.
    now rewrite Hbu, Hbd. }
  split; [now rewrite Hkeys, getByKey_update_rows, Hget |].
  rewrite key_patched_self. split; [reflexivity |].
  pose proof Hbind as Hbind0. apply choose_binding_one_sided in Hbind.
  assert (Hcur : Paywall.current_subscription u g s' = Some r).
  { unfold Paywall.current_subscription. rewrite Hdev, Hsubs.
    destruct Hbind as [(Hu & -> & ->) | (Hu & -> & device & Hgetd & ->)].
    - rewrite Hu. unfold UserSubscription.getByUid. apply latest_snoc.
      + rewrite Erow. unfold Paywall.license_insert. rewrite Hu. simpl.
        destruct u as [u0 |]; [| discriminate]. simpl in Hu |- *.
        apply negb_true_iff in Hu. rewrite Hu. apply String.eqb_refl.
      + intros x Hx Hp. rewrite Erow. simpl. apply Hold; [assumption |].
        unfold record_of. now rewrite Hu.
    - rewrite Hu.
      rewrite (choose_binding_guest _ _ _ _ _ Hbind0 Hu), Hgetd.
      destruct (getById_spec _ _ _ Hgetd) as (_ & _ & Hid).
      unfold UserSubscription.getByDeviceId. apply latest_snoc.
      + rewrite Erow. unfold Paywall.license_insert. simpl.
        apply String.eqb_refl.
      + intros x Hx Hp. rewrite Erow. simpl. apply Hold; [assumption |].
        unfold record_of. rewrite Hu. now rewrite <- Hid. }
  split; [exact Hbind0 |].
  intros now'. unfold Paywall.checkSubscription. rewrite Hcur.
  assert (Hid : negb (truthy u) && negb (truthy g) = false).
  { destruct Hbind as [(Hu & _) | (Hu & _ & device & Hgetd & _)].
    - now rewrite Hu.
    - rewrite Hu. simpl. apply negb_false_iff.
      unfold Paywall.current_subscription in Hcur. rewrite Hu in Hcur.
      destruct (truthy g); [reflexivity | discriminate]. }
  rewrite Hid. f_equal.
  assert (Eplan : UserSubscription.planId r =
                  Some (String.append "license_" (LicenseKey.planId lk)) /\
                  UserSubscription.status r = "active" /\
                  UserSubscription.trialStart r = None /\
                  UserSubscription.trialEnd r = None).
  { rewrite Erow. unfold Paywall.license_insert. now destruct (truthy bu). }
  destruct Eplan as (Ep & Es & Ets & Ete).
  unfold Paywall.check_of, Paywall.plan_of, UserSubscription.getSubscriptionStatus,
    UserSubscription.isActive.
  rewrite Ep, Es, Ets, Ete, Hplans. cbn.
  now destruct (LicenseKey.planId lk).
Qed.

Lemma redeemed_license_gives_active_access_witness :
  exists licenseKey licenseKey',
    LicenseKey.getByKey sample_env sample_key (license_keys sample_guests_store) =
      Some licenseKey /\
    LicenseKey.mkPublic "pro_monthly" None None =
      LicenseKey.mkPublic (LicenseKey.planId licenseKey)
                          (LicenseKey.expiresAt licenseKey) None /\
    LicenseKey.getByKey sample_env sample_key
      (license_keys sample_guest_redeemed_store) = Some licenseKey' /\
    LicenseKey.redeemedAt licenseKey' = Some 1000 /\
    Paywall.choose_binding None (Some sample_guest_a) sample_guests_store =
      inr (LicenseKey.boundUid licenseKey', LicenseKey.boundDeviceId licenseKey') /\
    forall now',
      Paywall.checkSubscription None (Some sample_guest_a) now'
                                sample_guest_redeemed_store =
      Paywall.CheckOk
        (Paywall.mkCheck "active"
           (StripePlan.getByPlanKey
              (String.append "license_" (LicenseKey.planId licenseKey))
              (stripe_plans sample_guests_store))
           None None
           (Some (Paywall.mkCheckLicenseKey
                    (String.append "license_" (LicenseKey.planId licenseKey))
                    None))).
Proof.
  apply (redeemed_license_gives_active_access sample_env sample_plans
           sample_guests_store sample_guest_redeemed_store
           (Some sample_key) (Some sample_guest_a) None None 1000 "row-a"
           (LicenseKey.mkPublic "pro_monthly" None None)
           sample_guests_store_reachable eq_refl).
  intros r Hin _. revert Hin. vm_compute.
  intros [<- | [<- | []]]; reflexivity.
Defined.






(** ** Revocation and access *)

Lemma revokeLicense_subscriptions env a k now s :
  user_subscriptions (snd (Admin.revokeLicense env a k now s)) =
  user_subscriptions s.
Proof. unfold Admin.revokeLicense. by_cases_of_the_handler. Qed.

Lemma revokeLicense_plans env a k now s :
  stripe_plans (snd (Admin.revokeLicense env a k now s)) = stripe_plans s.
Proof. unfold Admin.revokeLicense. by_cases_of_the_handler. Qed.

(** The two subscription routes read the devices, the entitlement records
    and the plans, and not the license keys. *)
Lemma subscription_routes_read s1 s2 uid guest_id u now :
  devices s1 = devices s2 ->
  user_subscriptions s1 = user_subscriptions s2 ->
  stripe_plans s1 = stripe_plans s2 ->
  Paywall.checkSubscription uid guest_id now s1 =
    Paywall.checkSubscription uid guest_id now s2 /\
  Paywall.mySubscription u now s1 = Paywall.mySubscription u now s2.
Proof.
  intros Hd Hs Hp.
  unfold Paywall.checkSubscription, Paywall.mySubscription,
    Paywall.current_subscription, Paywall.view_of, Paywall.check_of,
    Paywall.plan_of.
  now rewrite Hd, Hs, Hp.
Qed.

(** X19.  Revoking a license key takes no access away.  revoke-license
    writes the key and nothing else, so check-subscription and
    my-subscription answer after it exactly as before: the record that a
    redemption created stays [active].  What the revocation does stop is a
    later redemption of the key: a request for it that passes the schema
    is answered 400 "License key has already been redeemed". *)
Theorem revocation_leaves_access_as_it_was :
  forall (env : Env) (x_admin_key body_key : option string) (now : Z) (s : Store),
    (forall uid guest_id now',
        Paywall.checkSubscription uid guest_id now'
          (snd (Admin.revokeLicense env x_admin_key body_key now s)) =
        Paywall.checkSubscription uid guest_id now' s) /\
    (forall uid now',
        Paywall.mySubscription uid now'
          (snd (Admin.revokeLicense env x_admin_key body_key now s)) =
        Paywall.mySubscription uid now' s) /\
    (forall s1 key guest_id id_token uid now' uuid,
        Admin.revokeLicense env x_admin_key body_key now s = (Admin.Revoked, s1) ->
        Paywall.valid_text key = true ->
        (forall g, guest_id = Some g -> g <> "" /\ joiUuid env g = true) ->
        (forall t, id_token = Some t -> t <> "") ->
        or_default key "" = or_default body_key "" ->
        Paywall.redeemLicense env key guest_id id_token uid now' uuid s1 =
        (Paywall.RedeemBadRequest "License key has already been redeemed", s1)).
Proof.
  intros env a k now s. split; [| split].
  - intros u g now'.
    apply (subscription_routes_read _ s u g "" now');
      [apply revokeLicense_devices | apply revokeLicense_subscriptions
      | apply revokeLicense_plans].
  - intros u now'.
    apply (subscription_routes_read _ s None None u now');
      [apply revokeLicense_devices | apply revokeLicense_subscriptions
      | apply revokeLicense_plans].
  - intros s1 key g t u now' uuid Hrev Hvalid Hguest Htoken Hkey.
    unfold Admin.revokeLicense in Hrev.
    destruct (negb (Admin.adminAuth env a)); [discriminate |].
    destruct (negb (truthy k)); [discriminate |].
    destruct (LicenseKey.getByKey env (or_default k "") (license_keys s))
      as [lk |] eqn:Hget; [| discriminate].
    unfold LicenseKey.revoke in Hrev.
    pose proof (key_update_table lk (LicenseKey.mkUpdate None None (Some now))
                                 (license_keys s)) as Ht.
    destruct (LicenseKey.update lk _ (license_keys s)) as [[lk' | e] keys'];
      simpl in Ht; [| discriminate].
    injection Hrev as <-. subst keys'.
    unfold Paywall.redeemLicense.
    rewrite (proj2 (redeemLicenseSchema_passes env key g t)) by auto.
    cbn [license_keys with_license_keys].
    rewrite Hkey, getByKey_update_rows, Hget. cbn [option_map].
    rewrite key_patched_self. reflexivity.
Qed.

Lemma revocation_leaves_access_as_it_was_witness :
  Paywall.redeemLicense sample_env (Some sample_key) (Some sample_guest_a) None
    None 3000 "row-a"
    (snd (Admin.revokeLicense sample_env (Some "admin") (Some sample_key) 2000
            sample_guests_store)) =
  (Paywall.RedeemBadRequest "License key has already been redeemed",
   snd (Admin.revokeLicense sample_env (Some "admin") (Some sample_key) 2000
          sample_guests_store)).
Proof.
  apply (proj2 (proj2 (revocation_leaves_access_as_it_was
                         sample_env (Some "admin") (Some sample_key) 2000
                         sample_guests_store))); try reflexivity.
  - intros g [= <-]. split; [discriminate | reflexivity].
  - discriminate.
Defined.

(** ** The admin key *)

(** X20.  The admin routes let a request in exactly when its
    [x-admin-key] header is not empty and equal to the configured
    [ADMIN_API_KEY]: with no key configured nobody gets in, whatever the
    header.  A request that is not let in is answered 401 and changes
    nothing. *)
Theorem admin_routes_need_the_configured_key :
  forall (env : Env) (x_admin_key : option string),
    (Admin.adminAuth env x_admin_key = true <->
     exists k, k <> "" /\ x_admin_key = Some k /\ ADMIN_API_KEY env = Some k) /\
    (ADMIN_API_KEY env = None -> Admin.adminAuth env x_admin_key = false) /\
    (Admin.adminAuth env x_admin_key = false ->
     forall plan_id count o draws body_key now s,
       Admin.generateLicenseKeys env x_admin_key plan_id count o draws now s =
         (Admin.Unauthorized, s) /\
       Admin.revokeLicense env x_admin_key body_key now s =
         (Admin.Unauthorized, s)).
Proof.
  intros env h. unfold Admin.adminAuth. split; [| split].
  - destruct h as [k |]; [| split; [discriminate | intros (k & _ & H & _); discriminate]].
    destruct (ADMIN_API_KEY env) as [expected |];
      [| split; [discriminate | intros (k' & _ & _ & H); discriminate]].
    simpl. split.
    + intros H. apply andb_true_iff in H. destruct H as [Hne Heq].
      apply negb_true_iff, String.eqb_neq in Hne. apply String.eqb_eq in Heq.
      subst. eauto.
    + intros (k' & Hne & [= <-] & [= <-]). apply andb_true_iff. split.
      * now apply negb_true_iff, String.eqb_neq.
      * apply String.eqb_refl.
  - intros ->. now destruct h.
  - intros H p c o dr k now s.
    unfold Admin.generateLicenseKeys, Admin.revokeLicense, Admin.adminAuth.
    now rewrite H.
Qed.

(** ** The redemption route as it is mounted *)

Lemma getByUid_snoc_other u t r :
  UserSubscription.uid r = None ->
  UserSubscription.getByUid u (t ++ [r]) = UserSubscription.getByUid u t.
Proof.
  intros H. unfold UserSubscription.getByUid. rewrite filter_app. simpl.
  rewrite H. simpl. now rewrite app_nil_r.
Qed.

(** X21.  As the route is mounted, no redemption reaches an account.  A
    request without a guest id is refused with 400 and changes nothing,
    whatever token it carries.  A redemption that succeeds binds the key to
    the guest's device and leaves [bound_uid] NULL, and the record it
    inserts is the device's, with a NULL uid: my-subscription answers for
    every account as it did before. *)
Theorem mounted_redemption_binds_devices_only :
  forall (env : Env) (body_key guest_id id_token : option string) (now : Z)
         (uuid : string) (s : Store),
    (truthy guest_id = false ->
     exists error,
       Mounted.redeemLicense env body_key guest_id id_token now uuid s =
       (Paywall.RedeemBadRequest error, s)) /\
    (forall body s',
        Mounted.redeemLicense env body_key guest_id id_token now uuid s =
          (Paywall.RedeemOk body, s') ->
        exists device r licenseKey,
          Device.getById (or_default guest_id "") (devices s) = Some device /\
          user_subscriptions s' = user_subscriptions s ++ [r] /\
          UserSubscription.uid r = None /\
          UserSubscription.deviceId r = Some (Device.id device) /\
          UserSubscription.status r = "active" /\
          LicenseKey.getByKey env (or_default body_key "") (license_keys s') =
            Some licenseKey /\
          LicenseKey.boundUid licenseKey = None /\
          LicenseKey.boundDeviceId licenseKey = Some (Device.id device) /\
          forall uid now',
            Paywall.mySubscription uid now' s' = Paywall.mySubscription uid now' s).
Proof.
  intros env k g t now uuid s. unfold Mounted.redeemLicense. split.
  - intros Hg. unfold Paywall.redeemLicense.
    destruct (Paywall.redeemLicenseSchema _ _ _ _); [eauto |].
    destruct (LicenseKey.getByKey env (or_default k "") (license_keys s))
      as [lk |]; [| eauto].
    destruct (negb (LicenseKey.isValidForRedemption lk now)); [eauto |].
    unfold Paywall.choose_binding. cbn [truthy]. rewrite Hg. eauto.
  - intros body s' Hok. apply redeemLicense_answer in Hok.
    destruct Hok as (lk & bu & bd & r & Hget & Hnull & Hbind & _ & Hkeys & Hc
                     & Hdev & Hplans).
    apply choose_binding_one_sided in Hbind.
    destruct Hbind as [(Hu & _) | (_ & -> & device & Hgetd & ->)];
      [discriminate |].
    apply create_spec in Hc. destruct Hc as (Hsubs & _ & Er).
    unfold Paywall.license_insert in Er. simpl in Er.
    exists device, r,
      (key_patched (LicenseKey.id lk)
         (LicenseKey.mkUpdate None (Some (Device.id device)) (Some now)) lk).
    split; [assumption |]. split; [assumption |].
    split; [now rewrite Er |]. split; [now rewrite Er |].
    split; [now rewrite Er |].
    split; [now rewrite Hkeys, getByKey_update_rows, Hget |].
    rewrite key_patched_self. split; [reflexivity |]. split; [reflexivity |].
    intros u now'. unfold Paywall.mySubscription.
    rewrite Hsubs, getByUid_snoc_other by now rewrite Er.
    destruct (UserSubscription.getByUid u (user_subscriptions s)); [| reflexivity].
    unfold Paywall.view_of, Paywall.plan_of. now rewrite Hplans.
Qed.

Lemma mounted_redemption_binds_devices_only_witness :
  exists error,
    Mounted.redeemLicense sample_env (Some sample_key) None (Some "token") 5000
                          "row-2" sample_fresh_store =
    (Paywall.RedeemBadRequest error, sample_fresh_store).
Proof.
  apply (proj1 (mounted_redemption_binds_devices_only
                  sample_env (Some sample_key) None (Some "token") 5000 "row-2"
                  sample_fresh_store)).
  reflexivity.
Defined.

Lemma admin_routes_need_the_configured_key_witness :
  Admin.adminAuth
    (mkEnv (createHmacSha256Hex sample_env) None None None (joiUuid sample_env))
    (Some "admin") = false.
Proof.
  apply (proj1 (proj2 (admin_routes_need_the_configured_key
                         (mkEnv (createHmacSha256Hex sample_env) None None None
                                (joiUuid sample_env))
                         (Some "admin")))).
  reflexivity.
Defined.

(** ** What a known device is answered *)

Lemma device_getByDeviceId_in env device_id t d :
  Device.getByDeviceId env device_id t = Some d -> In d t.
Proof.
  unfold Device.getByDeviceId. intros H. apply single_some in H.
  assert (Hin : In d (filter (fun r => Device.deviceId r =?
                                         Device.hashDeviceId env device_id) t))
    by (rewrite H; now left).
  apply filter_In in Hin. tauto.
Qed.

(** X22.  In every store the service can reach, start-guest-trial for a
    fingerprint that a device has changes nothing and answers with that
    device's id and window and with status [trial], whatever has happened
    since the trial started: also when the window has passed, and also when
    the guest has paid or redeemed a license.  Only [is_trial_active] and
    [trial_days_remaining] follow the clock. *)
Theorem known_fingerprint_is_always_answered_trial :
  forall (env : Env) (plans : list StripePlan.t) (s : Store)
         (fingerprint : option string) (now : Z)
         (uuid_device uuid_subscription : string) (device : Device.t),
    Service.reachable env plans s ->
    Paywall.valid_text fingerprint = true ->
    Device.getByDeviceId env (or_default fingerprint "") (devices s) = Some device ->
    exists trial_start,
      Device.trialStart device = Some trial_start /\
      Paywall.startGuestTrial env fingerprint now uuid_device uuid_subscription s =
        (Paywall.TrialOk
           (Device.mkPublic (Device.id device) (Some trial_start)
              (Some (trial_start + Device.TRIAL_MS)) "trial"
              (now <? trial_start + Device.TRIAL_MS)%Z
              (if (now <? trial_start + Device.TRIAL_MS)%Z
               then ceil_div (trial_start + Device.TRIAL_MS - now) MS_PER_DAY
               else 0)), s).
Proof.
  intros env plans s f now ud us device Hr Hvalid Hget.
  destruct (reachable_devices_invariant env plans s Hr) as (_ & _ & Hall).
  rewrite Forall_forall in Hall.
  destruct (Hall device (device_getByDeviceId_in _ _ _ _ Hget))
    as (Est & ts & Ets & Ete).
  exists ts. split; [assumption |].
  unfold Paywall.startGuestTrial. rewrite Hvalid, Hget. cbn [negb].
  unfold Device.toPublicJSON.
  destruct (device_trial_view device now _ Est Ete) as [-> ->].
  now rewrite Est, Ets, Ete.
Qed.

Lemma known_fingerprint_is_always_answered_trial_witness :
  exists trial_start,
    Some 1000 = Some trial_start /\
    Paywall.startGuestTrial sample_env (Some "fingerprint-1") 999999999 "dev-2"
                            "row-2" sample_trial_store =
      (Paywall.TrialOk
         (Device.mkPublic "dev-1" (Some trial_start)
            (Some (trial_start + Device.TRIAL_MS)) "trial"
            (999999999 <? trial_start + Device.TRIAL_MS)%Z
            (if (999999999 <? trial_start + Device.TRIAL_MS)%Z
             then ceil_div (trial_start + Device.TRIAL_MS - 999999999) MS_PER_DAY
             else 0)), sample_trial_store).
Proof.
  apply (known_fingerprint_is_always_answered_trial sample_env sample_plans
           sample_trial_store (Some "fingerprint-1") 999999999 "dev-2" "row-2"
           (Device.mk "dev-1" (Device.hashDeviceId sample_env "fingerprint-1")
                      1000 1000 None (Some 1000) (Some (1000 + Device.TRIAL_MS))
                      "trial")).
  - exact sample_trial_store_reachable.
  - reflexivity.
  - reflexivity.
Defined.
